(** * Smart recruiter: a shallow embedding of [main.py] and [try.py]

    The repository holds two variants of one Tk application: [main.py]
    (one resume, plain-text report) and [try.py] (several resumes, dynamic
    interview suggestions, PDF report).  This development embeds the
    functional core of both (text cleanup, PDF text extraction, match
    score, prompts, the session globals and the handlers that change them)
    and proves the properties the specification states about them. *)

From Stdlib Require Import String Ascii DecimalString.
From Stdlib Require Import ZArith NArith Arith Lia Bool List.
From Stdlib Require Import Floats.
Import ListNotations.

Set Implicit Arguments.

(** ** Python strings

    A Python [str] is a sequence of Unicode code points; it is embedded as
    the list of its code points. *)

Definition char := N.
Definition str := list char.

(** [lit "..."] is the [str] of an ASCII literal of the sources. *)
Definition lit (s : string) : str :=
  List.map N_of_ascii (list_ascii_of_string s).

Definition char_eqb (a b : char) : bool := N.eqb a b.

Definition backslash : char := 92%N.
Definition asterisk : char := 42%N.
Definition newline : char := 10%N.
Definition carriage_return : char := 13%N.

Fixpoint str_eqb (a b : str) : bool :=
  match a, b with
  | [], [] => true
  | x :: a', y :: b' => char_eqb x y && str_eqb a' b'
  | _, _ => false
  end.

(** Truth value of a [str] ([if s:], [not s]): non-empty. *)
Definition truthy (s : str) : bool :=
  match s with [] => false | _ :: _ => true end.

(** [str.isspace] on one code point, the table of CPython's
    [_PyUnicode_IsWhitespace]. *)
Definition is_space (c : char) : bool :=
  ((9 <=? c) && (c <=? 13) || (28 <=? c) && (c <=? 32)
   || (c =? 133) || (c =? 160) || (c =? 5760)
   || (8192 <=? c) && (c <=? 8202)
   || (c =? 8232) || (c =? 8233) || (c =? 8239) || (c =? 8287)
   || (c =? 12288))%N.

(** [s.lstrip()], [s.rstrip()], [s.strip()] with no argument. *)
Fixpoint lstrip (s : str) : str :=
  match s with
  | [] => []
  | c :: r => if is_space c then lstrip r else s
  end.

Definition rstrip (s : str) : str := rev (lstrip (rev s)).

Definition strip (s : str) : str := rstrip (lstrip s).

(** [sep.join(parts)]. *)
Fixpoint join (sep : str) (parts : list str) : str :=
  match parts with
  | [] => []
  | [p] => p
  | p :: ps => p ++ sep ++ join sep ps
  end.

(** [s.replace('*', '')]: one-character pattern, empty replacement. *)
Definition replace_asterisks (s : str) : str :=
  filter (fun c => negb (char_eqb c asterisk)) s.

(** [s.split('\n\n')]: the pieces between the non-overlapping occurrences
    of two consecutive newlines, scanned from the left; [cur] holds the
    current piece in reverse. *)
Fixpoint split_blank_from (cur : str) (s : str) : list str :=
  match s with
  | [] => [rev cur]
  | c :: r =>
      match r with
      | d :: r' =>
          if char_eqb c newline && char_eqb d newline
          then rev cur :: split_blank_from [] r'
          else split_blank_from (c :: cur) r
      | [] => [rev (c :: cur)]
      end
  end.

Definition split_blank (s : str) : list str := split_blank_from [] s.

(** [s.encode('utf-8')] succeeds: the text holds no surrogate code point
    ([U+D800] to [U+DFFF]), the only code points of a Python string that
    UTF-8 has no encoding for. *)
Definition encodable (s : str) : bool :=
  forallb (fun c => negb ((55296 <=? c) && (c <=? 57343))%N) s.

(** [s.endswith(suffix)]. *)
Definition endswith (s suffix : str) : bool :=
  (length suffix <=? length s)
  && str_eqb (skipn (length s - length suffix) s) suffix.

(** [str(n)] for a non-negative integer. *)
Definition str_of_nat (n : nat) : str :=
  lit (NilZero.string_of_uint (Nat.to_uint n)).

(** A [%02d]-style field of [strftime]: [width] digits, zero padded. *)
Definition zero_pad (width : nat) (n : nat) : str :=
  let d := str_of_nat n in
  repeat 48%N (width - length d) ++ d.

(** ** The regular expression of the cleanup step

    A small model of Python's [re] sufficient for the one pattern of the
    sources, [r"\\(.?)\\*"], and the template [r"\1"].  In the raw string
    the two characters [\\] are an escaped backslash, so the pattern reads:
    a literal backslash; group 1 holding at most one character other than a
    newline (greedy [?]); zero or more literal backslashes (greedy [*]
    applied to the escaped backslash that precedes it). *)

Module Re.

Inductive regex :=
| Chr (c : char)            (* a literal character *)
| Dot                       (* [.] without DOTALL: anything but a newline *)
| Opt (r : regex)           (* greedy [r?] *)
| Star (r : regex)          (* greedy [r*] *)
| Seq (r1 r2 : regex)
| Group1 (r : regex).       (* capturing group number 1 *)

(** What a match leaves: the unread input and group 1 ([None] while the
    group has not taken part). *)
Definition outcome := (str * option str)%type.
Definition cont := str -> option str -> option outcome.

(** Backtracking matcher in continuation-passing style: alternatives are
    tried in the order of the [sre] engine (greedy first), and the first
    one whose continuation succeeds is the match.  [fuel] bounds the
    iterations of [Star]; an iteration has to consume input. *)
Fixpoint exec (fuel : nat) : regex -> str -> option str -> cont -> option outcome :=
  fix go (r : regex) (s : str) (g : option str) (k : cont) : option outcome :=
    match r with
    | Chr c =>
        match s with
        | x :: s' => if char_eqb x c then k s' g else None
        | [] => None
        end
    | Dot =>
        match s with
        | x :: s' => if char_eqb x newline then None else k s' g
        | [] => None
        end
    | Opt a =>
        match go a s g k with
        | Some o => Some o
        | None => k s g
        end
    | Star a =>
        match fuel with
        | O => k s g
        | S fuel' =>
            match go a s g (fun s' g' =>
                              if length s' <? length s
                              then exec fuel' (Star a) s' g' k
                              else None) with
            | Some o => Some o
            | None => k s g
            end
        end
    | Seq a b => go a s g (fun s' g' => go b s' g' k)
    | Group1 a =>
        go a s g (fun s' _ => k s' (Some (firstn (length s - length s') s)))
    end.

(** [pattern.match(s)] anchored at the head of [s]. *)
Definition match_at (r : regex) (s : str) : option outcome :=
  exec (length s) r s None (fun s' g => Some (s', g)).

(** Expansion of the template [r"\1"]: the text of group 1, empty when
    the group did not take part. *)
Definition expand_group1 (g : option str) : str :=
  match g with Some t => t | None => [] end.

(** [re.sub(r, r"\1", s)]: leftmost non-overlapping matches, scanned
    from the left; after an empty match one character is copied. *)
Fixpoint sub_from (fuel : nat) (r : regex) (s : str) : str :=
  match fuel with
  | O => s
  | S fuel' =>
      let copy_one :=
        match s with
        | [] => []
        | c :: s' => c :: sub_from fuel' r s'
        end in
      match match_at r s with
      | Some (rest, g) =>
          if length rest <? length s
          then expand_group1 g ++ sub_from fuel' r rest
          else expand_group1 g ++ copy_one
      | None => copy_one
      end
  end.

Definition sub (r : regex) (s : str) : str := sub_from (S (length s)) r s.

(** [r"\\(.?)\\*"] *)
Definition escape_pattern : regex :=
  Seq (Chr backslash) (Seq (Group1 (Opt Dot)) (Star (Chr backslash))).

End Re.

(** [re.sub(r"\\(.?)\\*", r"\1", content).strip()], the cleanup applied to
    every model response in both files. *)
Definition cleanup (content : str) : str :=
  strip (Re.sub Re.escape_pattern content).

(** Closed form of [Re.sub Re.escape_pattern]: a left-to-right scan.  A
    backslash is dropped; the character after it, unless it is a newline
    or the end of the text, is kept as group 1 and the backslashes that
    follow that character are dropped with the match. *)
Fixpoint drop_backslashes (s : str) : str :=
  match s with
  | [] => []
  | c :: r => if char_eqb c backslash then drop_backslashes r else s
  end.

Inductive scan_state :=
| Scanning        (* between matches *)
| AfterBackslash  (* the opening backslash was read, group 1 comes next *)
| Trailing.       (* group 1 was read, trailing backslashes are dropped *)

Fixpoint unescape_from (st : scan_state) (s : str) : str :=
  match s with
  | [] => []
  | c :: r =>
      match st with
      | Scanning =>
          if char_eqb c backslash then unescape_from AfterBackslash r
          else c :: unescape_from Scanning r
      | AfterBackslash =>
          if char_eqb c newline then c :: unescape_from Scanning r
          else c :: unescape_from Trailing r
      | Trailing =>
          if char_eqb c backslash then unescape_from Trailing r
          else c :: unescape_from Scanning r
      end
  end.

Definition unescape (s : str) : str := unescape_from Scanning s.

(** What one match of [r"\\(.?)\\*"] at the head of a text consumes and
    captures. *)
Definition escape_match (s : str) : option Re.outcome :=
  match s with
  | [] => None
  | c :: r =>
      if char_eqb c backslash then
        match r with
        | [] => Some ([], Some [])
        | d :: r' =>
            if char_eqb d newline then Some (r, Some [])
            else Some (drop_backslashes r', Some [d])
        end
      else None
  end.

Definition not_backslash (c : char) : bool := negb (char_eqb c backslash).

(** No backslash of the text is directly followed by another one. *)
Fixpoint no_adjacent_backslashes (s : str) : bool :=
  match s with
  | c :: r =>
      match r with
      | d :: _ =>
          negb (char_eqb c backslash && char_eqb d backslash)
          && no_adjacent_backslashes r
      | [] => true
      end
  | [] => true
  end.

Definition blank (s : str) : Prop := Forall (fun c => is_space c = true) s.

Definition char_eq_dec : forall a b : char, {a = b} + {a <> b} := N.eq_dec.

(** Number of occurrences of a character in a text, [s.count(c)]. *)
Definition occurrences (c : char) (s : str) : nat := count_occ char_eq_dec s c.

(** ** Numbers and time *)

(** [str(n)] for a non-negative integer of any size. *)
Definition str_of_N (n : N) : str :=
  lit (NilZero.string_of_uint (N.to_uint n)).

(** Nearest integer to [num / den] for [den > 0], ties to even. *)
Definition round_half_even (num den : Z) : Z :=
  let q := (num / den)%Z in
  let r := (num mod den)%Z in
  if (2 * r <? den)%Z then q
  else if (den <? 2 * r)%Z then (q + 1)%Z
  else if Z.even q then q else (q + 1)%Z.

(** [f"{x:.1f}"] for a Python float (IEEE binary64): the exact binary
    value rounded to one decimal, ties to even; the sign is that of [x]. *)
Definition format_1f (x : float) : str :=
  let signed (neg : bool) (body : str) := (if neg then lit "-" else []) ++ body in
  match Prim2SF x with
  | S754_nan => lit "nan"
  | S754_infinity neg => signed neg (lit "inf")
  | S754_zero neg => signed neg (lit "0.0")
  | S754_finite neg m e =>
      let tenths :=
        if (0 <=? e)%Z then (Zpos m * 10 * 2 ^ e)%Z
        else round_half_even (Zpos m * 10) (2 ^ (- e)) in
      signed neg (str_of_N (Z.to_N (tenths / 10)) ++ lit "."
                  ++ str_of_N (Z.to_N (tenths mod 10)))
  end.

(** The ranges a [datetime.datetime] keeps its time of day in. *)
Definition time_of_day (h m s : nat) : bool :=
  (h <? 24) && (m <? 60) && (s <? 60).

(** The fields of a [datetime.datetime] the sources format; as in Python,
    no value exists with a time of day out of range. *)
Record datetime := {
  year : nat; month : nat; day : nat;
  hour : nat; minute : nat; second : nat;
  time_ok : time_of_day hour minute second = true
}.

Definition format_HMS (h m s : nat) : str :=
  zero_pad 2 h ++ lit ":" ++ zero_pad 2 m ++ lit ":" ++ zero_pad 2 s.

(** [t.strftime("%H:%M:%S")] *)
Definition strftime_HMS (t : datetime) : str :=
  format_HMS (hour t) (minute t) (second t).

(** [t.strftime('%Y-%m-%d %H:%M')] *)
Definition strftime_Ymd_HM (t : datetime) : str :=
  zero_pad 4 (year t) ++ lit "-" ++ zero_pad 2 (month t) ++ lit "-"
  ++ zero_pad 2 (day t) ++ lit " " ++ zero_pad 2 (hour t) ++ lit ":"
  ++ zero_pad 2 (minute t).

Definition is_digit (c : char) : bool := ((48 <=? c) && (c <=? 57))%N.

Definition digit_value (c : char) : nat := N.to_nat (c - 48).

(** Well-formedness of an ["HH:MM:SS"] string: eight characters, two-digit
    fields separated by colons, the fields within the ranges of a clock. *)
Definition is_HH_MM_SS (s : str) : bool :=
  match s with
  | [h1; h2; c1; m1; m2; c2; s1; s2] =>
      is_digit h1 && is_digit h2 && is_digit m1 && is_digit m2
      && is_digit s1 && is_digit s2
      && char_eqb c1 58%N && char_eqb c2 58%N
      && (10 * digit_value h1 + digit_value h2 <? 24)
      && (10 * digit_value m1 + digit_value m2 <? 60)
      && (10 * digit_value s1 + digit_value s2 <? 60)
  | _ => false
  end.

(** ** The outside world

    Everything the two programs reach outside their own state: the hosted
    language model, the sentence-embedding backend, the clock, the Tk
    dialogs, the file system, [reportlab] and standard output.  What the
    programs send out is recorded as a trace of events; what comes in is
    given by oracles, functions of the trace so far, so that the model, the
    user and the clock may answer differently each time they are asked. *)

(** A flowable of a [reportlab] story. *)
Inductive Flowable :=
| Paragraph (text : str) (style : str)
| Spacer (width height : nat).

(** The texts of the paragraphs of a story. *)
Definition paragraph_texts (story : list Flowable) : list str :=
  flat_map (fun f => match f with
                     | Paragraph text _ => [text]
                     | Spacer _ _ => []
                     end) story.

Inductive Event :=
| EvLlmInvoke (prompt : str)                  (* [llm.invoke(prompt)] *)
| EvShowError (title text : str)              (* [messagebox.showerror] *)
| EvShowWarning (title text : str)            (* [messagebox.showwarning] *)
| EvShowInfo (title text : str)               (* [messagebox.showinfo] *)
| EvAskYesNo (title text : str)               (* [messagebox.askyesno] *)
| EvAskOpenFilename (title : str)             (* [filedialog.askopenfilename] *)
| EvAskSaveAsFilename (title : str)           (* [filedialog.asksaveasfilename] *)
| EvOpenPdf (path : str)                      (* [pdfplumber.open] *)
| EvReadText (path : str)                     (* [open(path, 'r').read()] *)
| EvOpenWrite (path : str)                    (* [open(path, "w")]: created, emptied *)
| EvWriteText (path content : str)            (* [f.write(content)] into that file *)
| EvBuildPdf (path : str) (story : list Flowable)  (* [doc.build(story)] *)
| EvPrint (line : str).                       (* [print] *)

Definition trace := list Event.

(** The exceptions the outside world raises into the programs. *)
Inductive exn :=
| LlmError (text : str)         (* [llm.invoke] failed; [text] is [str(e)] *)
| FileError (path : str)        (* a file could not be opened, decoded or built *)
| EncodeError (text : str)      (* [UnicodeEncodeError] of [f.write(text)] *)
| MarkupError (text : str).     (* [ValueError] of [Paragraph(text, style)] *)

(** [str(e)] *)
Definition exn_text (e : exn) : str :=
  match e with
  | LlmError text => text
  | FileError path => path
  | EncodeError text => text
  | MarkupError text => text
  end.

Record Extern := {
  (** [llm.invoke(prompt).content], or the text of the exception raised. *)
  llm_invoke : trace -> str -> str + str;
  (** [embedding_model.encode(text, convert_to_tensor=True)], asked after
      the events of the trace *)
  encode : trace -> str -> list float;
  (** [datetime.datetime.now()] *)
  now : trace -> datetime;
  (** the user's answer to [messagebox.askyesno] *)
  askyesno : trace -> bool;
  (** the path chosen in a file dialog, empty when it is cancelled *)
  askfilename : trace -> str;
  (** the text of every page of a PDF as [page.extract_text()] returns it
      ([None] or a string), or [None] when the file cannot be opened *)
  pdf_pages : trace -> str -> option (list (option str));
  (** the UTF-8 decoded contents of a file, line endings as they are in
      the file, or [None] when it cannot be opened or decoded *)
  file_text : trace -> str -> option str;
  (** whether [open(path, "w", encoding="utf-8")] succeeds *)
  open_for_writing : trace -> str -> bool;
  (** whether [Paragraph(text, style)] of [reportlab] takes [text], which
      it reads as markup, or raises *)
  paragraph_ok : str -> bool;
  (** whether [doc.build(story)] gets the document written to the path *)
  pdf_build : trace -> str -> list Flowable -> bool
}.

(** ** Handlers as state transformers that may raise *)

Inductive result (A : Type) :=
| Ok (a : A)
| Raised (e : exn).
Arguments Raised {A} e.

(** The state of a run: the module globals, the widgets and the trace. *)
Record World (G U : Type) := {
  globals : G;
  gui : U;
  events : trace
}.

Definition M (G U A : Type) := World G U -> result A * World G U.

Definition ret {G U A} (a : A) : M G U A := fun w => (Ok a, w).

Definition bind {G U A B} (m : M G U A) (k : A -> M G U B) : M G U B :=
  fun w =>
    match m w with
    | (Ok a, w') => k a w'
    | (Raised e, w') => (Raised e, w')
    end.

Declare Scope py_scope.
Delimit Scope py_scope with py.
Notation "x <- m ;; k" := (bind m (fun x => k))
  (at level 61, m at next level, right associativity) : py_scope.
Notation "m ;;; k" := (bind m (fun _ => k))
  (at level 61, right associativity) : py_scope.
Open Scope py_scope.

Definition raise {G U A} (e : exn) : M G U A := fun w => (Raised e, w).

(** [try: m  except Exception as e: h e] *)
Definition try_except {G U A} (m : M G U A) (h : exn -> M G U A) : M G U A :=
  fun w =>
    match m w with
    | (Ok a, w') => (Ok a, w')
    | (Raised e, w') => h e w'
    end.

Definition get_globals {G U} : M G U G := fun w => (Ok (globals w), w).
Definition get_gui {G U} : M G U U := fun w => (Ok (gui w), w).
Definition get_trace {G U} : M G U trace := fun w => (Ok (events w), w).

Definition set_globals {G U} (g : G) : M G U unit :=
  fun w => (Ok tt, {| globals := g; gui := gui w; events := events w |}).

Definition set_gui {G U} (u : U) : M G U unit :=
  fun w => (Ok tt, {| globals := globals w; gui := u; events := events w |}).

Definition emit {G U} (e : Event) : M G U unit :=
  fun w => (Ok tt, {| globals := globals w; gui := gui w;
                       events := events w ++ [e] |}).

(** [llm.invoke(prompt).content] *)
Definition invoke {G U} (ext : Extern) (prompt : str) : M G U str :=
  t <- get_trace ;;
  emit (EvLlmInvoke prompt) ;;;
  match llm_invoke ext t prompt with
  | inl content => ret content
  | inr text => raise (LlmError text)
  end.

Definition ask_yes_no {G U} (ext : Extern) (title text : str) : M G U bool :=
  t <- get_trace ;;
  emit (EvAskYesNo title text) ;;;
  ret (askyesno ext t).

Definition ask_open_filename {G U} (ext : Extern) (title : str) : M G U str :=
  t <- get_trace ;;
  emit (EvAskOpenFilename title) ;;;
  ret (askfilename ext t).

Definition ask_save_as_filename {G U} (ext : Extern) (title : str) : M G U str :=
  t <- get_trace ;;
  emit (EvAskSaveAsFilename title) ;;;
  ret (askfilename ext t).

Definition clock {G U} (ext : Extern) : M G U datetime :=
  t <- get_trace ;; ret (now ext t).

(** The remote model calls recorded in a trace. *)
Definition llm_calls (t : trace) : list str :=
  flat_map (fun e => match e with EvLlmInvoke p => [p] | _ => [] end) t.

(** ** Code shared by [main.py] and [try.py] *)

(** The loop of [extract_text_from_pdf] over the pages' texts and the
    final [strip]: [if page_text := page.extract_text()] skips a page that
    yields [None] or the empty string. *)
Definition add_page (text : str) (page : option str) : str :=
  match page with
  | Some page_text =>
      if truthy page_text then text ++ page_text ++ [newline] else text
  | None => text
  end.

Definition extract_pages (pages : list (option str)) : str :=
  strip (fold_left add_page pages []).

(** [extract_text_from_pdf], main.py lines 25-32 and try.py lines 30-37. *)
Definition extract_text_from_pdf {G U} (ext : Extern) (pdf_path : str)
  : M G U str :=
  t <- get_trace ;;
  emit (EvOpenPdf pdf_path) ;;;
  match pdf_pages ext t pdf_path with
  | Some pages => ret (extract_pages pages)
  | None => raise (FileError pdf_path)
  end.

(** The texts of the pages that have some, in page order. *)
Definition extractable (pages : list (option str)) : list str :=
  flat_map (fun page =>
              match page with
              | Some page_text => if truthy page_text then [page_text] else []
              | None => []
              end) pages.

(** The PDF text as the specification words it: the extractable pages
    joined by single newlines, trailing whitespace trimmed. *)
Definition spec_pdf_text (pages : list (option str)) : str :=
  rstrip (join [newline] (extractable pages)).

(** What a file opened in text mode with the default [newline=None] gives
    to [read()]: each line ending of the decoded contents, be it ["\r\n"],
    a lone ["\r"] or ["\n"], comes out as ["\n"]. *)
Fixpoint universal_newlines (s : str) : str :=
  match s with
  | [] => []
  | c :: r =>
      if char_eqb c carriage_return then
        newline :: match r with
                   | d :: r' =>
                       if char_eqb d newline then universal_newlines r'
                       else universal_newlines r
                   | [] => []
                   end
      else c :: universal_newlines r
  end.

(** [open(file_path, 'r', encoding='utf-8').read()] *)
Definition read_text {G U} (ext : Extern) (file_path : str) : M G U str :=
  t <- get_trace ;;
  emit (EvReadText file_path) ;;;
  match file_text ext t file_path with
  | Some contents => ret (universal_newlines contents)
  | None => raise (FileError file_path)
  end.

(** The conditional expression of the three loaders:
    [extract_text_from_pdf(p) if p.endswith('.pdf') else open(p).read()]. *)
Definition load_document {G U} (ext : Extern) (file_path : str) : M G U str :=
  if endswith file_path (lit ".pdf")
  then extract_text_from_pdf ext file_path
  else read_text ext file_path.

(** [util.pytorch_cos_sim(a, b).item()] of [sentence_transformers] on two
    vectors: each is divided by its Euclidean norm (by [1e-12] when the
    norm is smaller, [torch.nn.functional.normalize]), and the similarity
    is the dot product of the two unit vectors.  The library computes in
    single precision; the arithmetic here is that of a Python float. *)
Definition dot (u v : list float) : float :=
  fold_left (fun acc p => (acc + fst p * snd p)%float) (combine u v) 0%float.

Definition norm_floor : float := (1 / 1000000000000)%float.

Definition normalize (v : list float) : list float :=
  let norm := sqrt (dot v v) in
  let denom := if (norm <? norm_floor)%float then norm_floor else norm in
  List.map (fun x => (x / denom)%float) v.

Definition pytorch_cos_sim (a b : list float) : float :=
  dot (normalize a) (normalize b).

(** The embedding backend gives the same vector whenever it is given the
    same text. *)
Definition deterministic_encoder (ext : Extern) : Prop :=
  forall (t t' : trace) (text : str), encode ext t text = encode ext t' text.

(** [calculate_match_score(jd, resume)], main.py lines 35-40 and try.py
    lines 40-45, called after the events [t]. *)
Definition calculate_match_score (ext : Extern) (t : trace) (jd resume : str)
  : float :=
  let jd_embedding := encode ext t jd in
  let resume_embedding := encode ext t resume in
  let similarity := pytorch_cos_sim jd_embedding resume_embedding in
  (similarity * 10)%float.

(** One record of the conversation, the dict with the keys ["sender"],
    ["message"] and ["timestamp"]. *)
Record Message := {
  sender : str;
  message : str;
  timestamp : str
}.

(** [f"{msg['sender']}: {msg['message']}"] *)
Definition transcript_line (msg : Message) : str :=
  sender msg ++ lit ": " ++ message msg.

(** [l[-3:]] *)
Definition last_three {A} (l : list A) : list A := skipn (length l - 3) l.

(** Text of a Tk [Text] widget as [get("1.0", tk.END)] returns it: the
    content followed by the newline Tk keeps at the end. *)
Definition text_get_all (content : str) : str := content ++ [newline].

(** The sender after a message: ["Candidate" if sender == "Recruiter" else
    "Recruiter"]. *)
Definition next_sender (s : str) : str :=
  if str_eqb s (lit "Recruiter") then lit "Candidate" else lit "Recruiter".

(** Lines of a triple-quoted template, joined by newlines. *)
Definition text_lines (ls : list str) : str := join [newline] ls.

(** ** A concrete outside world

    A small instance of [Extern] on which the handlers can be run: the
    model always gives the same reply, the user always gives the same
    answers, the clock stands still, and texts are embedded in the plane
    by a toy encoder. *)

(** Texts that start with a capital letter point one way, all others the
    opposite way. *)
Definition demo_encode (text : str) : list float :=
  match text with
  | c :: _ =>
      if ((65 <=? c) && (c <=? 90))%N then [1%float; 0%float]
      else [(-1)%float; 0%float]
  | [] => [(-1)%float; 0%float]
  end.

Definition demo_pages : list (option str) :=
  [Some (lit "  Senior data"); None; Some []; Some (lit "analyst ")].

Definition demo_time : datetime :=
  {| year := 2024; month := 5; day := 17;
     hour := 9; minute := 30; second := 5; time_ok := eq_refl |}.

Definition demo_extern (reply : str + str) (yes : bool) (path : str) : Extern :=
  {| llm_invoke := fun _ _ => reply;
     encode := fun _ => demo_encode;
     now := fun _ => demo_time;
     askyesno := fun _ => yes;
     askfilename := fun _ => path;
     pdf_pages := fun _ _ => Some demo_pages;
     file_text := fun _ _ => Some (lit " Data analyst, remote ");
     open_for_writing := fun _ _ => true;
     paragraph_ok := fun _ => true;
     pdf_build := fun _ _ _ => true |}.

Definition demo_message (who text : string) : Message :=
  {| sender := lit who; message := lit text; timestamp := lit "09:30:05" |}.

Definition demo_messages : list Message :=
  [ demo_message "Recruiter" "Tell me about SQL.";
    demo_message "Candidate" "I use window functions daily.";
    demo_message "Recruiter" "And Python?";
    demo_message "Candidate" "Mostly pandas.";
    demo_message "Recruiter" "Good." ].

(** ** [main.py]: one resume, plain-text report *)

Module Main.

(** The module globals. *)
Record Globals := {
  conversation_messages : list Message;
  job_description : str;
  candidate_resume : str
}.

(** The widgets of [ChatApp] whose content the handlers read or write.
    Colours, fonts, text tags, geometry and the enabled flag of the chat
    display hold nothing a handler reads back and are left out. *)
Record Gui := {
  status_label : str;          (* text of [self.status_label] *)
  chat_display : str;          (* text of [self.chat_display] *)
  message_input : str;         (* text typed into [self.message_input] *)
  current_sender : str;        (* value of [self.current_sender] *)
  results_windows : list str   (* analysis shown in each results window *)
}.

Definition state := World Globals Gui.
Definition cmd (A : Type) := M Globals Gui A.

(** The state at start-up. *)
Definition initial : state :=
  {| globals := {| conversation_messages := []; job_description := [];
                   candidate_resume := [] |};
     gui := {| status_label := lit "Please load job description and resume";
               chat_display := []; message_input := [];
               current_sender := lit "Recruiter"; results_windows := [] |};
     events := [] |}.

Definition set_conversation_messages (l : list Message) : cmd unit :=
  g <- get_globals ;;
  set_globals {| conversation_messages := l;
                 job_description := job_description g;
                 candidate_resume := candidate_resume g |}.

Definition set_job_description (s : str) : cmd unit :=
  g <- get_globals ;;
  set_globals {| conversation_messages := conversation_messages g;
                 job_description := s;
                 candidate_resume := candidate_resume g |}.

Definition set_candidate_resume (s : str) : cmd unit :=
  g <- get_globals ;;
  set_globals {| conversation_messages := conversation_messages g;
                 job_description := job_description g;
                 candidate_resume := s |}.

Definition set_status_label (s : str) : cmd unit :=
  u <- get_gui ;;
  set_gui {| status_label := s; chat_display := chat_display u;
             message_input := message_input u;
             current_sender := current_sender u;
             results_windows := results_windows u |}.

Definition fit_prompt (jd resume conversation_text : str) : str :=
  text_lines
    [ [];
      lit "    Based on the following information, provide a detailed analysis of whether this candidate should be advanced to the next interview stage:";
      [];
      lit "    JOB DESCRIPTION:";
      lit "    " ++ jd;
      [];
      lit "    CANDIDATE RESUME:";
      lit "    " ++ resume;
      [];
      lit "    CONVERSATION TRANSCRIPT:";
      lit "    " ++ conversation_text;
      [];
      lit "    Please analyze and provide:";
      lit "    1. Key Insights from Conversation (technical skills, communication, cultural fit, red flags)";
      lit "    2. Resume vs. Conversation Consistency";
      lit "    3. Job Fit Analysis";
      lit "    4. FINAL RECOMMENDATION: PROCEED TO INTERVIEW / DECLINE / ADDITIONAL SCREENING";
      lit "    5. Confidence Level: [High/Medium/Low]";
      lit "    6. Justification for recommendation";
      lit "    " ].

(** [analyze_candidate_fit], main.py lines 43-69. *)
Definition analyze_candidate_fit (ext : Extern) : cmd str :=
  g <- get_globals ;;
  let conversation_text :=
    join [newline] (List.map transcript_line (conversation_messages g)) in
  let prompt :=
    fit_prompt (job_description g) (candidate_resume g) conversation_text in
  content <- invoke ext prompt ;;
  ret (cleanup content).

(** [ChatApp.update_status], main.py lines 166-178. *)
Definition update_status (ext : Extern) : cmd unit :=
  g <- get_globals ;;
  t <- get_trace ;;
  if truthy (job_description g) && truthy (candidate_resume g) then
    let score :=
      calculate_match_score ext t (job_description g) (candidate_resume g) in
    set_status_label (lit "Initial Resume Match: " ++ format_1f score ++ lit "/10")
  else if truthy (job_description g) then
    set_status_label (lit "Job description loaded. Please load resume.")
  else if truthy (candidate_resume g) then
    set_status_label (lit "Resume loaded. Please load job description.")
  else
    set_status_label (lit "Please load job description and resume").

(** [ChatApp.load_job_description], main.py lines 138-150. *)
Definition load_job_description (ext : Extern) : cmd unit :=
  file_path <- ask_open_filename ext (lit "Select Job Description") ;;
  if negb (truthy file_path) then ret tt
  else
    text <- load_document ext file_path ;;
    set_job_description text ;;;
    update_status ext.

(** [ChatApp.load_candidate_resume], main.py lines 152-164. *)
Definition load_candidate_resume (ext : Extern) : cmd unit :=
  file_path <- ask_open_filename ext (lit "Select Candidate Resume") ;;
  if negb (truthy file_path) then ret tt
  else
    text <- load_document ext file_path ;;
    set_candidate_resume text ;;;
    update_status ext.

(** [ChatApp.send_message], main.py lines 180-213. *)
Definition send_message (ext : Extern) : cmd unit :=
  u <- get_gui ;;
  let message := strip (text_get_all (message_input u)) in
  if negb (truthy message) then ret tt
  else
    let sender := current_sender u in
    t <- clock ext ;;
    let timestamp := strftime_HMS t in
    g <- get_globals ;;
    set_conversation_messages
      (conversation_messages g
       ++ [ {| sender := sender; message := message;
               timestamp := timestamp |} ]) ;;;
    set_gui {| status_label := status_label u;
               chat_display :=
                 chat_display u ++ (lit "[" ++ timestamp ++ lit "] ")
                 ++ (sender ++ lit ": ")
                 ++ (message ++ [newline; newline]);
               message_input := [];
               current_sender := next_sender sender;
               results_windows := results_windows u |}.

(** [ChatApp.show_analysis_results], main.py lines 235-274: a new window
    showing the analysis (the highlighting only sets tags). *)
Definition show_analysis_results (analysis : str) : cmd unit :=
  set_status_label (lit "Analysis complete") ;;;
  u <- get_gui ;;
  set_gui {| status_label := status_label u;
             chat_display := chat_display u;
             message_input := message_input u;
             current_sender := current_sender u;
             results_windows := results_windows u ++ [analysis] |}.

(** The two message boxes of the validation in [analyze_conversation]. *)
Definition missing_documents : Event :=
  EvShowError (lit "Error")
    (lit "Please load both job description and resume before analyzing").

Definition short_conversation : Event :=
  EvShowWarning (lit "Warning")
    (lit "The conversation is too short. Add more messages before analyzing.").

(** [ChatApp.analyze_conversation], main.py lines 215-233.  The handler is
    taken as it runs when [self.root.update()] finds no event waiting: the
    handlers Tk would run at that point for events that are pending are not
    part of it. *)
Definition analyze_conversation (ext : Extern) : cmd unit :=
  g <- get_globals ;;
  if negb (truthy (job_description g)) || negb (truthy (candidate_resume g))
  then emit missing_documents
  else if length (conversation_messages g) <? 3
  then emit short_conversation
  else
    set_status_label (lit "Analyzing conversation... Please wait.") ;;;
    analysis <- analyze_candidate_fit ext ;;
    show_analysis_results analysis.

(** The f-string [metadata] of [save_analysis]. *)
Definition report_metadata (date : str) (count : nat) (score : float) : str :=
  text_lines
    [ [];
      lit "CANDIDATE EVALUATION REPORT";
      lit "Date: " ++ date;
      lit "Messages analyzed: " ++ str_of_nat count;
      lit "Initial resume match score: " ++ format_1f score ++ lit "/10";
      [];
      lit "--- ANALYSIS RESULTS ---";
      [];
      [] ].

(** The [with open(file_path, "w", encoding="utf-8") as f:] block of
    [save_analysis], the writer of the plain-text report.  [open] raises
    when the file cannot be opened for writing; once it is open the file is
    empty, the header is put together, and [f.write] raises on a text that
    UTF-8 cannot encode, which leaves the file empty. *)
Definition write_analysis_file (ext : Extern) (file_path analysis : str)
  : cmd unit :=
  t0 <- get_trace ;;
  if open_for_writing ext t0 file_path then
    emit (EvOpenWrite file_path) ;;;
    d <- clock ext ;;
    g <- get_globals ;;
    t <- get_trace ;;
    let metadata :=
      report_metadata (strftime_Ymd_HM d)
        (length (conversation_messages g))
        (calculate_match_score ext t (job_description g) (candidate_resume g)) in
    if encodable (metadata ++ analysis)
    then emit (EvWriteText file_path (metadata ++ analysis))
    else raise (EncodeError (metadata ++ analysis))
  else raise (FileError file_path).

(** [ChatApp.save_analysis], main.py lines 289-310. *)
Definition save_analysis (ext : Extern) (analysis : str) : cmd unit :=
  file_path <- ask_save_as_filename ext (lit "Save Analysis") ;;
  if truthy file_path then
    write_analysis_file ext file_path analysis ;;;
    emit (EvShowInfo (lit "Success") (lit "Analysis saved successfully!"))
  else ret tt.

(** [ChatApp.clear_chat], main.py lines 313-322. *)
Definition clear_chat (ext : Extern) : cmd unit :=
  yes <- ask_yes_no ext (lit "Confirm")
           (lit "This will clear the entire conversation. Continue?") ;;
  if yes then
    set_conversation_messages [] ;;;
    u <- get_gui ;;
    set_gui {| status_label := status_label u;
               chat_display := [];
               message_input := message_input u;
               current_sender := lit "Recruiter";
               results_windows := results_windows u |}
  else ret tt.

(** [ChatApp.prompt_load_files], main.py lines 132-136. *)
Definition prompt_load_files (ext : Extern) : cmd unit :=
  yes <- ask_yes_no ext (lit "Load Files")
           (lit "Would you like to load job description and resume now?") ;;
  if yes then load_job_description ext ;;; load_candidate_resume ext
  else ret tt.

(** A session with both documents loaded and the given conversation. *)
Definition loaded (msgs : list Message) : state :=
  {| globals := {| conversation_messages := msgs;
                   job_description := lit "Data analyst, SQL and Python";
                   candidate_resume := lit "Five years of SQL reporting" |};
     gui := {| status_label := lit "Initial Resume Match: 10.0/10";
               chat_display := []; message_input := [];
               current_sender := lit "Recruiter"; results_windows := [] |};
     events := [] |}.

(** The same session with [text] typed into the message box. *)
Definition typing (msgs : list Message) (text : str) : state :=
  {| globals := globals (loaded msgs);
     gui := {| status_label := status_label (gui (loaded msgs));
               chat_display := []; message_input := text;
               current_sender := lit "Recruiter"; results_windows := [] |};
     events := [] |}.

End Main.

(** ** [try.py]: several resumes, dynamic suggestions, PDF report *)

Module Try.

(** The module globals. *)
Record Globals := {
  conversation_messages : list Message;
  job_description : str;
  candidate_resumes : list str;
  interview_suggestions : list str
}.

(** The widgets of [ChatApp] whose content the handlers read or write
    (colours, fonts, tags and geometry are left out).  A results window
    keeps the text it shows and the analysis its save button was given. *)
Record Gui := {
  status_label : str;
  chat_display : str;
  message_input : str;
  current_sender : str;
  suggestion_text : str;             (* text of [self.suggestion_text] *)
  resume_listbox : list str;         (* entries of [self.resume_listbox] *)
  results_windows : list (str * str)
}.

Definition state := World Globals Gui.
Definition cmd (A : Type) := M Globals Gui A.

Definition initial : state :=
  {| globals := {| conversation_messages := []; job_description := [];
                   candidate_resumes := []; interview_suggestions := [] |};
     gui := {| status_label := lit "Please load job description and resume";
               chat_display := []; message_input := [];
               current_sender := lit "Recruiter"; suggestion_text := [];
               resume_listbox := []; results_windows := [] |};
     events := [] |}.

Definition set_conversation_messages (l : list Message) : cmd unit :=
  g <- get_globals ;;
  set_globals {| conversation_messages := l;
                 job_description := job_description g;
                 candidate_resumes := candidate_resumes g;
                 interview_suggestions := interview_suggestions g |}.

Definition set_job_description (s : str) : cmd unit :=
  g <- get_globals ;;
  set_globals {| conversation_messages := conversation_messages g;
                 job_description := s;
                 candidate_resumes := candidate_resumes g;
                 interview_suggestions := interview_suggestions g |}.

Definition set_candidate_resumes (l : list str) : cmd unit :=
  g <- get_globals ;;
  set_globals {| conversation_messages := conversation_messages g;
                 job_description := job_description g;
                 candidate_resumes := l;
                 interview_suggestions := interview_suggestions g |}.

Definition set_interview_suggestions (l : list str) : cmd unit :=
  g <- get_globals ;;
  set_globals {| conversation_messages := conversation_messages g;
                 job_description := job_description g;
                 candidate_resumes := candidate_resumes g;
                 interview_suggestions := l |}.

Definition set_status_label (s : str) : cmd unit :=
  u <- get_gui ;;
  set_gui {| status_label := s; chat_display := chat_display u;
             message_input := message_input u;
             current_sender := current_sender u;
             suggestion_text := suggestion_text u;
             resume_listbox := resume_listbox u;
             results_windows := results_windows u |}.

Definition set_suggestion_text (s : str) : cmd unit :=
  u <- get_gui ;;
  set_gui {| status_label := status_label u; chat_display := chat_display u;
             message_input := message_input u;
             current_sender := current_sender u;
             suggestion_text := s;
             resume_listbox := resume_listbox u;
             results_windows := results_windows u |}.

Definition suggestion_prompt (jd recent_messages : str) : str :=
  text_lines
    [ [];
      lit "    Based on the job description for a Data Analyst role and the recent conversation, ";
      lit "    generate a targeted follow-up interview question or discussion point.";
      [];
      lit "    Job Description Context:";
      lit "    " ++ jd;
      [];
      lit "    Recent Conversation:";
      lit "    " ++ recent_messages;
      [];
      lit "    Provide:";
      lit "    A question that is better to be asked for the role , no justification needed";
      lit "    " ].

(** [generate_dynamic_interview_suggestion], try.py lines 48-78. *)
Definition generate_dynamic_interview_suggestion (ext : Extern)
  : cmd (option str) :=
  g <- get_globals ;;
  if (length (conversation_messages g) <? 2)
     || negb (truthy (job_description g))
     || match candidate_resumes g with [] => true | _ :: _ => false end
  then ret None
  else
    let recent_messages :=
      join [newline]
        (List.map transcript_line (last_three (conversation_messages g))) in
    let prompt := suggestion_prompt (job_description g) recent_messages in
    try_except
      (content <- invoke ext prompt ;;
       let suggestion := cleanup content in
       ret (Some suggestion))
      (fun e =>
         emit (EvPrint (lit "Error generating interview suggestion: "
                        ++ exn_text e)) ;;;
         ret None).

Definition questions_prompt (jd resume : str) : str :=
  text_lines
    [ [];
      lit "    Generate a list of 5-7 targeted interview questions based on the following:";
      [];
      lit "    JOB DESCRIPTION:";
      lit "    " ++ jd;
      [];
      lit "    CANDIDATE RESUME:";
      lit "    " ++ resume;
      [];
      lit "    For each question, provide:";
      lit "    1. A specific question targeting the candidate's skills or experience";
      lit "    Format the output as a numbered list,just the questions enough no justification needed.";
      lit "    " ].

(** [generate_interview_questions], try.py lines 81-98. *)
Definition generate_interview_questions (ext : Extern) (jd resume : str)
  : cmd str :=
  content <- invoke ext (questions_prompt jd resume) ;;
  ret (cleanup content).

Definition fit_prompt (jd combined_resumes conversation_text : str) : str :=
  text_lines
    [ [];
      lit "    Based on the following information, provide a detailed analysis of whether this candidate should be advanced to the next interview stage:";
      [];
      lit "    JOB DESCRIPTION:";
      lit "    " ++ jd;
      [];
      lit "    CANDIDATE RESUME(S):";
      lit "    " ++ combined_resumes;
      [];
      lit "    CONVERSATION TRANSCRIPT:";
      lit "    " ++ conversation_text;
      [];
      lit "    Please analyze and provide:";
      lit "    1. Key Insights from Conversation (technical skills, communication)";
      lit "    2. Job Fit Analysis";
      lit "    3. FINAL RECOMMENDATION: PROCEED TO INTERVIEW / DECLINE / ADDITIONAL SCREENING";
      lit "    4. Justification for recommendation";
      [];
      lit "    Provide a short,structured, clear, and professional analysis.";
      lit "    " ].

(** [analyze_candidate_fit], try.py lines 101-130. *)
Definition analyze_candidate_fit (ext : Extern) : cmd str :=
  g <- get_globals ;;
  let conversation_text :=
    join [newline] (List.map transcript_line (conversation_messages g)) in
  let combined_resumes :=
    join ([newline; newline] ++ lit "---" ++ [newline; newline])
      (candidate_resumes g) in
  let prompt :=
    fit_prompt (job_description g) combined_resumes conversation_text in
  content <- invoke ext prompt ;;
  ret (cleanup content).

(** The story [save_pdf_report] builds for [analysis] at time [t]. *)
Definition report_story (t : datetime) (analysis : str) : list Flowable :=
  let clean_analysis := replace_asterisks analysis in
  let sections := split_blank clean_analysis in
  [ Paragraph (lit "Candidate Evaluation Report") (lit "Title");
    Spacer 1 12;
    Paragraph (lit "Date: " ++ strftime_Ymd_HM t) (lit "Normal");
    Spacer 1 12 ]
  ++ flat_map (fun section =>
                 [Paragraph section (lit "Normal"); Spacer 1 6]) sections.

(** [save_pdf_report], try.py lines 133-154.  The paragraphs are made one
    after the other, and the first text that [Paragraph] does not take ends
    the function with its exception before anything is built; [doc.build]
    raises when the document cannot be written. *)
Definition save_pdf_report (ext : Extern) (filename analysis : str)
  : cmd unit :=
  t <- clock ext ;;
  let story := report_story t analysis in
  match List.find (fun text => negb (paragraph_ok ext text))
          (paragraph_texts story) with
  | Some text => raise (MarkupError text)
  | None =>
      tr <- get_trace ;;
      if pdf_build ext tr filename story
      then emit (EvBuildPdf filename story)
      else raise (FileError filename)
  end.

(** [ChatApp.update_status], try.py lines 273-286; the score is that of
    the first resume. *)
Definition update_status (ext : Extern) : cmd unit :=
  g <- get_globals ;;
  t <- get_trace ;;
  match truthy (job_description g), candidate_resumes g with
  | true, first :: _ =>
      let score := calculate_match_score ext t (job_description g) first in
      set_status_label
        (lit "Initial Resume Match: " ++ format_1f score ++ lit "/10")
  | true, [] =>
      set_status_label (lit "Job description loaded. Please load resume.")
  | false, _ :: _ =>
      set_status_label (lit "Resume loaded. Please load job description.")
  | false, [] =>
      set_status_label (lit "Please load job description and resume")
  end.

(** [ChatApp.load_job_description], try.py lines 244-256. *)
Definition load_job_description (ext : Extern) : cmd unit :=
  file_path <- ask_open_filename ext (lit "Select Job Description") ;;
  if negb (truthy file_path) then ret tt
  else
    text <- load_document ext file_path ;;
    set_job_description text ;;;
    update_status ext.

(** [os.path.basename(path)]: what follows the last slash. *)
Definition basename (path : str) : str :=
  rev ((fix upto_slash (s : str) : str :=
          match s with
          | [] => []
          | c :: r => if char_eqb c 47%N then [] else c :: upto_slash r
          end) (rev path)).

(** [ChatApp.load_candidate_resume], try.py lines 258-271: the text is
    appended to the resumes, the file name to the list box. *)
Definition load_candidate_resume (ext : Extern) : cmd unit :=
  file_path <- ask_open_filename ext (lit "Select Candidate Resume") ;;
  if negb (truthy file_path) then ret tt
  else
    resume_text <- load_document ext file_path ;;
    g <- get_globals ;;
    set_candidate_resumes (candidate_resumes g ++ [resume_text]) ;;;
    u <- get_gui ;;
    set_gui {| status_label := status_label u;
               chat_display := chat_display u;
               message_input := message_input u;
               current_sender := current_sender u;
               suggestion_text := suggestion_text u;
               resume_listbox := resume_listbox u ++ [basename file_path];
               results_windows := results_windows u |} ;;;
    update_status ext.

(** [ChatApp.send_message], try.py lines 288-330.  The suggestion is asked
    for once the conversation, the new message included, has more than
    three messages; [if suggestion:] is false for [None] and for the empty
    string. *)
Definition send_message (ext : Extern) : cmd unit :=
  u <- get_gui ;;
  let message := strip (text_get_all (message_input u)) in
  if negb (truthy message) then ret tt
  else
    let sender := current_sender u in
    t <- clock ext ;;
    let timestamp := strftime_HMS t in
    g <- get_globals ;;
    set_conversation_messages
      (conversation_messages g
       ++ [ {| sender := sender; message := message;
               timestamp := timestamp |} ]) ;;;
    set_gui {| status_label := status_label u;
               chat_display :=
                 chat_display u ++ (lit "[" ++ timestamp ++ lit "] ")
                 ++ (sender ++ lit ": ")
                 ++ (message ++ [newline; newline]);
               message_input := message_input u;
               current_sender := current_sender u;
               suggestion_text := suggestion_text u;
               resume_listbox := resume_listbox u;
               results_windows := results_windows u |} ;;;
    g1 <- get_globals ;;
    (if 3 <? length (conversation_messages g1) then
       suggestion <- generate_dynamic_interview_suggestion ext ;;
       match suggestion with
       | Some (c :: s) =>
           g2 <- get_globals ;;
           set_interview_suggestions (interview_suggestions g2 ++ [c :: s]) ;;;
           set_suggestion_text (c :: s)
       | Some [] | None => set_suggestion_text []
       end
     else ret tt) ;;;
    u1 <- get_gui ;;
    set_gui {| status_label := status_label u1;
               chat_display := chat_display u1;
               message_input := [];
               current_sender := next_sender sender;
               suggestion_text := suggestion_text u1;
               resume_listbox := resume_listbox u1;
               results_windows := results_windows u1 |}.

(** [ChatApp.show_analysis_results], try.py lines 355-392. *)
Definition show_analysis_results (analysis interview_questions : str)
  : cmd unit :=
  set_status_label (lit "Analysis complete") ;;;
  let clean_analysis := replace_asterisks analysis in
  let clean_questions := replace_asterisks interview_questions in
  let shown :=
    lit "CANDIDATE ANALYSIS:" ++ [newline; newline]
    ++ clean_analysis
    ++ ([newline; newline] ++ lit "--- INTERVIEW QUESTIONS ---"
        ++ [newline; newline])
    ++ clean_questions in
  u <- get_gui ;;
  set_gui {| status_label := status_label u;
             chat_display := chat_display u;
             message_input := message_input u;
             current_sender := current_sender u;
             suggestion_text := suggestion_text u;
             resume_listbox := resume_listbox u;
             results_windows := results_windows u ++ [(shown, analysis)] |}.

(** The two message boxes of the validation in [analyze_conversation]. *)
Definition missing_documents : Event :=
  EvShowError (lit "Error")
    (lit "Please load job description and at least one resume before analyzing").

Definition short_conversation : Event :=
  EvShowWarning (lit "Warning")
    (lit "The conversation is too short. Add more messages before analyzing.").

(** [ChatApp.analyze_conversation], try.py lines 332-353, as it runs when
    [self.root.update()] finds no event waiting. *)
Definition analyze_conversation (ext : Extern) : cmd unit :=
  g <- get_globals ;;
  if negb (truthy (job_description g))
     || match candidate_resumes g with [] => true | _ :: _ => false end
  then emit missing_documents
  else if length (conversation_messages g) <? 3
  then emit short_conversation
  else
    set_status_label (lit "Analyzing conversation... Please wait.") ;;;
    analysis <- analyze_candidate_fit ext ;;
    g1 <- get_globals ;;
    interview_questions <-
      generate_interview_questions ext (job_description g1)
        (join [newline; newline] (candidate_resumes g1)) ;;
    show_analysis_results analysis interview_questions.

(** The closure [save_report] behind the button of a results window. *)
Definition save_report (ext : Extern) (analysis : str) : cmd unit :=
  file_path <- ask_save_as_filename ext (lit "Save Report") ;;
  if truthy file_path then
    save_pdf_report ext file_path analysis ;;;
    emit (EvShowInfo (lit "Success") (lit "Report saved successfully!"))
  else ret tt.

(** [ChatApp.clear_chat], try.py lines 394-418. *)
Definition clear_chat (ext : Extern) : cmd unit :=
  yes <- ask_yes_no ext (lit "Confirm")
           (lit "This will clear the entire conversation and loaded resumes. Continue?") ;;
  if yes then
    set_conversation_messages [] ;;;
    set_candidate_resumes [] ;;;
    set_interview_suggestions [] ;;;
    u <- get_gui ;;
    set_gui {| status_label := lit "Please load job description and resume";
               chat_display := [];
               message_input := message_input u;
               current_sender := lit "Recruiter";
               suggestion_text := [];
               resume_listbox := [];
               results_windows := results_windows u |}
  else ret tt.

(** [ChatApp.prompt_load_files], try.py lines 238-242. *)
Definition prompt_load_files (ext : Extern) : cmd unit :=
  yes <- ask_yes_no ext (lit "Load Files")
           (lit "Would you like to load job description and resume now?") ;;
  if yes then load_job_description ext ;;; load_candidate_resume ext
  else ret tt.

(** A session with the job description and one resume loaded and the
    given conversation. *)
Definition loaded (msgs : list Message) : state :=
  {| globals := {| conversation_messages := msgs;
                   job_description := lit "Data analyst, SQL and Python";
                   candidate_resumes := [lit "Five years of SQL reporting"];
                   interview_suggestions := [lit "Which SQL dialects?"] |};
     gui := {| status_label := lit "Initial Resume Match: 10.0/10";
               chat_display := []; message_input := [];
               current_sender := lit "Recruiter"; suggestion_text := [];
               resume_listbox := [lit "resume.pdf"]; results_windows := [] |};
     events := [] |}.

(** The same session with [text] typed into the message box. *)
Definition typing (msgs : list Message) (text : str) : state :=
  {| globals := globals (loaded msgs);
     gui := {| status_label := status_label (gui (loaded msgs));
               chat_display := []; message_input := text;
               current_sender := lit "Recruiter"; suggestion_text := [];
               resume_listbox := [lit "resume.pdf"]; results_windows := [] |};
     events := [] |}.

End Try.


From Stdlib Require Import Sorted.

(** ** Runs of the two applications

    What the user can do in the window, and the state after a sequence of
    such actions.  A handler that raises is reported by Tk and the event
    loop goes on with the state the handler left. *)

(** The two radio buttons of the sender frame. *)
Inductive role := Recruiter | Candidate.

Definition role_name (r : role) : str :=
  match r with
  | Recruiter => lit "Recruiter"
  | Candidate => lit "Candidate"
  end.

(** Who speaks in turn [n] when the recruiter opens and the two take
    turns. *)
Definition turn (n : nat) : str :=
  if Nat.even n then lit "Recruiter" else lit "Candidate".

(** What [send_message] inserts into the chat display for a record. *)
Definition render_message (m : Message) : str :=
  (lit "[" ++ timestamp m ++ lit "] ") ++ (sender m ++ lit ": ")
  ++ (message m ++ [newline; newline]).

Definition render_log (msgs : list Message) : str :=
  flat_map render_message msgs.

(** A record as [send_message] makes them. *)
Definition record_ok (m : Message) : Prop :=
  (sender m = lit "Recruiter" \/ sender m = lit "Candidate")
  /\ message m <> []
  /\ strip (message m) = message m
  /\ is_HH_MM_SS (timestamp m) = true.

(** The text has two newlines in a row. *)
Fixpoint has_blank_line (s : str) : bool :=
  match s with
  | c :: r =>
      match r with
      | d :: _ =>
          (char_eqb c newline && char_eqb d newline) || has_blank_line r
      | [] => false
      end
  | [] => false
  end.

(** The text files written in a trace, and the PDF reports built. *)
Definition files_written (t : trace) : list (str * str) :=
  flat_map (fun e => match e with
                     | EvWriteText path content => [(path, content)]
                     | _ => []
                     end) t.

Definition pdfs_built (t : trace) : list (str * list Flowable) :=
  flat_map (fun e => match e with
                     | EvBuildPdf path story => [(path, story)]
                     | _ => []
                     end) t.

(** A PDF none of whose pages yields a character other than whitespace,
    as a scan without a text layer. *)
Definition textless (pages : list (option str)) : Prop :=
  Forall (fun page => match page with
                      | Some page_text => blank page_text
                      | None => True
                      end) pages.

Definition scanned_pages : list (option str) :=
  [None; Some []; Some (lit "  "); Some [newline]].

(** An outside world in which every PDF is such a scan and no other file
    can be read. *)
Definition scanned_extern (path : str) : Extern :=
  {| llm_invoke := fun _ _ => inl (lit "PROCEED TO INTERVIEW");
     encode := fun _ => demo_encode;
     now := fun _ => demo_time;
     askyesno := fun _ => true;
     askfilename := fun _ => path;
     pdf_pages := fun _ _ => Some scanned_pages;
     file_text := fun _ _ => None;
     open_for_writing := fun _ _ => true;
     paragraph_ok := fun _ => true;
     pdf_build := fun _ _ _ => true |}.


(** The titles of the file dialogs for opening shown in a trace. *)
Definition open_dialogs (t : trace) : list str :=
  flat_map (fun e => match e with
                     | EvAskOpenFilename title => [title]
                     | _ => []
                     end) t.

(** ** Highlighting in the results window of [main.py]

    The content of the text widget is a string and an index of the widget
    an offset into it, ["1.0"] being offset 0 and [f"{pos}+{n}c"] the
    offset [pos + n]. *)

(** The text [s] begins with [phrase]. *)
Fixpoint starts_with (phrase s : str) : bool :=
  match phrase, s with
  | [], _ => true
  | p :: ps, c :: r => char_eqb p c && starts_with ps r
  | _ :: _, [] => false
  end.

(** The offset of the first occurrence of [phrase] in [s]. *)
Fixpoint find (phrase s : str) : option nat :=
  if starts_with phrase s then Some 0
  else match s with
       | [] => None
       | _ :: r => option_map S (find phrase r)
       end.

(** [text_widget.search(phrase, start_pos, stopindex=tk.END)]: the index
    of the first occurrence at or after [start_pos], exact matching, no
    wrapping around; [None] for the empty string Tk returns when there is
    none. *)
Definition search (content phrase : str) (start_pos : nat) : option nat :=
  option_map (Nat.add start_pos) (find phrase (skipn start_pos content)).

(** The [while True] loop of [highlight_text], main.py lines 276-287, with
    the ranges given to [tag_add] as its result; [fuel] bounds the number
    of rounds. *)
Fixpoint highlight_from (fuel : nat) (content phrase : str) (start_pos : nat)
  : list (nat * nat) :=
  match fuel with
  | 0 => []
  | S fuel =>
      match search content phrase start_pos with
      | None => []
      | Some pos =>
          let end_pos := pos + length phrase in
          (pos, end_pos) :: highlight_from fuel content phrase end_pos
      end
  end.

(** [highlight_text(text_widget, phrase, color)] on a widget that holds
    [content]: each round moves on by the length of the phrase, so one
    round for each character and one more is enough for any phrase that is
    not empty. *)
Definition highlight_text (content phrase : str) : list (nat * nat) :=
  highlight_from (S (length content)) content phrase 0.

(** The terms [show_analysis_results] highlights, in the order of the
    dict, with their colours. *)
Definition highlight_terms : list (str * str) :=
  [ (lit "PROCEED TO INTERVIEW", lit "green");
    (lit "DECLINE", lit "red");
    (lit "ADDITIONAL SCREENING", lit "orange");
    (lit "Key Insights", lit "blue");
    (lit "Resume vs. Conversation", lit "blue");
    (lit "Job Fit Analysis", lit "blue");
    (lit "FINAL RECOMMENDATION", lit "purple");
    (lit "Confidence Level", lit "blue");
    (lit "Justification", lit "blue");
    (lit "High", lit "green");
    (lit "Medium", lit "orange");
    (lit "Low", lit "red") ].

(** The tags of a results window: for each term its colour and the ranges
    it is added to; the widget holds the analysis and the final newline of
    a Tk text. *)
Definition analysis_tags (analysis : str) : list (str * str * list (nat * nat)) :=
  List.map (fun term =>
              (fst term, snd term,
               highlight_text (text_get_all analysis) (fst term)))
    highlight_terms.

Module MainApp.

Inductive action :=
| Edit (text : str)          (* the message box is edited to hold [text] *)
| Select (r : role)          (* a radio button is chosen *)
| Send                       (* Send Message, or Control-Return *)
| Analyze                    (* Analyze Conversation *)
| Clear                      (* Clear Chat *)
| LoadJobDescription         (* Load Job Description *)
| LoadResume                 (* Load Candidate Resume *)
| Save (window : nat)        (* Save Analysis in a results window *)
| Startup.                   (* the prompt of [__init__] *)

Definition selects (a : action) : bool :=
  match a with Select _ => true | _ => false end.

Definition set_message_input (text : str) : Main.cmd unit :=
  u <- get_gui ;;
  set_gui {| Main.status_label := Main.status_label u;
             Main.chat_display := Main.chat_display u;
             Main.message_input := text;
             Main.current_sender := Main.current_sender u;
             Main.results_windows := Main.results_windows u |}.

Definition set_current_sender (who : str) : Main.cmd unit :=
  u <- get_gui ;;
  set_gui {| Main.status_label := Main.status_label u;
             Main.chat_display := Main.chat_display u;
             Main.message_input := Main.message_input u;
             Main.current_sender := who;
             Main.results_windows := Main.results_windows u |}.

(** The handler an action runs.  The save button of a results window
    calls [save_analysis] with the analysis the window was opened for. *)
Definition perform (ext : Extern) (a : action) : Main.cmd unit :=
  match a with
  | Edit text => set_message_input text
  | Select r => set_current_sender (role_name r)
  | Send => Main.send_message ext
  | Analyze => Main.analyze_conversation ext
  | Clear => Main.clear_chat ext
  | LoadJobDescription => Main.load_job_description ext
  | LoadResume => Main.load_candidate_resume ext
  | Save window =>
      u <- get_gui ;;
      match nth_error (Main.results_windows u) window with
      | Some analysis => Main.save_analysis ext analysis
      | None => ret tt
      end
  | Startup => Main.prompt_load_files ext
  end.

Definition step (ext : Extern) (w : Main.state) (a : action) : Main.state :=
  snd (perform ext a w).

Definition run (ext : Extern) (actions : list action) (w : Main.state)
  : Main.state :=
  fold_left (step ext) actions w.

(** What the properties of runs look at: the conversation, the chat
    display, the selected sender, the analyses shown, the prompts sent to
    the model and the files written. *)
Definition view (w : Main.state)
  : list Message * str * str * list str * list str * list (str * str) :=
  (Main.conversation_messages (globals w), Main.chat_display (gui w),
   Main.current_sender (gui w), Main.results_windows (gui w),
   llm_calls (events w), files_written (events w)).

(** The record [send_message] appends in the state [w]. *)
Definition sent_record (ext : Extern) (w : Main.state) : Message :=
  {| sender := Main.current_sender (gui w);
     message := strip (Main.message_input (gui w));
     timestamp := strftime_HMS (now ext (events w)) |}.

(** The prompt [analyze_candidate_fit] builds in the state [w]. *)
Definition analysis_prompt (w : Main.state) : str :=
  Main.fit_prompt (Main.job_description (globals w))
    (Main.candidate_resume (globals w))
    (join [newline]
       (List.map transcript_line (Main.conversation_messages (globals w)))).

(** Both documents are loaded and the conversation has three messages. *)
Definition ready (w : Main.state) : Prop :=
  Main.job_description (globals w) <> []
  /\ Main.candidate_resume (globals w) <> []
  /\ 3 <= length (Main.conversation_messages (globals w)).

(** The effect of one action on the view, case by case. *)
Inductive effect (ext : Extern) (w w' : Main.state) : Prop :=
| Silent :
    view w' = view w -> effect ext w w'
| Selected (r : role) :
    view w'
    = (Main.conversation_messages (globals w), Main.chat_display (gui w),
       role_name r, Main.results_windows (gui w),
       llm_calls (events w), files_written (events w)) ->
    effect ext w w'
| Sent :
    strip (Main.message_input (gui w)) <> [] ->
    view w'
    = (Main.conversation_messages (globals w) ++ [sent_record ext w],
       Main.chat_display (gui w) ++ render_message (sent_record ext w),
       next_sender (Main.current_sender (gui w)),
       Main.results_windows (gui w),
       llm_calls (events w), files_written (events w)) ->
    effect ext w w'
| Cleared :
    view w'
    = ([], [], lit "Recruiter", Main.results_windows (gui w),
       llm_calls (events w), files_written (events w)) ->
    effect ext w w'
| Unanswered :
    ready w ->
    view w'
    = (Main.conversation_messages (globals w), Main.chat_display (gui w),
       Main.current_sender (gui w), Main.results_windows (gui w),
       llm_calls (events w) ++ [analysis_prompt w],
       files_written (events w)) ->
    effect ext w w'
| Answered (content : str) :
    ready w ->
    view w'
    = (Main.conversation_messages (globals w), Main.chat_display (gui w),
       Main.current_sender (gui w),
       Main.results_windows (gui w) ++ [cleanup content],
       llm_calls (events w) ++ [analysis_prompt w],
       files_written (events w)) ->
    effect ext w w'
| Saved (path analysis date : str) (score : float) :
    path <> [] ->
    In analysis (Main.results_windows (gui w)) ->
    view w'
    = (Main.conversation_messages (globals w), Main.chat_display (gui w),
       Main.current_sender (gui w), Main.results_windows (gui w),
       llm_calls (events w),
       files_written (events w)
       ++ [(path,
            Main.report_metadata date
              (length (Main.conversation_messages (globals w))) score
            ++ analysis)]) ->
    effect ext w w'.

End MainApp.

Module TryApp.

Inductive action :=
| Edit (text : str)
| Select (r : role)
| Send
| Analyze
| Clear
| LoadJobDescription
| LoadResume
| Save (window : nat)        (* Save PDF Report in a results window *)
| Startup.

Definition selects (a : action) : bool :=
  match a with Select _ => true | _ => false end.

Definition set_message_input (text : str) : Try.cmd unit :=
  u <- get_gui ;;
  set_gui {| Try.status_label := Try.status_label u;
             Try.chat_display := Try.chat_display u;
             Try.message_input := text;
             Try.current_sender := Try.current_sender u;
             Try.suggestion_text := Try.suggestion_text u;
             Try.resume_listbox := Try.resume_listbox u;
             Try.results_windows := Try.results_windows u |}.

Definition set_current_sender (who : str) : Try.cmd unit :=
  u <- get_gui ;;
  set_gui {| Try.status_label := Try.status_label u;
             Try.chat_display := Try.chat_display u;
             Try.message_input := Try.message_input u;
             Try.current_sender := who;
             Try.suggestion_text := Try.suggestion_text u;
             Try.resume_listbox := Try.resume_listbox u;
             Try.results_windows := Try.results_windows u |}.

Definition perform (ext : Extern) (a : action) : Try.cmd unit :=
  match a with
  | Edit text => set_message_input text
  | Select r => set_current_sender (role_name r)
  | Send => Try.send_message ext
  | Analyze => Try.analyze_conversation ext
  | Clear => Try.clear_chat ext
  | LoadJobDescription => Try.load_job_description ext
  | LoadResume => Try.load_candidate_resume ext
  | Save window =>
      u <- get_gui ;;
      match nth_error (Try.results_windows u) window with
      | Some (_, analysis) => Try.save_report ext analysis
      | None => ret tt
      end
  | Startup => Try.prompt_load_files ext
  end.

Definition step (ext : Extern) (w : Try.state) (a : action) : Try.state :=
  snd (perform ext a w).

Definition run (ext : Extern) (actions : list action) (w : Try.state)
  : Try.state :=
  fold_left (step ext) actions w.

(** What the properties of runs look at: the conversation, the chat
    display, the selected sender, the resumes and their list box, the
    suggestions and the suggestion label, the results windows, the prompts
    sent to the model and the PDF reports built. *)
Definition view (w : Try.state)
  : list Message * str * str * list str * list str * list str * str
    * list (str * str) * list str * list (str * list Flowable) :=
  (Try.conversation_messages (globals w), Try.chat_display (gui w),
   Try.current_sender (gui w),
   Try.candidate_resumes (globals w), Try.resume_listbox (gui w),
   Try.interview_suggestions (globals w), Try.suggestion_text (gui w),
   Try.results_windows (gui w),
   llm_calls (events w), pdfs_built (events w)).

(** The record [send_message] appends in the state [w]. *)
Definition sent_record (ext : Extern) (w : Try.state) : Message :=
  {| sender := Try.current_sender (gui w);
     message := strip (Try.message_input (gui w));
     timestamp := strftime_HMS (now ext (events w)) |}.

(** The prompt of a suggestion for the conversation [msgs]. *)
Definition suggestion_prompt_for (w : Try.state) (msgs : list Message) : str :=
  Try.suggestion_prompt (Try.job_description (globals w))
    (join [newline] (List.map transcript_line (last_three msgs))).

(** The two prompts of [analyze_conversation] in the state [w]. *)
Definition analysis_prompt (w : Try.state) : str :=
  Try.fit_prompt (Try.job_description (globals w))
    (join ([newline; newline] ++ lit "---" ++ [newline; newline])
       (Try.candidate_resumes (globals w)))
    (join [newline]
       (List.map transcript_line (Try.conversation_messages (globals w)))).

Definition interview_prompt (w : Try.state) : str :=
  Try.questions_prompt (Try.job_description (globals w))
    (join [newline; newline] (Try.candidate_resumes (globals w))).

(** The text a results window shows for an analysis and the questions. *)
Definition shown (analysis interview_questions : str) : str :=
  lit "CANDIDATE ANALYSIS:" ++ [newline; newline]
  ++ replace_asterisks analysis
  ++ ([newline; newline] ++ lit "--- INTERVIEW QUESTIONS ---"
      ++ [newline; newline])
  ++ replace_asterisks interview_questions.

(** The job description and a resume are loaded. *)
Definition documents (w : Try.state) : Prop :=
  Try.job_description (globals w) <> []
  /\ Try.candidate_resumes (globals w) <> [].

(** The effect of one action on the view, case by case. *)
Inductive effect (ext : Extern) (w w' : Try.state) : Prop :=
| Silent :
    view w' = view w -> effect ext w w'
| Selected (r : role) :
    view w'
    = (Try.conversation_messages (globals w), Try.chat_display (gui w),
       role_name r,
       Try.candidate_resumes (globals w), Try.resume_listbox (gui w),
       Try.interview_suggestions (globals w), Try.suggestion_text (gui w),
       Try.results_windows (gui w),
       llm_calls (events w), pdfs_built (events w)) ->
    effect ext w w'
| Sent_early :
    (* at most three messages so far: no suggestion is asked for *)
    strip (Try.message_input (gui w)) <> [] ->
    length (Try.conversation_messages (globals w)) < 3 ->
    view w'
    = (Try.conversation_messages (globals w) ++ [sent_record ext w],
       Try.chat_display (gui w) ++ render_message (sent_record ext w),
       next_sender (Try.current_sender (gui w)),
       Try.candidate_resumes (globals w), Try.resume_listbox (gui w),
       Try.interview_suggestions (globals w), Try.suggestion_text (gui w),
       Try.results_windows (gui w),
       llm_calls (events w), pdfs_built (events w)) ->
    effect ext w w'
| Sent_unready :
    (* more than three messages, a document is missing: no call *)
    strip (Try.message_input (gui w)) <> [] ->
    3 <= length (Try.conversation_messages (globals w)) ->
    ~ documents w ->
    view w'
    = (Try.conversation_messages (globals w) ++ [sent_record ext w],
       Try.chat_display (gui w) ++ render_message (sent_record ext w),
       next_sender (Try.current_sender (gui w)),
       Try.candidate_resumes (globals w), Try.resume_listbox (gui w),
       Try.interview_suggestions (globals w), [],
       Try.results_windows (gui w),
       llm_calls (events w), pdfs_built (events w)) ->
    effect ext w w'
| Sent_unanswered :
    (* the call failed, or its cleaned reply is empty *)
    strip (Try.message_input (gui w)) <> [] ->
    3 <= length (Try.conversation_messages (globals w)) ->
    documents w ->
    view w'
    = (Try.conversation_messages (globals w) ++ [sent_record ext w],
       Try.chat_display (gui w) ++ render_message (sent_record ext w),
       next_sender (Try.current_sender (gui w)),
       Try.candidate_resumes (globals w), Try.resume_listbox (gui w),
       Try.interview_suggestions (globals w), [],
       Try.results_windows (gui w),
       llm_calls (events w)
       ++ [suggestion_prompt_for w
             (Try.conversation_messages (globals w) ++ [sent_record ext w])],
       pdfs_built (events w)) ->
    effect ext w w'
| Sent_suggested (content : str) :
    strip (Try.message_input (gui w)) <> [] ->
    3 <= length (Try.conversation_messages (globals w)) ->
    documents w ->
    cleanup content <> [] ->
    view w'
    = (Try.conversation_messages (globals w) ++ [sent_record ext w],
       Try.chat_display (gui w) ++ render_message (sent_record ext w),
       next_sender (Try.current_sender (gui w)),
       Try.candidate_resumes (globals w), Try.resume_listbox (gui w),
       Try.interview_suggestions (globals w) ++ [cleanup content],
       cleanup content,
       Try.results_windows (gui w),
       llm_calls (events w)
       ++ [suggestion_prompt_for w
             (Try.conversation_messages (globals w) ++ [sent_record ext w])],
       pdfs_built (events w)) ->
    effect ext w w'
| Cleared :
    view w'
    = ([], [], lit "Recruiter", [], [], [], [],
       Try.results_windows (gui w),
       llm_calls (events w), pdfs_built (events w)) ->
    effect ext w w'
| Resume_loaded (path text : str) :
    path <> [] ->
    view w'
    = (Try.conversation_messages (globals w), Try.chat_display (gui w),
       Try.current_sender (gui w),
       Try.candidate_resumes (globals w) ++ [text],
       Try.resume_listbox (gui w) ++ [Try.basename path],
       Try.interview_suggestions (globals w), Try.suggestion_text (gui w),
       Try.results_windows (gui w),
       llm_calls (events w), pdfs_built (events w)) ->
    effect ext w w'
| Unanswered :
    (* the analysis call failed *)
    documents w ->
    3 <= length (Try.conversation_messages (globals w)) ->
    view w'
    = (Try.conversation_messages (globals w), Try.chat_display (gui w),
       Try.current_sender (gui w),
       Try.candidate_resumes (globals w), Try.resume_listbox (gui w),
       Try.interview_suggestions (globals w), Try.suggestion_text (gui w),
       Try.results_windows (gui w),
       llm_calls (events w) ++ [analysis_prompt w],
       pdfs_built (events w)) ->
    effect ext w w'
| Half_answered :
    (* the analysis came, the call for the questions failed *)
    documents w ->
    3 <= length (Try.conversation_messages (globals w)) ->
    view w'
    = (Try.conversation_messages (globals w), Try.chat_display (gui w),
       Try.current_sender (gui w),
       Try.candidate_resumes (globals w), Try.resume_listbox (gui w),
       Try.interview_suggestions (globals w), Try.suggestion_text (gui w),
       Try.results_windows (gui w),
       llm_calls (events w) ++ [analysis_prompt w; interview_prompt w],
       pdfs_built (events w)) ->
    effect ext w w'
| Answered (analysis questions : str) :
    documents w ->
    3 <= length (Try.conversation_messages (globals w)) ->
    view w'
    = (Try.conversation_messages (globals w), Try.chat_display (gui w),
       Try.current_sender (gui w),
       Try.candidate_resumes (globals w), Try.resume_listbox (gui w),
       Try.interview_suggestions (globals w), Try.suggestion_text (gui w),
       Try.results_windows (gui w)
       ++ [(shown (cleanup analysis) (cleanup questions), cleanup analysis)],
       llm_calls (events w) ++ [analysis_prompt w; interview_prompt w],
       pdfs_built (events w)) ->
    effect ext w w'
| Saved (path analysis : str) (date : datetime) :
    path <> [] ->
    In analysis (List.map snd (Try.results_windows (gui w))) ->
    view w'
    = (Try.conversation_messages (globals w), Try.chat_display (gui w),
       Try.current_sender (gui w),
       Try.candidate_resumes (globals w), Try.resume_listbox (gui w),
       Try.interview_suggestions (globals w), Try.suggestion_text (gui w),
       Try.results_windows (gui w),
       llm_calls (events w),
       pdfs_built (events w) ++ [(path, Try.report_story date analysis)]) ->
    effect ext w w'.

End TryApp.

(** * Properties *)

Unset Implicit Arguments.

(** ** Strings *)

Lemma char_eqb_eq (a b : char) : char_eqb a b = true <-> a = b.
Proof. apply N.eqb_eq. Qed.

Lemma char_eqb_neq (a b : char) : char_eqb a b = false <-> a <> b.
Proof. apply N.eqb_neq. Qed.

Lemma backslash_not_space : is_space backslash = false.
Proof. reflexivity. Qed.

Lemma newline_is_space : is_space newline = true.
Proof. reflexivity. Qed.

Lemma lstrip_blank (s : str) : Forall (fun c => is_space c = true) s -> lstrip s = [].
Proof.
  induction 1 as [|c r Hc _ IH]; simpl; [reflexivity|].
  now rewrite Hc.
Qed.

Lemma lstrip_nil_blank (s : str) : lstrip s = [] -> Forall (fun c => is_space c = true) s.
Proof.
  induction s as [|c r IH]; simpl; intros H; [constructor|].
  destruct (is_space c) eqn:Hc; [|discriminate].
  constructor; auto.
Qed.

(** [lstrip] removes a prefix made of whitespace and nothing else. *)
Lemma lstrip_split (s : str) :
  exists pre, s = pre ++ lstrip s /\ Forall (fun c => is_space c = true) pre.
Proof.
  induction s as [|c r [pre [E F]]]; simpl.
  - exists []. split; [reflexivity|constructor].
  - destruct (is_space c) eqn:Hc.
    + exists (c :: pre). split; [simpl; congruence|now constructor].
    + exists []. split; [reflexivity|constructor].
Qed.

Lemma lstrip_head (s : str) (c : char) (r : str) :
  lstrip s = c :: r -> is_space c = false.
Proof.
  induction s as [|x s IH]; simpl; [discriminate|].
  destruct (is_space x) eqn:Hx; [exact IH|].
  intros H. injection H as -> _. exact Hx.
Qed.

Lemma lstrip_idem (s : str) : lstrip (lstrip s) = lstrip s.
Proof.
  destruct (lstrip s) as [|c r] eqn:E; [reflexivity|].
  simpl. now rewrite (lstrip_head _ _ _ E).
Qed.

Lemma lstrip_app_nonblank (s t : str) :
  lstrip s <> [] -> lstrip (s ++ t) = lstrip s ++ t.
Proof.
  induction s as [|c r IH]; simpl; [congruence|].
  destruct (is_space c); [exact IH|reflexivity].
Qed.

Lemma lstrip_app_blank (s t : str) :
  Forall (fun c => is_space c = true) s -> lstrip (s ++ t) = lstrip t.
Proof.
  induction 1 as [|c r Hc _ IH]; simpl; [reflexivity|].
  now rewrite Hc.
Qed.

Lemma rstrip_split (s : str) :
  exists post, s = rstrip s ++ post /\ Forall (fun c => is_space c = true) post.
Proof.
  unfold rstrip. destruct (lstrip_split (rev s)) as [pre [E F]].
  exists (rev pre). split.
  - rewrite <- rev_app_distr, <- E. symmetry. apply rev_involutive.
  - apply Forall_rev. exact F.
Qed.

Lemma rstrip_last (s : str) (r : str) (c : char) :
  rstrip s = r ++ [c] -> is_space c = false.
Proof.
  unfold rstrip. intros H.
  apply (f_equal (@rev char)) in H.
  rewrite rev_involutive, rev_app_distr in H. simpl in H.
  exact (lstrip_head _ _ _ H).
Qed.

Lemma rstrip_app_blank (s t : str) :
  Forall (fun c => is_space c = true) t -> rstrip (s ++ t) = rstrip s.
Proof.
  intros F. unfold rstrip. rewrite rev_app_distr.
  rewrite lstrip_app_blank; [reflexivity|]. apply Forall_rev. exact F.
Qed.

(** [rstrip] keeps the first character of a text that does not start with
    whitespace. *)
Lemma rstrip_head (s : str) (c : char) :
  is_space c = false -> exists r, rstrip (c :: s) = c :: r.
Proof.
  intros Hc. unfold rstrip. simpl.
  destruct (lstrip_split (rev s ++ [c])) as [pre [E F]].
  assert (Hne : lstrip (rev s ++ [c]) <> []).
  { intros Hnil. apply lstrip_nil_blank in Hnil.
    rewrite Forall_forall in Hnil.
    assert (Hin : In c (rev s ++ [c])) by (apply in_or_app; right; now left).
    specialize (Hnil c Hin). congruence. }
  destruct (exists_last Hne) as [body [z Ez]].
  rewrite Ez in E |- *.
  rewrite app_assoc in E. apply app_inj_tail in E. destruct E as [_ ->].
  rewrite rev_app_distr. simpl. eauto.
Qed.

Lemma strip_blank (s : str) :
  Forall (fun c => is_space c = true) s -> strip s = [].
Proof. intros F. unfold strip. now rewrite (lstrip_blank _ F). Qed.

(** [strip] removes whitespace at both ends and nothing else. *)
Lemma strip_split (s : str) :
  exists pre post,
    s = pre ++ strip s ++ post
    /\ Forall (fun c => is_space c = true) pre
    /\ Forall (fun c => is_space c = true) post.
Proof.
  destruct (lstrip_split s) as [pre [E F]].
  destruct (rstrip_split (lstrip s)) as [post [E' F']].
  exists pre, post. unfold strip. repeat split; try assumption.
  now rewrite <- E', <- E.
Qed.

Lemma strip_head (s : str) (c : char) (r : str) :
  strip s = c :: r -> is_space c = false.
Proof.
  unfold strip. intros H.
  destruct (lstrip s) as [|x l] eqn:E.
  - discriminate.
  - pose proof (lstrip_head _ _ _ E) as Hx.
    destruct (rstrip_head l _ Hx) as [r' Hr]. congruence.
Qed.

Lemma strip_last (s : str) (r : str) (c : char) :
  strip s = r ++ [c] -> is_space c = false.
Proof. unfold strip. apply rstrip_last. Qed.

Lemma strip_nil_blank (s : str) :
  strip s = [] -> Forall (fun c => is_space c = true) s.
Proof.
  unfold strip. intros H.
  destruct (lstrip s) as [|x l] eqn:E.
  - now apply lstrip_nil_blank.
  - destruct (rstrip_head l _ (lstrip_head _ _ _ E)) as [r Hr]. congruence.
Qed.

(** A text that neither starts nor ends with whitespace is left alone. *)
Lemma lstrip_fixed (c : char) (r : str) :
  is_space c = false -> lstrip (c :: r) = c :: r.
Proof. intros H. simpl. now rewrite H. Qed.

Lemma strip_app_blank (s t : str) :
  Forall (fun c => is_space c = true) t -> strip (s ++ t) = strip s.
Proof.
  intros F. unfold strip.
  destruct (lstrip s) as [|x l] eqn:E.
  - rewrite lstrip_app_blank by now apply lstrip_nil_blank.
    now rewrite (lstrip_blank _ F).
  - rewrite lstrip_app_nonblank by congruence.
    rewrite E. now apply rstrip_app_blank.
Qed.

Lemma strip_fixed (s : str) :
  (forall c r, s = c :: r -> is_space c = false) ->
  (forall r c, s = r ++ [c] -> is_space c = false) ->
  strip s = s.
Proof.
  intros Hhead Hlast. destruct s as [|c r]; [reflexivity|].
  unfold strip. rewrite (lstrip_fixed _ _ (Hhead c r eq_refl)).
  destruct (@exists_last _ (c :: r)) as [body [z Ez]]; [discriminate|].
  rewrite Ez. pose proof (Hlast body z Ez) as Hz.
  unfold rstrip. rewrite rev_app_distr. simpl. rewrite Hz.
  change (z :: rev body) with ([z] ++ rev body).
  now rewrite rev_app_distr, rev_involutive.
Qed.

Lemma strip_idem (s : str) : strip (strip s) = strip s.
Proof.
  apply strip_fixed.
  - intros c r. apply strip_head.
  - intros r c. apply strip_last.
Qed.

(** ** The cleanup pattern *)

Lemma drop_backslashes_length (s : str) :
  length (drop_backslashes s) <= length s.
Proof.
  induction s as [|c r IH]; simpl; [lia|].
  destruct (char_eqb c backslash); simpl; lia.
Qed.

(** The greedy [\\*] at the end of the pattern takes every backslash in
    front of it: nothing after it can fail and make it give one back. *)
Lemma exec_star_backslash (fuel : nat) (s : str) (g : option str) :
  length s <= fuel ->
  Re.exec fuel (Re.Star (Re.Chr backslash)) s g (fun s' g' => Some (s', g'))
  = Some (drop_backslashes s, g).
Proof.
  revert s. induction fuel as [|fuel IH]; intros s Hlen.
  - destruct s; [reflexivity|simpl in Hlen; lia].
  - destruct s as [|x r]; [reflexivity|].
    simpl in Hlen. cbn [Re.exec drop_backslashes].
    destruct (char_eqb x backslash) eqn:Hx; [|reflexivity].
    replace (length r <? length (x :: r)) with true
      by (symmetry; apply Nat.ltb_lt; simpl; lia).
    rewrite IH by lia. reflexivity.
Qed.

(** Unfolding of the matcher, one equation per construct. *)
Lemma exec_chr (fuel : nat) (c : char) (s : str) (g : option str) (k : Re.cont) :
  Re.exec fuel (Re.Chr c) s g k
  = match s with
    | x :: s' => if char_eqb x c then k s' g else None
    | [] => None
    end.
Proof. destruct fuel; reflexivity. Qed.

Lemma exec_dot (fuel : nat) (s : str) (g : option str) (k : Re.cont) :
  Re.exec fuel Re.Dot s g k
  = match s with
    | x :: s' => if char_eqb x newline then None else k s' g
    | [] => None
    end.
Proof. destruct fuel; reflexivity. Qed.

Lemma exec_opt (fuel : nat) (a : Re.regex) (s : str) (g : option str) (k : Re.cont) :
  Re.exec fuel (Re.Opt a) s g k
  = match Re.exec fuel a s g k with
    | Some o => Some o
    | None => k s g
    end.
Proof. destruct fuel; reflexivity. Qed.

Lemma exec_seq (fuel : nat) (a b : Re.regex) (s : str) (g : option str) (k : Re.cont) :
  Re.exec fuel (Re.Seq a b) s g k
  = Re.exec fuel a s g (fun s' g' => Re.exec fuel b s' g' k).
Proof. destruct fuel; reflexivity. Qed.

Lemma exec_group1 (fuel : nat) (a : Re.regex) (s : str) (g : option str) (k : Re.cont) :
  Re.exec fuel (Re.Group1 a) s g k
  = Re.exec fuel a s g
      (fun s' _ => k s' (Some (firstn (length s - length s') s))).
Proof. destruct fuel; reflexivity. Qed.

Lemma match_at_escape_pattern (s : str) :
  Re.match_at Re.escape_pattern s = escape_match s.
Proof.
  unfold Re.match_at, Re.escape_pattern.
  rewrite exec_seq, exec_chr.
  destruct s as [|c r]; [reflexivity|].
  cbn [escape_match].
  destruct (char_eqb c backslash) eqn:Hc; [|reflexivity].
  rewrite exec_seq, exec_group1, exec_opt, exec_dot.
  destruct r as [|d r'].
  - rewrite exec_star_backslash by (simpl; lia). reflexivity.
  - destruct (char_eqb d newline) eqn:Hd.
    + rewrite exec_star_backslash by (simpl; lia).
      rewrite Nat.sub_diag. simpl.
      apply char_eqb_eq in Hd. subst d. reflexivity.
    + rewrite exec_star_backslash by (simpl; lia).
      replace (length (d :: r') - length r') with 1 by (cbn [length]; lia).
      reflexivity.
Qed.

Lemma unescape_trailing (s : str) :
  unescape_from Trailing s = unescape (drop_backslashes s).
Proof.
  induction s as [|c r IH]; [reflexivity|].
  unfold unescape in *. simpl.
  destruct (char_eqb c backslash) eqn:Hc; [exact IH|].
  simpl. now rewrite Hc.
Qed.

Lemma sub_from_escape_pattern (fuel : nat) (s : str) :
  length s < fuel -> Re.sub_from fuel Re.escape_pattern s = unescape s.
Proof.
  revert s. induction fuel as [|fuel IH]; intros s Hlen; [lia|].
  cbn [Re.sub_from]. rewrite match_at_escape_pattern.
  destruct s as [|c r]; [reflexivity|].
  simpl in Hlen. unfold unescape. cbn [escape_match unescape_from].
  destruct (char_eqb c backslash) eqn:Hc.
  - destruct r as [|d r'].
    + simpl. destruct fuel; reflexivity.
    + cbn [unescape_from].
      destruct (char_eqb d newline) eqn:Hd.
      * replace (length (d :: r') <? length (c :: d :: r')) with true
          by (symmetry; apply Nat.ltb_lt; simpl; lia).
        rewrite IH by (simpl in *; lia).
        unfold unescape. simpl.
        apply char_eqb_eq in Hd. subst d. reflexivity.
      * pose proof (drop_backslashes_length r') as Hd'.
        replace (length (drop_backslashes r') <? length (c :: d :: r')) with true
          by (symmetry; apply Nat.ltb_lt; simpl; lia).
        rewrite IH by (simpl in *; lia).
        rewrite unescape_trailing. reflexivity.
  - rewrite IH by lia. reflexivity.
Qed.

(** The substitution of the sources is the left-to-right scan. *)
Lemma sub_escape_pattern (s : str) :
  Re.sub Re.escape_pattern s = unescape s.
Proof. unfold Re.sub. apply sub_from_escape_pattern. lia. Qed.

Lemma cleanup_unescape (s : str) : cleanup s = strip (unescape s).
Proof. unfold cleanup. now rewrite sub_escape_pattern. Qed.

(** The scan deletes backslashes and nothing else, in whatever state. *)
Lemma unescape_from_keeps (st : scan_state) (s : str) :
  filter not_backslash (unescape_from st s) = filter not_backslash s.
Proof.
  revert st. induction s as [|c r IH]; intros st; [reflexivity|].
  unfold not_backslash in *.
  destruct st; simpl.
  - destruct (char_eqb c backslash) eqn:Hc; simpl; rewrite ?Hc; simpl;
      now rewrite IH.
  - destruct (char_eqb c newline) eqn:Hn; simpl;
        destruct (char_eqb c backslash) eqn:Hc; simpl; rewrite ?Hc; simpl;
      now rewrite IH.
  - destruct (char_eqb c backslash) eqn:Hc; simpl; rewrite ?Hc; simpl;
      now rewrite IH.
Qed.

Lemma unescape_from_no_backslash (s : str) :
  ~ In backslash s ->
  unescape_from Scanning s = s.
Proof.
  induction s as [|c r IH]; intros Hn; [reflexivity|].
  simpl. destruct (char_eqb c backslash) eqn:Hc.
  - apply char_eqb_eq in Hc. exfalso. apply Hn. now left.
  - f_equal. apply IH. intros Hin. apply Hn. now right.
Qed.

Lemma unescape_from_single (s : str) :
  no_adjacent_backslashes s = true ->
  unescape_from Scanning s = filter not_backslash s
  /\ unescape_from Trailing s = filter not_backslash s
  /\ (match s with
      | c :: _ => char_eqb c backslash = false
      | [] => True
      end -> unescape_from AfterBackslash s = filter not_backslash s).
Proof.
  induction s as [|c r IH]; intros Hs; [repeat split; reflexivity|].
  assert (Hr : no_adjacent_backslashes r = true).
  { simpl in Hs. destruct r; [reflexivity|].
    apply andb_true_iff in Hs. apply Hs. }
  destruct (IH Hr) as [IH1 [IH2 IH3]]. clear IH.
  unfold not_backslash in *. cbn [unescape_from filter].
  destruct (char_eqb c backslash) eqn:Hc; cbn [negb].
  - assert (Hhead : match r with
                    | d :: _ => char_eqb d backslash = false
                    | [] => True
                    end).
    { destruct r as [|d r']; [exact I|].
      simpl in Hs. rewrite Hc in Hs. simpl in Hs.
      apply andb_true_iff in Hs. destruct Hs as [Hd _].
      now apply negb_true_iff in Hd. }
    repeat split; auto. discriminate.
  - repeat split.
    + now rewrite IH1.
    + now rewrite IH1.
    + intros _. destruct (char_eqb c newline); now rewrite ?IH1, ?IH2.
Qed.

Lemma filter_not_backslash_clean (s : str) :
  ~ In backslash (filter not_backslash s).
Proof.
  intros Hin. apply filter_In in Hin. destruct Hin as [_ H].
  unfold not_backslash in H. apply negb_true_iff, char_eqb_neq in H.
  now apply H.
Qed.

Lemma count_occ_unescape_from (st : scan_state) (s : str) (c : char) :
  c <> backslash ->
  count_occ char_eq_dec (unescape_from st s) c = count_occ char_eq_dec s c.
Proof.
  intros Hc. revert st. induction s as [|x r IH]; intros st; [reflexivity|].
  destruct st; cbn [unescape_from].
  - destruct (char_eqb x backslash) eqn:Hx.
    + apply char_eqb_eq in Hx. subst x.
      rewrite count_occ_cons_neq by congruence. apply IH.
    + simpl. destruct (char_eq_dec x c); now rewrite IH.
  - destruct (char_eqb x newline); simpl; destruct (char_eq_dec x c); now rewrite IH.
  - destruct (char_eqb x backslash) eqn:Hx.
    + apply char_eqb_eq in Hx. subst x.
      rewrite count_occ_cons_neq by congruence. apply IH.
    + simpl. destruct (char_eq_dec x c); now rewrite IH.
Qed.

Lemma count_occ_blank (s : str) (c : char) :
  blank s -> is_space c = false -> count_occ char_eq_dec s c = 0.
Proof.
  intros Hs Hc. apply count_occ_not_In. intros Hin.
  unfold blank in Hs. rewrite Forall_forall in Hs.
  specialize (Hs c Hin). congruence.
Qed.

Lemma count_occ_strip (s : str) (c : char) :
  is_space c = false ->
  count_occ char_eq_dec (strip s) c = count_occ char_eq_dec s c.
Proof.
  intros Hc. destruct (strip_split s) as [pre [post [E [Hpre Hpost]]]].
  transitivity (count_occ char_eq_dec (pre ++ strip s ++ post) c);
    [|now rewrite <- E].
  rewrite !count_occ_app.
  pose proof (count_occ_blank pre c Hpre Hc).
  pose proof (count_occ_blank post c Hpost Hc).
  lia.
Qed.

Lemma in_strip (s : str) (c : char) : In c (strip s) -> In c s.
Proof.
  intros Hin. destruct (strip_split s) as [pre [post [E _]]].
  rewrite E. apply in_or_app. right. apply in_or_app. now left.
Qed.

(** ** The cleanup of a model response *)

(** C2 (as the code has it).  For every response text the cleanup is the
    substitution followed by a trim.  The substitution is the scan
    [unescape]: a backslash is dropped, the character after it is kept
    unless the line ends there, and the backslashes right after that
    character are dropped.  The substituted text is the cleaned text
    between two runs of whitespace, and the cleaned text neither starts
    nor ends with whitespace.  The substitution deletes backslashes
    and nothing else: the characters other than backslashes are the same,
    in the same order, and every character that is neither a backslash nor
    whitespace, the asterisk among them, occurs as often in the cleaned
    text as in the response.  When no backslash of the response is
    directly followed by another one, no backslash is left.  The response
    [\*bold\*] is cleaned to [*bold*]: the backslashes are gone, the word
    and its asterisks are kept. *)
Theorem cleanup_deletes_backslashes (s : str) :
  Re.sub Re.escape_pattern s = unescape s
  /\ (exists pre post,
         Re.sub Re.escape_pattern s = pre ++ cleanup s ++ post
         /\ blank pre /\ blank post)
  /\ (forall c r, cleanup s = c :: r -> is_space c = false)
  /\ (forall r c, cleanup s = r ++ [c] -> is_space c = false)
  /\ filter not_backslash (Re.sub Re.escape_pattern s) = filter not_backslash s
  /\ (forall c, c <> backslash -> is_space c = false ->
                occurrences c (cleanup s) = occurrences c s)
  /\ occurrences asterisk (cleanup s) = occurrences asterisk s
  /\ (no_adjacent_backslashes s = true -> ~ In backslash (cleanup s))
  /\ cleanup (lit "\*bold\*") = lit "*bold*".
Proof.
  assert (Hcount : forall c, c <> backslash -> is_space c = false ->
                     occurrences c (cleanup s) = occurrences c s).
  { intros c Hc Hsp. unfold occurrences. rewrite cleanup_unescape, count_occ_strip by exact Hsp.
    now apply count_occ_unescape_from. }
  repeat split.
  - apply sub_escape_pattern.
  - unfold cleanup. apply strip_split.
  - intros c r. unfold cleanup. apply strip_head.
  - intros r c. unfold cleanup. apply strip_last.
  - rewrite sub_escape_pattern. apply unescape_from_keeps.
  - exact Hcount.
  - apply Hcount; [discriminate|reflexivity].
  - intros Hs Hin. rewrite cleanup_unescape in Hin. apply in_strip in Hin.
    destruct (unescape_from_single s Hs) as [E _].
    unfold unescape in Hin. rewrite E in Hin.
    exact (filter_not_backslash_clean s Hin).
Qed.

Lemma cleanup_deletes_backslashes_witness :
  no_adjacent_backslashes (lit "\*bold\* and \_under\_") = true
  /\ ~ In backslash (cleanup (lit "\*bold\* and \_under\_")).
Proof.
  split; [reflexivity|].
  apply (cleanup_deletes_backslashes (lit "\*bold\* and \_under\_")).
  reflexivity.
Defined.

(** C2 as the specification words it fails: the cleanup removes no literal
    asterisk.  Plain [**bold**] comes out with its four asterisks, the
    asterisks of [\*bold\*] are kept too, and of [\a**] (a backslash, a
    character, trailing asterisks) only the backslash is removed. *)
Lemma cleanup_keeps_asterisks :
  cleanup (lit "**bold**") = lit "**bold**"
  /\ In asterisk (cleanup (lit "**bold**"))
  /\ In asterisk (cleanup (lit "\*bold\*"))
  /\ cleanup (lit "\a**") = lit "a**".
Proof.
  repeat split; vm_compute; auto.
Qed.

(** C10.  A response without any backslash is only trimmed by the cleanup;
    in particular [**bold**] passes through untouched. *)
Theorem cleanup_without_backslash (s : str) :
  ~ In backslash s ->
  cleanup s = strip s /\ cleanup (lit "**bold**") = lit "**bold**".
Proof.
  intros Hn. split; [|reflexivity].
  rewrite cleanup_unescape. unfold unescape.
  now rewrite unescape_from_no_backslash.
Qed.

Lemma cleanup_without_backslash_witness :
  ~ In backslash (lit "  **bold** move  ")
  /\ cleanup (lit "  **bold** move  ") = lit "**bold** move".
Proof.
  assert (Hn : ~ In backslash (lit "  **bold** move  ")).
  { vm_compute. intuition discriminate. }
  split; [exact Hn|].
  rewrite (proj1 (cleanup_without_backslash (lit "  **bold** move  ") Hn)).
  reflexivity.
Defined.

(** ** Loading documents *)

Lemma fold_add_page (pages : list (option str)) (text : str) :
  fold_left add_page pages text
  = text ++ concat (List.map (fun p => p ++ [newline]) (extractable pages)).
Proof.
  revert text. induction pages as [|page pages IH]; intros text; simpl.
  - now rewrite app_nil_r.
  - rewrite IH. destruct page as [t|]; simpl; [|reflexivity].
    destruct (truthy t); simpl; [|reflexivity].
    now rewrite <- !app_assoc.
Qed.

Lemma concat_lines_join (l : list str) :
  l <> [] ->
  concat (List.map (fun p => p ++ [newline]) l) = join [newline] l ++ [newline].
Proof.
  induction l as [|p l IH]; intros Hne; [congruence|].
  destruct l as [|q l]; [simpl; now rewrite app_nil_r|].
  change (concat (List.map (fun p => p ++ [newline]) (p :: q :: l)))
    with ((p ++ [newline])
          ++ concat (List.map (fun p => p ++ [newline]) (q :: l))).
  rewrite IH by discriminate.
  change (join [newline] (p :: q :: l))
    with (p ++ [newline] ++ join [newline] (q :: l)).
  now rewrite <- !app_assoc.
Qed.

Lemma blank_newline : blank [newline].
Proof. repeat constructor. Qed.

(** The loop and the final [strip] of [extract_text_from_pdf]: the texts
    of the pages that have some, joined by newlines, trimmed at both
    ends. *)
Lemma extract_pages_join (pages : list (option str)) :
  extract_pages pages = strip (join [newline] (extractable pages)).
Proof.
  unfold extract_pages. rewrite fold_add_page. simpl.
  destruct (extractable pages) as [|p l] eqn:E; [reflexivity|].
  rewrite concat_lines_join by discriminate.
  apply strip_app_blank, blank_newline.
Qed.

Lemma universal_newlines_clean (s : str) :
  ~ In carriage_return (universal_newlines s).
Proof.
  remember (length s) as n eqn:Hn. revert s Hn.
  induction n as [n IH] using lt_wf_ind. intros s Hn.
  destruct s as [|c r]; [intros []|].
  cbn [universal_newlines]. destruct (char_eqb c carriage_return) eqn:Hc.
  - intros [H|H]; [discriminate H|].
    destruct r as [|d r']; [destruct H|].
    destruct (char_eqb d newline);
      [apply (IH (length r') ltac:(subst n; simpl; lia) r' eq_refl H)
      |apply (IH (length (d :: r')) ltac:(subst n; simpl; lia) _ eq_refl H)].
  - apply char_eqb_neq in Hc. intros [H|H]; [congruence|].
    apply (IH (length r) ltac:(subst n; simpl; lia) r eq_refl H).
Qed.

Lemma universal_newlines_fixed (s : str) :
  ~ In carriage_return s -> universal_newlines s = s.
Proof.
  induction s as [|c r IH]; intros H; [reflexivity|].
  cbn [universal_newlines]. destruct (char_eqb c carriage_return) eqn:Hc.
  - apply char_eqb_eq in Hc. exfalso. apply H. left. now symmetry.
  - f_equal. apply IH. intros Hin. apply H. right. exact Hin.
Qed.

(** The other characters pass through in their order. *)
Lemma universal_newlines_keeps (s : str) :
  filter (fun c => negb (char_eqb c carriage_return) && negb (char_eqb c newline))
    (universal_newlines s)
  = filter (fun c => negb (char_eqb c carriage_return) && negb (char_eqb c newline))
      s.
Proof.
  remember (length s) as n eqn:Hn. revert s Hn.
  induction n as [n IH] using lt_wf_ind. intros s Hn.
  destruct s as [|c r]; [reflexivity|].
  cbn [universal_newlines]. destruct (char_eqb c carriage_return) eqn:Hc.
  - cbn [filter]. rewrite Hc. cbn [negb andb].
    destruct r as [|d r']; [reflexivity|].
    destruct (char_eqb d newline) eqn:Hd.
    + cbn [filter]. rewrite Hd.
      destruct (char_eqb d carriage_return); cbn [negb andb];
      apply (IH (length r') ltac:(subst n; simpl; lia) r' eq_refl).
    + apply (IH (length (d :: r')) ltac:(subst n; simpl; lia) _ eq_refl).
  - cbn [filter]. rewrite Hc. cbn [negb andb].
    rewrite (IH (length r) ltac:(subst n; simpl; lia) r eq_refl).
    reflexivity.
Qed.

(** C4 (as the code has it).  For a path that ends in [.pdf] and any
    per-page extraction results, the loader returns the texts of the
    pages that have some, in page order, joined by single newlines, with
    the whitespace at both ends of the whole removed: the result neither
    starts nor ends with whitespace.  For any other path it returns the
    UTF-8 decoded contents of the file as text mode reads them: each line
    ending ["\r\n"] or ["\r"] has become ["\n"], so that no carriage
    return is left, the characters other than line endings are the same
    in the same order, and contents without a carriage return are returned
    exactly as they are. *)
Theorem load_document_text (G U : Type) (ext : Extern) (w : World G U)
    (file_path : str) :
  (endswith file_path (lit ".pdf") = true ->
   forall pages, pdf_pages ext (events w) file_path = Some pages ->
     let text := strip (join [newline] (extractable pages)) in
     load_document ext file_path w
     = (Ok text, {| globals := globals w; gui := gui w;
                    events := events w ++ [EvOpenPdf file_path] |})
     /\ (forall c r, text = c :: r -> is_space c = false)
     /\ (forall r c, text = r ++ [c] -> is_space c = false))
  /\ (endswith file_path (lit ".pdf") = false ->
      forall contents, file_text ext (events w) file_path = Some contents ->
        let text := universal_newlines contents in
        load_document ext file_path w
        = (Ok text, {| globals := globals w; gui := gui w;
                       events := events w ++ [EvReadText file_path] |})
        /\ ~ In carriage_return text
        /\ filter (fun c => negb (char_eqb c carriage_return)
                            && negb (char_eqb c newline)) text
           = filter (fun c => negb (char_eqb c carriage_return)
                              && negb (char_eqb c newline)) contents
        /\ (~ In carriage_return contents -> text = contents))
  /\ universal_newlines
       (lit "a" ++ [carriage_return; newline] ++ lit "b"
        ++ [carriage_return] ++ lit "c" ++ [newline])
     = lit "a" ++ [newline] ++ lit "b" ++ [newline] ++ lit "c" ++ [newline].
Proof.
  split; [|split; [|reflexivity]].
  - intros Hpdf pages Hpages text. repeat split.
    + unfold load_document. rewrite Hpdf.
      unfold extract_text_from_pdf, bind, get_trace, emit, ret. simpl.
      rewrite Hpages. subst text. now rewrite extract_pages_join.
    + intros c r. apply strip_head.
    + intros r c. apply strip_last.
  - intros Htxt contents Htext text. subst text.
    split; [|split; [|split]].
    + unfold load_document. rewrite Htxt.
      unfold read_text, bind, get_trace, emit, ret. simpl.
      now rewrite Htext.
    + apply universal_newlines_clean.
    + apply universal_newlines_keeps.
    + apply universal_newlines_fixed.
Qed.

Lemma load_document_text_witness :
  endswith (lit "jd.pdf") (lit ".pdf") = true
  /\ endswith (lit "jd.txt") (lit ".pdf") = false
  /\ fst (load_document (demo_extern (inl []) true []) (lit "jd.pdf") Main.initial)
     = Ok (lit "Senior data" ++ [newline] ++ lit "analyst")
  /\ fst (load_document (demo_extern (inl []) true []) (lit "jd.txt") Main.initial)
     = Ok (lit " Data analyst, remote ").
Proof.
  pose proof (load_document_text _ _ (demo_extern (inl []) true []) Main.initial
                (lit "jd.pdf")) as [Hpdf _].
  pose proof (load_document_text _ _ (demo_extern (inl []) true []) Main.initial
                (lit "jd.txt")) as [_ [Htxt _]].
  specialize (Hpdf eq_refl demo_pages eq_refl). destruct Hpdf as [Epdf _].
  specialize (Htxt eq_refl (lit " Data analyst, remote ") eq_refl).
  destruct Htxt as [Etxt _].
  split; [reflexivity|]. split; [reflexivity|].
  split; [rewrite Epdf|rewrite Etxt]; reflexivity.
Defined.

(** C4 as the specification words it fails on both halves.  The final
    [strip] also takes the whitespace in front: a single page whose text
    is [" a"] is loaded as ["a"], not as the page text with its trailing
    whitespace trimmed.  And a text file is not returned exactly as
    decoded: one whose decoded contents are ["a\r\nb"] is loaded as
    ["a\nb"]. *)
Lemma load_document_transforms :
  extract_pages [Some (lit " a")] = lit "a"
  /\ spec_pdf_text [Some (lit " a")] = lit " a"
  /\ extract_pages [Some (lit " a")] <> spec_pdf_text [Some (lit " a")]
  /\ (forall (ext : Extern) (w : Main.state),
         file_text ext (events w) (lit "jd.txt")
         = Some (lit "a" ++ [carriage_return; newline] ++ lit "b") ->
         fst (load_document ext (lit "jd.txt") w)
         = Ok (lit "a" ++ [newline] ++ lit "b"))
  /\ lit "a" ++ [newline] ++ lit "b"
     <> lit "a" ++ [carriage_return; newline] ++ lit "b".
Proof.
  split; [reflexivity|]. split; [reflexivity|].
  split; [vm_compute; discriminate|]. split; [|discriminate].
  intros ext w H. unfold load_document.
  replace (endswith (lit "jd.txt") (lit ".pdf")) with false by reflexivity.
  unfold read_text, bind, get_trace, emit, ret. cbn [events fst].
  rewrite H. reflexivity.
Qed.

(** ** Running handlers *)

Ltac run :=
  cbv beta iota zeta delta
    [bind ret raise try_except get_globals get_gui get_trace set_globals
     set_gui emit invoke ask_yes_no ask_open_filename ask_save_as_filename
     clock globals gui events fst snd
     Main.set_conversation_messages Main.set_job_description
     Main.set_candidate_resume Main.set_status_label
     Try.set_conversation_messages Try.set_job_description
     Try.set_candidate_resumes Try.set_interview_suggestions
     Try.set_status_label Try.set_suggestion_text].

Lemma llm_calls_app (t u : trace) : llm_calls (t ++ u) = llm_calls t ++ llm_calls u.
Proof. unfold llm_calls. apply flat_map_app. Qed.

(** ** The validation of the full analysis *)

(** C1.  In both variants, when the job description is empty, or no resume
    is loaded, or the conversation has fewer than three messages,
    [analyze_conversation] returns normally after one message box: the
    globals and the widgets are what they were, and no call of the remote
    model is added to the trace. *)
Theorem analysis_rejected (ext : Extern) :
  (forall w : Main.state,
      Main.job_description (globals w) = []
      \/ Main.candidate_resume (globals w) = []
      \/ length (Main.conversation_messages (globals w)) < 3 ->
      exists notice,
        (notice = Main.missing_documents \/ notice = Main.short_conversation)
        /\ Main.analyze_conversation ext w
           = (Ok tt, {| globals := globals w; gui := gui w;
                        events := events w ++ [notice] |})
        /\ llm_calls (events (snd (Main.analyze_conversation ext w)))
           = llm_calls (events w))
  /\ (forall w : Try.state,
         Try.job_description (globals w) = []
         \/ Try.candidate_resumes (globals w) = []
         \/ length (Try.conversation_messages (globals w)) < 3 ->
         exists notice,
           (notice = Try.missing_documents \/ notice = Try.short_conversation)
           /\ Try.analyze_conversation ext w
              = (Ok tt, {| globals := globals w; gui := gui w;
                           events := events w ++ [notice] |})
           /\ llm_calls (events (snd (Try.analyze_conversation ext w)))
              = llm_calls (events w)).
Proof.
  split; intros [g u t] H; cbn [globals gui events] in H.
  - unfold Main.analyze_conversation. run.
    destruct (truthy (Main.job_description g)) eqn:Hjd;
      [destruct (truthy (Main.candidate_resume g)) eqn:Hcv;
       [destruct (length (Main.conversation_messages g) <? 3) eqn:Hlen|]|];
      cbn [negb orb].
    + eexists. split; [right; reflexivity|]. split; [reflexivity|].
      rewrite llm_calls_app. apply app_nil_r.
    + exfalso. apply Nat.ltb_ge in Hlen.
      destruct H as [H|[H|H]];
        [rewrite H in Hjd; discriminate|rewrite H in Hcv; discriminate|lia].
    + eexists. split; [left; reflexivity|]. split; [reflexivity|].
      rewrite llm_calls_app. apply app_nil_r.
    + eexists. split; [left; reflexivity|]. split; [reflexivity|].
      rewrite llm_calls_app. apply app_nil_r.
  - unfold Try.analyze_conversation. run.
    destruct (truthy (Try.job_description g)) eqn:Hjd;
      [destruct (Try.candidate_resumes g) as [|cv cvs] eqn:Hcv;
       [|destruct (length (Try.conversation_messages g) <? 3) eqn:Hlen]|];
      cbn [negb orb].
    + eexists. split; [left; reflexivity|]. split; [reflexivity|].
      rewrite llm_calls_app. apply app_nil_r.
    + eexists. split; [right; reflexivity|]. split; [reflexivity|].
      rewrite llm_calls_app. apply app_nil_r.
    + exfalso. apply Nat.ltb_ge in Hlen.
      destruct H as [H|[H|H]];
        [rewrite H in Hjd; discriminate|discriminate|lia].
    + eexists. split; [left; reflexivity|]. split; [reflexivity|].
      rewrite llm_calls_app. apply app_nil_r.
Qed.

Lemma analysis_rejected_witness :
  length (Main.conversation_messages
            (globals (Main.loaded (firstn 2 demo_messages)))) < 3
  /\ llm_calls
       (events (snd (Main.analyze_conversation
                       (demo_extern (inl (lit "PROCEED")) true [])
                       (Main.loaded (firstn 2 demo_messages)))))
     = [].
Proof.
  assert (H : length (Main.conversation_messages
                        (globals (Main.loaded (firstn 2 demo_messages)))) < 3)
    by (simpl; lia).
  split; [exact H|].
  destruct (proj1 (analysis_rejected (demo_extern (inl (lit "PROCEED")) true []))
              (Main.loaded (firstn 2 demo_messages))
              (or_intror (or_intror H))) as [notice [_ [_ Hcalls]]].
  exact Hcalls.
Defined.

(** Past the validation the remote model is called: once, with the fit prompt,
    in [main.py]; for the analysis and then for the questions in
    [try.py]. *)
Lemma main_analysis_accepted (ext : Extern) (w : Main.state) :
  Main.job_description (globals w) <> [] ->
  Main.candidate_resume (globals w) <> [] ->
  3 <= length (Main.conversation_messages (globals w)) ->
  llm_calls (events (snd (Main.analyze_conversation ext w)))
  = llm_calls (events w)
    ++ [Main.fit_prompt (Main.job_description (globals w))
          (Main.candidate_resume (globals w))
          (join [newline]
             (List.map transcript_line (Main.conversation_messages (globals w))))].
Proof.
  destruct w as [g u t]. cbn [globals gui events]. intros Hjd Hcv Hlen.
  unfold Main.analyze_conversation, Main.analyze_candidate_fit,
    Main.show_analysis_results. run.
  destruct (Main.job_description g) eqn:Ejd; [congruence|].
  destruct (Main.candidate_resume g) eqn:Ecv; [congruence|].
  cbn [truthy negb orb].
  replace (length (Main.conversation_messages g) <? 3) with false
    by (symmetry; apply Nat.ltb_ge; lia).
  destruct (llm_invoke ext _ _); run; cbn [snd events];
    rewrite llm_calls_app, ?Ejd, ?Ecv; reflexivity.
Qed.


(** ** Clearing the chat *)

(** C9.  The clear performed by [clear_chat], which the handler does once
    the user has confirmed the dialog in front of it, empties the
    conversation and, in [try.py], the resumes and the suggestions as
    well.  The job description is what it was in both programs (as is the
    resume of [main.py]), and the handler returns normally; when the
    dialog is declined no clear is performed and no global changes. *)
Theorem clear_chat_effect (ext : Extern) :
  (forall w : Main.state,
      let w' := snd (Main.clear_chat ext w) in
      fst (Main.clear_chat ext w) = Ok tt
      /\ Main.job_description (globals w') = Main.job_description (globals w)
      /\ Main.candidate_resume (globals w') = Main.candidate_resume (globals w)
      /\ (askyesno ext (events w) = true ->
          Main.conversation_messages (globals w') = [])
      /\ (askyesno ext (events w) = false -> globals w' = globals w))
  /\ (forall w : Try.state,
         let w' := snd (Try.clear_chat ext w) in
         fst (Try.clear_chat ext w) = Ok tt
         /\ Try.job_description (globals w') = Try.job_description (globals w)
         /\ (askyesno ext (events w) = true ->
             Try.conversation_messages (globals w') = []
             /\ Try.candidate_resumes (globals w') = []
             /\ Try.interview_suggestions (globals w') = [])
         /\ (askyesno ext (events w) = false -> globals w' = globals w)).
Proof.
  split; intros [g u t]; cbn zeta.
  - unfold Main.clear_chat. run.
    destruct (askyesno ext t); run;
      repeat split; try reflexivity; discriminate.
  - unfold Try.clear_chat. run.
    destruct (askyesno ext t); run;
      repeat split; try reflexivity; discriminate.
Qed.

Lemma clear_chat_effect_witness :
  askyesno (demo_extern (inl []) true []) (events (Try.loaded demo_messages)) = true
  /\ Try.conversation_messages
       (globals (snd (Try.clear_chat (demo_extern (inl []) true [])
                        (Try.loaded demo_messages)))) = []
  /\ Try.job_description
       (globals (snd (Try.clear_chat (demo_extern (inl []) true [])
                        (Try.loaded demo_messages))))
     = lit "Data analyst, SQL and Python".
Proof.
  pose proof (proj2 (clear_chat_effect (demo_extern (inl []) true []))
                (Try.loaded demo_messages)) as H.
  cbn zeta in H. destruct H as [_ [Hjd [Hyes _]]].
  split; [reflexivity|]. split.
  - apply (Hyes eq_refl).
  - rewrite Hjd. reflexivity.
Defined.

(** Declining the confirmation: no clear is performed, the conversation
    and the resumes are all still there. *)
Example clear_chat_declined :
  Main.conversation_messages
    (globals (snd (Main.clear_chat (demo_extern (inl []) false [])
                     (Main.loaded demo_messages))))
  = demo_messages
  /\ Try.conversation_messages
       (globals (snd (Try.clear_chat (demo_extern (inl []) false [])
                        (Try.loaded demo_messages))))
     = demo_messages
  /\ Try.candidate_resumes
       (globals (snd (Try.clear_chat (demo_extern (inl []) false [])
                        (Try.loaded demo_messages))))
     = [lit "Five years of SQL reporting"]
  /\ demo_messages <> [].
Proof.
  repeat split. discriminate.
Qed.

(** ** Dynamic interview suggestions *)

Lemma last_three_length (A : Type) (l : list A) : length (last_three l) <= 3.
Proof. unfold last_three. rewrite length_skipn. lia. Qed.

Lemma last_three_suffix (A : Type) (l : list A) :
  l = firstn (length l - 3) l ++ last_three l.
Proof. unfold last_three. symmetry. apply firstn_skipn. Qed.

(** The suggestion generator never raises and never touches the globals
    or the widgets; it only adds events. *)
Lemma suggestion_total (ext : Extern) (w : Try.state) :
  exists r added,
    Try.generate_dynamic_interview_suggestion ext w
    = (Ok r, {| globals := globals w; gui := gui w;
                events := events w ++ added |}).
Proof.
  destruct w as [g u t]. unfold Try.generate_dynamic_interview_suggestion. run.
  destruct ((length (Try.conversation_messages g) <? 2)
            || negb (truthy (Try.job_description g))
            || match Try.candidate_resumes g with [] => true | _ :: _ => false end).
  - exists None, []. now rewrite app_nil_r.
  - destruct (llm_invoke ext _ _); run.
    + eexists _, [_]. reflexivity.
    + eexists _, [_; _]. rewrite <- app_assoc. reflexivity.
Qed.

(** C6.  [generate_dynamic_interview_suggestion] returns [None], calling
    nothing and changing nothing, when there are fewer than two messages,
    or no job description, or no resume.  Otherwise it makes one call whose
    prompt is built from the job description and the last three messages
    at most (a suffix of the conversation of length three or less).  When
    that call fails it prints a line and returns [None] without raising;
    when it succeeds it returns the cleaned reply.  In every case the
    globals and the widgets are what they were. *)
Theorem suggestion_degrades (ext : Extern) (w : Try.state) :
  let g := globals w in
  let recent := last_three (Try.conversation_messages g) in
  let prompt :=
    Try.suggestion_prompt (Try.job_description g)
      (join [newline] (List.map transcript_line recent)) in
  (length (Try.conversation_messages g) < 2
   \/ Try.job_description g = []
   \/ Try.candidate_resumes g = [] ->
   Try.generate_dynamic_interview_suggestion ext w = (Ok None, w))
  /\ length recent <= 3
  /\ (exists older, Try.conversation_messages g = older ++ recent)
  /\ (2 <= length (Try.conversation_messages g) ->
      Try.job_description g <> [] ->
      Try.candidate_resumes g <> [] ->
      (forall text,
          llm_invoke ext (events w) prompt = inr text ->
          Try.generate_dynamic_interview_suggestion ext w
          = (Ok None,
             {| globals := g; gui := gui w;
                events := events w
                          ++ [EvLlmInvoke prompt;
                              EvPrint (lit "Error generating interview suggestion: "
                                       ++ text)] |}))
      /\ (forall content,
             llm_invoke ext (events w) prompt = inl content ->
             Try.generate_dynamic_interview_suggestion ext w
             = (Ok (Some (cleanup content)),
                {| globals := g; gui := gui w;
                   events := events w ++ [EvLlmInvoke prompt] |})))
  /\ (exists r, fst (Try.generate_dynamic_interview_suggestion ext w) = Ok r)
  /\ globals (snd (Try.generate_dynamic_interview_suggestion ext w)) = g
  /\ gui (snd (Try.generate_dynamic_interview_suggestion ext w)) = gui w.
Proof.
  cbn zeta. split; [|split; [|split; [|split; [|split; [|split]]]]].
  - destruct w as [g u t]. cbn [globals gui events]. intros H.
    unfold Try.generate_dynamic_interview_suggestion. run.
    destruct H as [H|[H|H]].
    + apply Nat.ltb_lt in H. now rewrite H.
    + rewrite H. cbn [truthy negb]. now rewrite orb_true_r.
    + rewrite H. now rewrite orb_true_r.
  - apply last_three_length.
  - eexists. apply last_three_suffix.
  - destruct w as [g u t]. cbn [globals gui events]. intros Hlen Hjd Hcv.
    unfold Try.generate_dynamic_interview_suggestion. run.
    replace (length (Try.conversation_messages g) <? 2) with false
      by (symmetry; apply Nat.ltb_ge; lia).
    replace (truthy (Try.job_description g)) with true
      by (destruct (Try.job_description g); [congruence|reflexivity]).
    destruct (Try.candidate_resumes g) as [|cv cvs] eqn:Ecv; [congruence|].
    cbn [negb orb].
    split; intros x Hx; rewrite Hx; run; rewrite <- ?app_assoc; reflexivity.
  - destruct (suggestion_total ext w) as [r [added E]]. rewrite E. now exists r.
  - destruct (suggestion_total ext w) as [r [added E]]. now rewrite E.
  - destruct (suggestion_total ext w) as [r [added E]]. now rewrite E.
Qed.

Lemma suggestion_degrades_witness :
  2 <= length (Try.conversation_messages (globals (Try.loaded demo_messages)))
  /\ fst (Try.generate_dynamic_interview_suggestion
            (demo_extern (inr (lit "rate limit")) true [])
            (Try.loaded demo_messages)) = Ok None
  /\ globals (snd (Try.generate_dynamic_interview_suggestion
                     (demo_extern (inr (lit "rate limit")) true [])
                     (Try.loaded demo_messages)))
     = globals (Try.loaded demo_messages).
Proof.
  pose proof (suggestion_degrades (demo_extern (inr (lit "rate limit")) true [])
                (Try.loaded demo_messages)) as H.
  cbn zeta in H. destruct H as [_ [_ [_ [H [_ [Hg _]]]]]].
  assert (Hlen : 2 <= length (Try.conversation_messages
                                (globals (Try.loaded demo_messages))))
    by (simpl; lia).
  split; [exact Hlen|]. split; [|exact Hg].
  destruct (H Hlen) as [Hfail _]; [discriminate|discriminate|].
  rewrite (Hfail (lit "rate limit") eq_refl). reflexivity.
Defined.

(** ** Sending a message *)

(** Every clock reading formats to a well-formed string; the 86400 times
    of day are checked one by one. *)
Lemma format_HMS_well_formed (h m s : nat) :
  time_of_day h m s = true -> is_HH_MM_SS (format_HMS h m s) = true.
Proof.
  unfold time_of_day. intros H.
  apply andb_true_iff in H. destruct H as [H Hs].
  apply andb_true_iff in H. destruct H as [Hh Hm].
  apply Nat.ltb_lt in Hh, Hm, Hs.
  assert (Hall :
    forallb (fun h =>
      forallb (fun m =>
        forallb (fun s => is_HH_MM_SS (format_HMS h m s))
          (seq 0 60)) (seq 0 60)) (seq 0 24) = true)
    by (vm_compute; reflexivity).
  rewrite forallb_forall in Hall.
  assert (Hmin := Hall h ltac:(apply in_seq; lia)).
  rewrite forallb_forall in Hmin.
  assert (Hsec := Hmin m ltac:(apply in_seq; lia)).
  rewrite forallb_forall in Hsec.
  apply (Hsec s). apply in_seq. lia.
Qed.

Lemma strftime_HMS_well_formed (t : datetime) :
  is_HH_MM_SS (strftime_HMS t) = true.
Proof. apply format_HMS_well_formed, time_ok. Qed.

Lemma strip_text_get_all (text : str) : strip (text_get_all text) = strip text.
Proof. unfold text_get_all. apply strip_app_blank, blank_newline. Qed.

Lemma truthy_strip (text : str) : ~ blank text -> truthy (strip text) = true.
Proof.
  intros Hnb. destruct (strip text) eqn:E; [|reflexivity].
  exfalso. apply Hnb. now apply strip_nil_blank.
Qed.

(** C5 (as the code has it).  In both variants [send_message] returns
    normally.  When the typed text is empty or only whitespace, nothing at
    all changes.  Otherwise exactly one record is added at the end of the
    conversation, the earlier records staying as they were: its sender is
    the current sender, its text is the typed text with the whitespace at
    both ends removed (the typed text itself when it has none there), and
    its timestamp is the clock reading formatted as [HH:MM:SS], a
    well-formed string. *)
Theorem send_message_appends (ext : Extern) :
  (forall w : Main.state,
      let text := Main.message_input (gui w) in
      let w' := snd (Main.send_message ext w) in
      fst (Main.send_message ext w) = Ok tt
      /\ (blank text -> w' = w)
      /\ (~ blank text ->
          Main.conversation_messages (globals w')
          = Main.conversation_messages (globals w)
            ++ [ {| sender := Main.current_sender (gui w);
                    message := strip text;
                    timestamp := strftime_HMS (now ext (events w)) |} ]
          /\ is_HH_MM_SS (strftime_HMS (now ext (events w))) = true
          /\ ((forall c r, text = c :: r -> is_space c = false) ->
              (forall r c, text = r ++ [c] -> is_space c = false) ->
              strip text = text)))
  /\ (forall w : Try.state,
         let text := Try.message_input (gui w) in
         let w' := snd (Try.send_message ext w) in
         fst (Try.send_message ext w) = Ok tt
         /\ (blank text -> w' = w)
         /\ (~ blank text ->
             Try.conversation_messages (globals w')
             = Try.conversation_messages (globals w)
               ++ [ {| sender := Try.current_sender (gui w);
                       message := strip text;
                       timestamp := strftime_HMS (now ext (events w)) |} ]
             /\ is_HH_MM_SS (strftime_HMS (now ext (events w))) = true
             /\ ((forall c r, text = c :: r -> is_space c = false) ->
                 (forall r c, text = r ++ [c] -> is_space c = false) ->
                 strip text = text))).
Proof.
  split; intros [g u t]; cbn zeta; cbn [globals gui events].
  - unfold Main.send_message. run. rewrite strip_text_get_all.
    repeat split.
    + destruct (truthy (strip (Main.message_input u))); reflexivity.
    + intros Hb. now rewrite (strip_blank _ Hb).
    + rewrite (truthy_strip _ H). reflexivity.
    + apply strftime_HMS_well_formed.
    + apply strip_fixed.
  - unfold Try.send_message. run. rewrite strip_text_get_all.
    repeat split.
    + destruct (truthy (strip (Try.message_input u))); [|reflexivity].
      cbn [negb]. destruct (3 <? _); [|reflexivity].
      match goal with
      | |- context [Try.generate_dynamic_interview_suggestion ext ?W] =>
          destruct (suggestion_total ext W) as [r [added E]]; rewrite E
      end.
      destruct r as [[|c s]|]; reflexivity.
    + intros Hb. now rewrite (strip_blank _ Hb).
    + rewrite (truthy_strip _ H). cbn [negb]. destruct (3 <? _); [|reflexivity].
      match goal with
      | |- context [Try.generate_dynamic_interview_suggestion ext ?W] =>
          destruct (suggestion_total ext W) as [r [added E]]; rewrite E
      end.
      destruct r as [[|c s]|]; reflexivity.
    + apply strftime_HMS_well_formed.
    + apply strip_fixed.
Qed.

Lemma send_message_appends_witness :
  ~ blank (Main.message_input (gui (Main.typing [] (lit "Hello"))))
  /\ Main.conversation_messages
       (globals (snd (Main.send_message (demo_extern (inl []) true [])
                        (Main.typing [] (lit "Hello")))))
     = [ {| sender := lit "Recruiter"; message := lit "Hello";
            timestamp := lit "09:30:05" |} ]
  /\ is_HH_MM_SS (lit "09:30:05") = true.
Proof.
  assert (Hnb : ~ blank (Main.message_input (gui (Main.typing [] (lit "Hello"))))).
  { intros Hb. inversion Hb as [|c r Hc _]. discriminate Hc. }
  pose proof (proj1 (send_message_appends (demo_extern (inl []) true []))
                (Main.typing [] (lit "Hello"))) as H.
  cbn zeta in H. destruct H as [_ [_ H]].
  destruct (H Hnb) as [Hlog [Hclock _]].
  split; [exact Hnb|]. split.
  - rewrite Hlog. reflexivity.
  - exact Hclock.
Defined.

(** C5 as stated fails on a text with whitespace around it: the record
    holds the trimmed text, not the text that was typed. *)
Lemma send_message_trims_text :
  List.map message
    (Main.conversation_messages
       (globals (snd (Main.send_message (demo_extern (inl []) true [])
                        (Main.typing [] (lit " Hello"))))))
  = [lit "Hello"]
  /\ List.map message
       (Try.conversation_messages
          (globals (snd (Try.send_message (demo_extern (inl []) true [])
                           (Try.typing [] (lit " Hello"))))))
     = [lit "Hello"]
  /\ lit "Hello" <> lit " Hello".
Proof.
  repeat split. discriminate.
Qed.

(** ** Reports *)

Lemma split_blank_from_step (cur : str) (c d : char) (r : str) :
  split_blank_from cur (c :: d :: r)
  = if char_eqb c newline && char_eqb d newline
    then rev cur :: split_blank_from [] r
    else split_blank_from (c :: cur) (d :: r).
Proof. reflexivity. Qed.

Lemma split_blank_from_nonempty (cur s : str) : split_blank_from cur s <> [].
Proof.
  revert cur. remember (length s) as n eqn:Hn.
  revert s Hn. induction n as [n IH] using lt_wf_ind. intros s Hn cur.
  destruct s as [|c [|d r']]; try (simpl; discriminate).
  rewrite split_blank_from_step.
  destruct (char_eqb c newline && char_eqb d newline); [discriminate|].
  apply (IH (length (d :: r'))); [subst n; simpl; lia|reflexivity].
Qed.

Lemma join_cons (sep p q : str) (l : list str) :
  join sep (p :: q :: l) = p ++ sep ++ join sep (q :: l).
Proof. reflexivity. Qed.

(** Splitting at blank lines loses nothing: the pieces joined again by two
    newlines are the text. *)
Lemma join_split_blank_from (cur s : str) :
  join [newline; newline] (split_blank_from cur s) = rev cur ++ s.
Proof.
  revert cur. remember (length s) as n eqn:Hn.
  revert s Hn. induction n as [n IH] using lt_wf_ind. intros s Hn cur.
  destruct s as [|c [|d r']].
  - simpl. now rewrite app_nil_r.
  - simpl. reflexivity.
  - rewrite split_blank_from_step.
    destruct (char_eqb c newline && char_eqb d newline) eqn:Hcd.
    + apply andb_true_iff in Hcd. destruct Hcd as [Hc Hd].
      apply char_eqb_eq in Hc, Hd. subst c d.
      pose proof (split_blank_from_nonempty [] r') as Hne.
      pose proof (IH (length r') ltac:(subst n; simpl; lia) r' eq_refl []) as E.
      destruct (split_blank_from [] r') as [|p ps] eqn:Es; [congruence|].
      rewrite join_cons, E. reflexivity.
    + rewrite (IH (length (d :: r')) ltac:(subst n; simpl; lia) (d :: r') eq_refl).
      simpl. now rewrite <- app_assoc.
Qed.

Lemma join_split_blank (s : str) : join [newline; newline] (split_blank s) = s.
Proof. unfold split_blank. apply join_split_blank_from. Qed.




(** The same report through [save_analysis]: the dialog, the file, the
    success box. *)
Example report_written :
  events (snd (Main.save_analysis
                 (demo_extern (inl []) true (lit "report.txt"))
                 (lit "A" ++ [newline; newline] ++ lit "B")
                 (Main.loaded demo_messages)))
  = [ EvAskSaveAsFilename (lit "Save Analysis");
      EvOpenWrite (lit "report.txt");
      EvWriteText (lit "report.txt")
        (text_lines
           [ [];
             lit "CANDIDATE EVALUATION REPORT";
             lit "Date: 2024-05-17 09:30";
             lit "Messages analyzed: 5";
             lit "Initial resume match score: 10.0/10";
             [];
             lit "--- ANALYSIS RESULTS ---";
             [];
             lit "A";
             [];
             lit "B" ]);
      EvShowInfo (lit "Success") (lit "Analysis saved successfully!") ].
Proof. vm_compute. reflexivity. Qed.

(** A report that [reportlab] does not take: with a parser that refuses
    the less-than sign, the analysis ["a<b"] ends [save_pdf_report] with
    the exception and no document is built. *)
Example pdf_report_refused :
  let ext :=
    {| llm_invoke := fun _ _ => inl [];
       encode := fun _ => demo_encode;
       now := fun _ => demo_time;
       askyesno := fun _ => true;
       askfilename := fun _ => lit "report.pdf";
       pdf_pages := fun _ _ => None;
       file_text := fun _ _ => None;
       open_for_writing := fun _ _ => true;
       paragraph_ok := fun text => negb (existsb (char_eqb 60%N) text);
       pdf_build := fun _ _ _ => true |} in
  Try.save_report ext (lit "a<b") (Try.loaded demo_messages)
  = (Raised (MarkupError (lit "a<b")),
     {| globals := globals (Try.loaded demo_messages);
        gui := gui (Try.loaded demo_messages);
        events := [EvAskSaveAsFilename (lit "Save Report")] |}).
Proof. vm_compute. reflexivity. Qed.

(** ** The match score *)

Lemma SFmul_comm (prec emax : Z) (x y : spec_float) :
  SFmul prec emax x y = SFmul prec emax y x.
Proof.
  destruct x as [sx|sx| |sx mx ex], y as [sy|sy| |sy my ey]; simpl;
    rewrite ?(xorb_comm sx sy), ?(Pos.mul_comm mx my), ?(Z.add_comm ex ey);
    reflexivity.
Qed.

(** The product of two floats does not depend on their order. *)
Lemma float_mul_comm (x y : float) : (x * y)%float = (y * x)%float.
Proof. apply Prim2SF_inj. rewrite !mul_spec. apply SFmul_comm. Qed.

Lemma dot_from_comm (u v : list float) (acc : float) :
  fold_left (fun acc p => (acc + fst p * snd p)%float) (combine u v) acc
  = fold_left (fun acc p => (acc + fst p * snd p)%float) (combine v u) acc.
Proof.
  revert v acc. induction u as [|x u IH]; intros [|y v] acc; try reflexivity.
  simpl. rewrite (float_mul_comm x y). apply IH.
Qed.

Lemma dot_comm (u v : list float) : dot u v = dot v u.
Proof. apply dot_from_comm. Qed.

(** The similarity of the library is that of a cosine: the same for the
    two vectors in either order. *)
Lemma pytorch_cos_sim_comm (a b : list float) :
  pytorch_cos_sim a b = pytorch_cos_sim b a.
Proof. apply dot_comm. Qed.

(** C8.  With an embedding backend that gives the same vector for the same
    text, the match score of two texts is the score of the two texts
    swapped, whenever the two scores are computed. *)
Theorem match_score_symmetric (ext : Extern) (t t' : trace) (a b : str) :
  deterministic_encoder ext ->
  calculate_match_score ext t a b = calculate_match_score ext t' b a.
Proof.
  intros Hdet. unfold calculate_match_score. cbn zeta.
  rewrite (Hdet t t' a), (Hdet t t' b), pytorch_cos_sim_comm. reflexivity.
Qed.

Lemma match_score_symmetric_witness :
  deterministic_encoder (demo_extern (inl []) true [])
  /\ calculate_match_score (demo_extern (inl []) true []) []
       (lit "Data analyst") (lit "welder")
     = calculate_match_score (demo_extern (inl []) true [])
         [EvPrint []] (lit "welder") (lit "Data analyst").
Proof.
  assert (Hdet : deterministic_encoder (demo_extern (inl []) true []))
    by (intros t t' text; reflexivity).
  split; [exact Hdet|].
  apply (match_score_symmetric (demo_extern (inl []) true []) [] [EvPrint []]
           (lit "Data analyst") (lit "welder") Hdet).
Defined.

(** C3, the defect.  The score is ten times the similarity and nothing
    keeps it above zero: for two texts whose embeddings point in opposite
    directions the similarity is [-1], within the stated range, and the
    score is [-10], below the scale of 0 to 10 the source comment
    announces. *)
Lemma match_score_negative :
  let ext := demo_extern (inl []) true [] in
  let jd := lit "Data analyst" in
  let resume := lit "welder" in
  encode ext [] jd = [1%float; 0%float]
  /\ encode ext [] resume = [(-1)%float; 0%float]
  /\ pytorch_cos_sim (encode ext [] jd) (encode ext [] resume) = (-1)%float
  /\ (-1 <=? pytorch_cos_sim (encode ext [] jd) (encode ext [] resume))%float
     = true
  /\ (pytorch_cos_sim (encode ext [] jd) (encode ext [] resume) <=? 1)%float
     = true
  /\ calculate_match_score ext [] jd resume = (-10)%float
  /\ (calculate_match_score ext [] jd resume <? 0)%float = true
  /\ format_1f (calculate_match_score ext [] jd resume) = lit "-10.0".
Proof.
  cbn zeta. repeat split; vm_compute; reflexivity.
Qed.

(** Whatever the backend, a similarity of [-1] gives a score of [-10]. *)
Lemma match_score_of_opposites (ext : Extern) (t : trace) (jd resume : str) :
  pytorch_cos_sim (encode ext t jd) (encode ext t resume) = (-1)%float ->
  calculate_match_score ext t jd resume = (-10)%float.
Proof.
  intros H. unfold calculate_match_score. cbn zeta. rewrite H.
  vm_compute. reflexivity.
Qed.

(** ** The handlers, run *)

(** A fourth message in [try.py] with a model that answers: the reply is
    cleaned, stored as a suggestion and shown; the prompt quotes the last
    three messages only. *)
Example try_send_message_suggests :
  let ext := demo_extern (inl (lit " \*Which joins do you use?\* ")) true [] in
  let w := snd (Try.send_message ext
                  (Try.typing (firstn 3 demo_messages) (lit "Mostly pandas."))) in
  Try.interview_suggestions (globals w)
  = [lit "Which SQL dialects?"; lit "*Which joins do you use?*"]
  /\ Try.suggestion_text (gui w) = lit "*Which joins do you use?*"
  /\ Try.current_sender (gui w) = lit "Candidate"
  /\ llm_calls (events w)
     = [Try.suggestion_prompt (lit "Data analyst, SQL and Python")
          (text_lines
             [ lit "Candidate: I use window functions daily.";
               lit "Recruiter: And Python?";
               lit "Recruiter: Mostly pandas." ])].
Proof. cbn zeta. repeat split; vm_compute; reflexivity. Qed.

(** The same message with a model that fails: no suggestion is stored,
    the suggestion label is emptied, the message is in the conversation
    and the failure is printed. *)
Example try_send_message_degrades :
  let ext := demo_extern (inr (lit "rate limit")) true [] in
  let w := snd (Try.send_message ext
                  (Try.typing (firstn 3 demo_messages) (lit "Mostly pandas."))) in
  fst (Try.send_message ext
         (Try.typing (firstn 3 demo_messages) (lit "Mostly pandas."))) = Ok tt
  /\ Try.interview_suggestions (globals w) = [lit "Which SQL dialects?"]
  /\ Try.suggestion_text (gui w) = []
  /\ length (Try.conversation_messages (globals w)) = 4
  /\ last (events w) (EvPrint [])
     = EvPrint (lit "Error generating interview suggestion: rate limit").
Proof. cbn zeta. repeat split; vm_compute; reflexivity. Qed.

(** With three messages and both documents loaded the analysis of
    [main.py] goes through: one call, and one results window showing the
    cleaned reply. *)
Example main_analysis_runs :
  let ext := demo_extern (inl (lit " \*\*PROCEED TO INTERVIEW\*\* ")) true [] in
  let w := snd (Main.analyze_conversation ext
                  (Main.loaded (firstn 3 demo_messages))) in
  length (llm_calls (events w)) = 1
  /\ Main.results_windows (gui w) = [lit "**PROCEED TO INTERVIEW**"]
  /\ Main.status_label (gui w) = lit "Analysis complete".
Proof. cbn zeta. repeat split; vm_compute; reflexivity. Qed.

(** A failing model during the analysis of [main.py] raises out of the
    handler after the one call; the conversation and the documents are
    untouched. *)
Example main_analysis_failure :
  let ext := demo_extern (inr (lit "timeout")) true [] in
  let out := Main.analyze_conversation ext (Main.loaded (firstn 3 demo_messages)) in
  fst out = Raised (LlmError (lit "timeout"))
  /\ globals (snd out) = globals (Main.loaded (firstn 3 demo_messages))
  /\ length (llm_calls (events (snd out))) = 1
  /\ Main.results_windows (gui (snd out)) = [].
Proof. cbn zeta. repeat split; vm_compute; reflexivity. Qed.

(** The PDF report of ["A\n\n*B*"]: two paragraphs, asterisks removed. *)
Example pdf_report_paragraphs :
  Try.report_story demo_time
    (lit "A" ++ [newline; newline] ++ lit "*B*")
  = [ Paragraph (lit "Candidate Evaluation Report") (lit "Title");
      Spacer 1 12;
      Paragraph (lit "Date: 2024-05-17 09:30") (lit "Normal");
      Spacer 1 12;
      Paragraph (lit "A") (lit "Normal"); Spacer 1 6;
      Paragraph (lit "B") (lit "Normal"); Spacer 1 6 ].
Proof. reflexivity. Qed.

(** Loading a PDF job description in [main.py] stores the extracted text
    and, the resume being loaded, shows the match score. *)
Example main_load_job_description_runs :
  let ext := demo_extern (inl []) true (lit "/home/hr/jd.pdf") in
  let w := snd (Main.load_job_description ext (Main.loaded [])) in
  Main.job_description (globals w)
  = lit "Senior data" ++ [newline] ++ lit "analyst"
  /\ Main.status_label (gui w) = lit "Initial Resume Match: 10.0/10".
Proof. cbn zeta. repeat split; vm_compute; reflexivity. Qed.

(** * Further properties of the two programs *)

(** ** Runs *)

Ltac run_all :=
  cbv beta iota zeta delta
    [bind ret raise try_except get_globals get_gui get_trace set_globals
     set_gui emit invoke ask_yes_no ask_open_filename ask_save_as_filename
     clock globals gui events fst snd
     load_document extract_text_from_pdf read_text
     Main.set_conversation_messages Main.set_job_description
     Main.set_candidate_resume Main.set_status_label
     Main.analyze_candidate_fit Main.update_status Main.load_job_description
     Main.load_candidate_resume Main.send_message Main.show_analysis_results
     Main.analyze_conversation Main.write_analysis_file Main.save_analysis
     Main.clear_chat Main.prompt_load_files
     MainApp.perform MainApp.step MainApp.set_message_input
     MainApp.set_current_sender
     Try.set_conversation_messages Try.set_job_description
     Try.set_candidate_resumes Try.set_interview_suggestions
     Try.set_status_label Try.set_suggestion_text
     Try.generate_dynamic_interview_suggestion
     Try.generate_interview_questions Try.analyze_candidate_fit
     Try.save_pdf_report Try.update_status Try.load_job_description
     Try.load_candidate_resume Try.send_message Try.show_analysis_results
     Try.analyze_conversation Try.save_report Try.clear_chat
     Try.prompt_load_files
     TryApp.perform TryApp.step TryApp.set_message_input
     TryApp.set_current_sender].

(** The same without entering the handlers that load files. *)
Ltac run_seq :=
  cbv beta iota zeta delta
    [bind ret raise get_globals get_gui get_trace set_globals
     set_gui emit ask_yes_no globals gui events
     Main.prompt_load_files MainApp.perform MainApp.step
     Try.prompt_load_files TryApp.perform TryApp.step].

Ltac project :=
  cbn [globals gui events sender message timestamp
       Main.conversation_messages Main.job_description Main.candidate_resume
       Main.status_label Main.chat_display Main.message_input
       Main.current_sender Main.results_windows
       Try.conversation_messages Try.job_description Try.candidate_resumes
       Try.interview_suggestions
       Try.status_label Try.chat_display Try.message_input
       Try.current_sender Try.suggestion_text Try.resume_listbox
       Try.results_windows].

(** Case analysis on the innermost undecided test of a handler. *)
Ltac split_case :=
  match goal with
  | |- context [match ?x with _ => _ end] =>
      lazymatch x with
      | context [match _ with _ => _ end] => fail
      | _ => let E := fresh "E" in destruct x eqn:E
      end
  end.

Ltac split_cases := project; repeat (split_case; run_all; project).

(** The tests a handler made, as facts. *)
Lemma truthy_true (s : str) : truthy s = true -> s <> [].
Proof. destruct s; [discriminate|discriminate]. Qed.

Lemma truthy_false (s : str) : truthy s = false -> s = [].
Proof. destruct s; [reflexivity|discriminate]. Qed.

Ltac tests :=
  repeat match goal with
         | H : _ || _ = false |- _ => apply orb_false_iff in H; destruct H
         | H : _ && _ = true |- _ => apply andb_true_iff in H; destruct H
         | H : negb _ = false |- _ => apply negb_false_iff in H
         | H : negb _ = true |- _ => apply negb_true_iff in H
         | H : (_ <? _) = true |- _ => apply Nat.ltb_lt in H
         | H : (_ <? _) = false |- _ => apply Nat.ltb_ge in H
         | H : truthy _ = true |- _ => apply truthy_true in H
         | H : truthy _ = false |- _ => apply truthy_false in H
         | H : _ || _ = true |- _ => apply orb_true_iff in H; destruct H
         end;
  rewrite ?orb_true_r, ?orb_false_r in *; try discriminate;
  rewrite ?length_app in *; cbn [length] in *;
  rewrite ?strip_text_get_all in *.

Lemma render_log_app (l l' : list Message) :
  render_log (l ++ l') = render_log l ++ render_log l'.
Proof. unfold render_log. apply flat_map_app. Qed.

Lemma main_run_snoc (ext : Extern) (actions : list MainApp.action)
    (a : MainApp.action) (w : Main.state) :
  MainApp.run ext (actions ++ [a]) w
  = MainApp.step ext (MainApp.run ext actions w) a.
Proof. unfold MainApp.run. now rewrite fold_left_app. Qed.

Lemma try_run_snoc (ext : Extern) (actions : list TryApp.action)
    (a : TryApp.action) (w : Try.state) :
  TryApp.run ext (actions ++ [a]) w
  = TryApp.step ext (TryApp.run ext actions w) a.
Proof. unfold TryApp.run. now rewrite fold_left_app. Qed.

(** An invariant of the steps holds after every run. *)
Lemma main_run_invariant (ext : Extern) (P : Main.state -> Prop) :
  (forall w a, P w -> P (MainApp.step ext w a)) ->
  forall actions w, P w -> P (MainApp.run ext actions w).
Proof.
  intros Hstep actions. induction actions as [|a actions IH]; intros w Hw.
  - exact Hw.
  - simpl. apply IH, Hstep, Hw.
Qed.

Lemma try_run_invariant (ext : Extern) (P : Try.state -> Prop) :
  (forall w a, P w -> P (TryApp.step ext w a)) ->
  forall actions w, P w -> P (TryApp.run ext actions w).
Proof.
  intros Hstep actions. induction actions as [|a actions IH]; intros w Hw.
  - exact Hw.
  - simpl. apply IH, Hstep, Hw.
Qed.


(** ** The effect of one action *)

Ltac norm_trace :=
  unfold llm_calls, files_written;
  rewrite ?flat_map_app; cbn [flat_map app]; rewrite ?app_nil_r;
  rewrite <- ?app_assoc; cbn [app].

(** Side conditions of the effect of an action, read off the tests the
    handler made. *)
Ltac side :=
  unfold MainApp.ready, TryApp.documents; project; tests;
  first
    [ match goal with
      | H : cleanup ?c = _ :: _ |- cleanup ?c <> [] => rewrite H; discriminate
      end
    | match goal with
      | H : nth_error _ _ = Some (_, ?a) |- In ?a (List.map snd _) =>
          apply nth_error_In in H; apply (in_map snd) in H; exact H
      end
    | match goal with
      | H : nth_error _ _ = Some ?a |- In ?a _ =>
          apply nth_error_In in H; exact H
      end
    | solve [intuition (try congruence; try lia)] ].

Ltac main_view :=
  unfold MainApp.view, MainApp.sent_record, MainApp.analysis_prompt,
    render_message;
  project; norm_trace; rewrite ?strip_text_get_all; reflexivity.

Lemma main_load_job_description_view (ext : Extern) (w : Main.state) :
  MainApp.view (snd (Main.load_job_description ext w)) = MainApp.view w.
Proof. destruct w as [g u t]. run_all; split_cases; main_view. Qed.

Lemma main_load_candidate_resume_view (ext : Extern) (w : Main.state) :
  MainApp.view (snd (Main.load_candidate_resume ext w)) = MainApp.view w.
Proof. destruct w as [g u t]. run_all; split_cases; main_view. Qed.

Lemma main_startup_view (ext : Extern) (w : Main.state) :
  MainApp.view (snd (Main.prompt_load_files ext w)) = MainApp.view w.
Proof.
  destruct w as [g u t]. run_seq. destruct (askyesno ext t); [|cbn [snd]; main_view].
  match goal with
  | |- context [Main.load_job_description ext ?W] =>
      pose proof (main_load_job_description_view ext W) as Hjd;
      destruct (Main.load_job_description ext W) as [[[]|e] w1]
  end; cbn [snd] in Hjd |- *.
  - rewrite main_load_candidate_resume_view, Hjd. main_view.
  - rewrite Hjd. main_view.
Qed.

Lemma main_step_effect (ext : Extern) (w : Main.state) (a : MainApp.action) :
  MainApp.effect ext w (MainApp.step ext w a).
Proof.
  destruct a;
    try (apply MainApp.Silent;
         first [ apply main_startup_view
               | apply main_load_job_description_view
               | apply main_load_candidate_resume_view ]).
  all: destruct w as [g u t]; run_all; split_cases.
  all: first
    [ apply MainApp.Silent; main_view
    | match goal with
      | |- context [role_name ?r] =>
          apply MainApp.Selected with (r := r); main_view
      end
    | apply MainApp.Cleared; main_view
    | apply MainApp.Sent; [side|main_view]
    | apply MainApp.Unanswered; [side|main_view]
    | match goal with
      | E : llm_invoke _ _ _ = inl ?c |- _ =>
          apply MainApp.Answered with (content := c); [side|main_view]
      end
    | match goal with
      | |- context [EvWriteText ?p (Main.report_metadata ?d _ ?x ++ ?a)] =>
          apply MainApp.Saved
            with (path := p) (analysis := a) (date := d) (score := x);
          [side|side|main_view]
      end ].
Qed.

Ltac try_view :=
  unfold TryApp.view, TryApp.sent_record, TryApp.analysis_prompt,
    TryApp.interview_prompt, TryApp.suggestion_prompt_for, TryApp.shown,
    render_message;
  project; unfold pdfs_built; norm_trace; rewrite ?strip_text_get_all;
  repeat match goal with
         | H : Try.candidate_resumes _ = _ |- _ => rewrite H
         end;
  reflexivity.

Ltac try_effect :=
  try match goal with
      | H : _ || true = false |- _ => rewrite orb_true_r in H; discriminate H
      end;
  first
    [ apply TryApp.Silent; try_view
    | match goal with
      | |- context [role_name ?r] => apply TryApp.Selected with (r := r); try_view
      end
    | apply TryApp.Cleared; try_view
    | apply TryApp.Sent_early; [side|side|try_view]
    | apply TryApp.Sent_unready; [side|side|side|try_view]
    | apply TryApp.Sent_unanswered; [side|side|side|try_view]
    | match goal with
      | H : cleanup ?c = _ :: _ |- _ =>
          apply TryApp.Sent_suggested with (content := c);
          [side|side|side|side|rewrite H; try_view]
      end
    | apply TryApp.Unanswered; [side|side|try_view]
    | apply TryApp.Half_answered; [side|side|try_view]
    | match goal with
      | H1 : llm_invoke _ _ (Try.fit_prompt _ _ _) = inl ?a,
        H2 : llm_invoke _ _ (Try.questions_prompt _ _) = inl ?q |- _ =>
          apply TryApp.Answered with (analysis := a) (questions := q);
          [side|side|try_view]
      end
    | match goal with
      | |- context [EvBuildPdf ?p (Try.report_story ?d ?a)] =>
          apply TryApp.Saved with (path := p) (analysis := a) (date := d);
          [side|side|try_view]
      end ].

Lemma try_load_job_description_view (ext : Extern) (w : Try.state) :
  TryApp.view (snd (Try.load_job_description ext w)) = TryApp.view w.
Proof. destruct w as [g u t]. run_all; split_cases; try_view. Qed.

Lemma try_load_candidate_resume_view (ext : Extern) (w : Try.state) :
  TryApp.view (snd (Try.load_candidate_resume ext w)) = TryApp.view w
  \/ exists path text : str,
       path <> []
       /\ TryApp.view (snd (Try.load_candidate_resume ext w))
          = (Try.conversation_messages (globals w), Try.chat_display (gui w),
             Try.current_sender (gui w),
             Try.candidate_resumes (globals w) ++ [text],
             Try.resume_listbox (gui w) ++ [Try.basename path],
             Try.interview_suggestions (globals w),
             Try.suggestion_text (gui w), Try.results_windows (gui w),
             llm_calls (events w), pdfs_built (events w)).
Proof.
  destruct w as [g u t]. run_all; split_cases.
  all: try match goal with
           | H : _ ++ [_] = [] |- _ =>
               symmetry in H; apply app_cons_not_nil in H; destruct H
           end.
  all: try match goal with
           | H : Try.candidate_resumes _ ++ [_] = _ :: _ |- _ => rewrite <- H
           end.
  all: first
    [ left; try_view
    | right;
      match goal with
      | |- context [Try.Build_Globals _ _ (_ ++ [?x]) _] =>
          exists (askfilename ext t), x; split; [side|try_view]
      end ].
Qed.

Lemma try_startup_view (ext : Extern) (w : Try.state) :
  TryApp.view (snd (Try.prompt_load_files ext w)) = TryApp.view w
  \/ exists path text : str,
       path <> []
       /\ TryApp.view (snd (Try.prompt_load_files ext w))
          = (Try.conversation_messages (globals w), Try.chat_display (gui w),
             Try.current_sender (gui w),
             Try.candidate_resumes (globals w) ++ [text],
             Try.resume_listbox (gui w) ++ [Try.basename path],
             Try.interview_suggestions (globals w),
             Try.suggestion_text (gui w), Try.results_windows (gui w),
             llm_calls (events w), pdfs_built (events w)).
Proof.
  destruct w as [g u t]. run_seq.
  destruct (askyesno ext t); [|left; cbn [snd]; try_view].
  match goal with
  | |- context [Try.load_job_description ext ?W] =>
      pose proof (try_load_job_description_view ext W) as Hjd;
      destruct (Try.load_job_description ext W) as [[[]|e] w1]
  end; cbn [snd] in Hjd |- *.
  - assert (Hw : TryApp.view w1
                 = TryApp.view {| globals := g; gui := u; events := t |})
      by (rewrite Hjd; try_view).
    destruct (try_load_candidate_resume_view ext w1)
      as [H|(path & text & Hpath & H)].
    + left. now rewrite H.
    + right. exists path, text. split; [exact Hpath|].
      rewrite H. unfold TryApp.view in Hw. cbn [globals gui events] in Hw |- *.
      congruence.
  - left. rewrite Hjd. try_view.
Qed.

Lemma try_step_effect (ext : Extern) (w : Try.state) (a : TryApp.action) :
  TryApp.effect ext w (TryApp.step ext w a).
Proof.
  destruct a.
  9: { destruct (try_startup_view ext w) as [H|(path & text & Hpath & H)].
       - apply TryApp.Silent. exact H.
       - apply TryApp.Resume_loaded with (path := path) (text := text);
           assumption. }
  7: { destruct (try_load_candidate_resume_view ext w)
         as [H|(path & text & Hpath & H)].
       - apply TryApp.Silent. exact H.
       - apply TryApp.Resume_loaded with (path := path) (text := text);
           assumption. }
  6: apply TryApp.Silent; apply try_load_job_description_view.
  all: destruct w as [g u t]; run_all; split_cases; project.
  all: try_effect.
Qed.

(** ** Invariants of the runs of [main.py] *)

(** The equations of a case of the effect of a step, as rewrite rules. *)
Ltac main_eqs H :=
  unfold MainApp.view in H;
  injection H as Hconv Hdisplay Hsender Hwindows Hcalls Hfiles.

Ltac main_cases ext w a :=
  destruct (main_step_effect ext w a)
    as [H|r H|Hne H|H|Hready H|content Hready H|path analysis date score Hpath Hin H];
  main_eqs H.

Lemma record_ok_sender (m : Message) :
  record_ok m -> sender m = lit "Recruiter" \/ sender m = lit "Candidate".
Proof. intros H. apply H. Qed.

Lemma next_sender_cases (s : str) :
  next_sender s = lit "Recruiter" \/ next_sender s = lit "Candidate".
Proof. unfold next_sender. destruct (str_eqb s _); [right|left]; reflexivity. Qed.

Lemma role_name_cases (r : role) :
  role_name r = lit "Recruiter" \/ role_name r = lit "Candidate".
Proof. destruct r; [left|right]; reflexivity. Qed.

Lemma cleanup_stripped (content : str) : strip (cleanup content) = cleanup content.
Proof. unfold cleanup. apply strip_idem. Qed.

(** X1.  In every state [main.py] reaches from start-up, whatever the user
    does and whatever the dialogs, the file system and the model answer,
    the chat display holds exactly the rendering of the stored
    conversation: for each record, in order, the timestamp in brackets, the
    sender, a colon, the message and a blank line. *)
Theorem main_display_shows_conversation (ext : Extern)
    (actions : list MainApp.action) :
  Main.chat_display (gui (MainApp.run ext actions Main.initial))
  = render_log
      (Main.conversation_messages (globals (MainApp.run ext actions Main.initial))).
Proof.
  apply (main_run_invariant ext
           (fun w => Main.chat_display (gui w)
                     = render_log (Main.conversation_messages (globals w))));
    [|reflexivity].
  intros w a IH. main_cases ext w a; try congruence.
  - rewrite Hdisplay, Hconv, render_log_app, IH. cbn [render_log flat_map].
    now rewrite app_nil_r.
  - now rewrite Hdisplay, Hconv.
Qed.

(** X2.  In every state [main.py] reaches from start-up, each stored record
    is as [send_message] makes them: its sender is "Recruiter" or
    "Candidate", its message is not empty and has no whitespace at either
    end, and its timestamp is a well-formed [HH:MM:SS]; the selected sender
    is one of the two names as well. *)
Theorem main_records_well_formed (ext : Extern)
    (actions : list MainApp.action) :
  Forall record_ok
    (Main.conversation_messages (globals (MainApp.run ext actions Main.initial)))
  /\ (Main.current_sender (gui (MainApp.run ext actions Main.initial))
      = lit "Recruiter"
      \/ Main.current_sender (gui (MainApp.run ext actions Main.initial))
         = lit "Candidate").
Proof.
  apply (main_run_invariant ext
           (fun w => Forall record_ok (Main.conversation_messages (globals w))
                     /\ (Main.current_sender (gui w) = lit "Recruiter"
                         \/ Main.current_sender (gui w) = lit "Candidate")));
    [|split; [constructor|left; reflexivity]].
  intros w a [IHc IHs]. main_cases ext w a; rewrite Hconv, Hsender;
    try (split; assumption).
  - split; [assumption|apply role_name_cases].
  - split; [|apply next_sender_cases].
    apply Forall_app. split; [assumption|]. constructor; [|constructor].
    unfold record_ok, MainApp.sent_record. cbn [sender message timestamp].
    repeat split; [assumption|assumption|apply strip_idem
                  |apply strftime_HMS_well_formed].
  - split; [constructor|left; reflexivity].
Qed.

(** X4.  In every run of [main.py] from start-up, a results window is
    opened only for an answer of the model: there are at most as many
    windows as calls of the model, and the text of each has no whitespace
    at either end. *)
Theorem main_windows_answered (ext : Extern) (actions : list MainApp.action) :
  length (Main.results_windows (gui (MainApp.run ext actions Main.initial)))
  <= length (llm_calls (events (MainApp.run ext actions Main.initial)))
  /\ Forall (fun analysis => strip analysis = analysis)
       (Main.results_windows (gui (MainApp.run ext actions Main.initial))).
Proof.
  apply (main_run_invariant ext
           (fun w => length (Main.results_windows (gui w))
                     <= length (llm_calls (events w))
                     /\ Forall (fun analysis => strip analysis = analysis)
                          (Main.results_windows (gui w))));
    [|split; [apply Nat.le_refl|constructor]].
  intros w a [IHn IHs]. main_cases ext w a; rewrite Hwindows, Hcalls;
    try (split; assumption).
  - split; [rewrite length_app; lia|assumption].
  - split; [rewrite !length_app; cbn [length]; lia|].
    apply Forall_app. split; [assumption|].
    constructor; [apply cleanup_stripped|constructor].
Qed.


(** ** Invariants of the runs of [try.py] *)

Ltac try_eqs H :=
  unfold TryApp.view in H;
  injection H as Hconv Hdisplay Hsender Hresumes Hlistbox Hsuggestions
                 Hlabel Hwindows Hcalls Hpdfs.

Ltac try_cases ext w a :=
  destruct (try_step_effect ext w a)
    as [H|r H|Hne Hlen H|Hne Hlen Hdocs H|Hne Hlen Hdocs H
       |content Hne Hlen Hdocs Hcontent H|H|path text Hpath H
       |Hdocs Hlen H|Hdocs Hlen H|analysis questions Hdocs Hlen H
       |path analysis date Hpath Hin H];
  try_eqs H.

(** X6.  In every state [try.py] reaches from start-up, whatever the user
    does and whatever the dialogs, the file system and the model answer,
    the chat display holds exactly the rendering of the stored
    conversation: for each record, in order, the timestamp in brackets, the
    sender, a colon, the message and a blank line. *)
Theorem try_display_shows_conversation (ext : Extern)
    (actions : list TryApp.action) :
  Try.chat_display (gui (TryApp.run ext actions Try.initial))
  = render_log
      (Try.conversation_messages (globals (TryApp.run ext actions Try.initial))).
Proof.
  apply (try_run_invariant ext
           (fun w => Try.chat_display (gui w)
                     = render_log (Try.conversation_messages (globals w))));
    [|reflexivity].
  intros w a IH. try_cases ext w a; rewrite Hdisplay, Hconv;
    try assumption; try reflexivity;
    rewrite render_log_app, IH; cbn [render_log flat_map];
    now rewrite app_nil_r.
Qed.

Lemma try_sent_record_ok (ext : Extern) (w : Try.state) :
  Try.current_sender (gui w) = lit "Recruiter"
  \/ Try.current_sender (gui w) = lit "Candidate" ->
  strip (Try.message_input (gui w)) <> [] ->
  record_ok (TryApp.sent_record ext w).
Proof.
  intros Hs Hne. unfold record_ok, TryApp.sent_record.
  cbn [sender message timestamp].
  repeat split; [assumption|assumption|apply strip_idem
                |apply strftime_HMS_well_formed].
Qed.

(** X7.  In every state [try.py] reaches from start-up, each stored record
    is as [send_message] makes them: its sender is "Recruiter" or
    "Candidate", its message is not empty and has no whitespace at either
    end, and its timestamp is a well-formed [HH:MM:SS]; the selected sender
    is one of the two names as well. *)
Theorem try_records_well_formed (ext : Extern)
    (actions : list TryApp.action) :
  Forall record_ok
    (Try.conversation_messages (globals (TryApp.run ext actions Try.initial)))
  /\ (Try.current_sender (gui (TryApp.run ext actions Try.initial))
      = lit "Recruiter"
      \/ Try.current_sender (gui (TryApp.run ext actions Try.initial))
         = lit "Candidate").
Proof.
  apply (try_run_invariant ext
           (fun w => Forall record_ok (Try.conversation_messages (globals w))
                     /\ (Try.current_sender (gui w) = lit "Recruiter"
                         \/ Try.current_sender (gui w) = lit "Candidate")));
    [|split; [constructor|left; reflexivity]].
  intros w a [IHc IHs]. try_cases ext w a; rewrite Hconv, Hsender;
    try (split; assumption);
    try (split; [|apply next_sender_cases];
         apply Forall_app; split; [assumption|];
         constructor; [apply try_sent_record_ok; assumption|constructor]).
  - split; [assumption|apply role_name_cases].
  - split; [constructor|left; reflexivity].
Qed.

Lemma basename_no_slash (path : str) : ~ In 47%N (Try.basename path).
Proof.
  unfold Try.basename. rewrite <- in_rev. generalize (rev path) as s.
  induction s as [|c r IH]; [intros []|].
  destruct (char_eqb c 47%N) eqn:E; [intros []|].
  intros [Hc|Hin]; [|exact (IH Hin)].
  apply char_eqb_neq in E. congruence.
Qed.

(** X9.  In every state [try.py] reaches from start-up, the list box of
    resumes has one entry for each loaded resume, and no entry contains a
    slash: it shows file names, not paths. *)
Theorem try_listbox_matches_resumes (ext : Extern)
    (actions : list TryApp.action) :
  length (Try.resume_listbox (gui (TryApp.run ext actions Try.initial)))
  = length (Try.candidate_resumes (globals (TryApp.run ext actions Try.initial)))
  /\ Forall (fun name => ~ In 47%N name)
       (Try.resume_listbox (gui (TryApp.run ext actions Try.initial))).
Proof.
  apply (try_run_invariant ext
           (fun w => length (Try.resume_listbox (gui w))
                     = length (Try.candidate_resumes (globals w))
                     /\ Forall (fun name => ~ In 47%N name)
                          (Try.resume_listbox (gui w))));
    [|split; [reflexivity|constructor]].
  intros w a [IHn IHs]. try_cases ext w a; rewrite Hlistbox, Hresumes;
    try (split; assumption).
  - split; [reflexivity|constructor].
  - split; [rewrite !length_app; cbn [length]; lia|].
    apply Forall_app. split; [assumption|].
    constructor; [apply basename_no_slash|constructor].
Qed.

(** X10.  In every state [try.py] reaches from start-up, each stored
    suggestion is a non-empty text without whitespace at either end, there
    are at most as many suggestions as calls of the model, and the
    suggestion label is either empty or shows the suggestion stored
    last. *)
Theorem try_suggestions_shown (ext : Extern) (actions : list TryApp.action) :
  Forall (fun s => s <> [] /\ strip s = s)
    (Try.interview_suggestions (globals (TryApp.run ext actions Try.initial)))
  /\ length (Try.interview_suggestions
               (globals (TryApp.run ext actions Try.initial)))
     <= length (llm_calls (events (TryApp.run ext actions Try.initial)))
  /\ (Try.suggestion_text (gui (TryApp.run ext actions Try.initial)) = []
      \/ exists earlier,
           Try.interview_suggestions
             (globals (TryApp.run ext actions Try.initial))
           = earlier
             ++ [Try.suggestion_text
                   (gui (TryApp.run ext actions Try.initial))]).
Proof.
  apply (try_run_invariant ext
           (fun w =>
              Forall (fun s => s <> [] /\ strip s = s)
                (Try.interview_suggestions (globals w))
              /\ length (Try.interview_suggestions (globals w))
                 <= length (llm_calls (events w))
              /\ (Try.suggestion_text (gui w) = []
                  \/ exists earlier,
                       Try.interview_suggestions (globals w)
                       = earlier ++ [Try.suggestion_text (gui w)])));
    [|split; [constructor|split; [apply Nat.le_refl|left; reflexivity]]].
  intros w a (IHs & IHn & IHl).
  try_cases ext w a; rewrite Hsuggestions, Hlabel, Hcalls;
    try (split; [assumption|split; assumption]);
    try (split; [assumption|split; [|left; reflexivity]];
         rewrite ?length_app; cbn [length]; lia).
  - split; [|split].
    + apply Forall_app. split; [assumption|].
      constructor; [split; [assumption|apply cleanup_stripped]|constructor].
    + rewrite !length_app. cbn [length]. lia.
    + right. eexists. reflexivity.
  - split; [constructor|split; [cbn [length]; lia|left; reflexivity]].
  - split; [assumption|split; [rewrite length_app; lia|assumption]].
  - split; [assumption|split; [rewrite length_app; lia|assumption]].
  - split; [assumption|split; [rewrite length_app; lia|assumption]].
Qed.

(** ** Asterisks and blank lines *)

Lemma replace_asterisks_clean (s : str) : ~ In asterisk (replace_asterisks s).
Proof.
  unfold replace_asterisks. intros H. apply filter_In in H.
  destruct H as [_ H]. apply negb_true_iff, char_eqb_neq in H. congruence.
Qed.

Lemma in_join (sep : str) (parts : list str) (p : str) (c : char) :
  In p parts -> In c p -> In c (join sep parts).
Proof.
  induction parts as [|q [|q' ps] IH]; intros Hp Hc.
  - destruct Hp.
  - destruct Hp as [->|[]]. exact Hc.
  - rewrite join_cons. apply in_or_app. destruct Hp as [->|Hp].
    + left. exact Hc.
    + right. apply in_or_app. right. exact (IH Hp Hc).
Qed.

(** The characters of a piece of [split] are characters of the text. *)
Lemma in_split_blank (s p : str) (c : char) :
  In p (split_blank s) -> In c p -> In c s.
Proof.
  intros Hp Hc. rewrite <- (join_split_blank s).
  exact (in_join _ _ _ _ Hp Hc).
Qed.

Lemma has_blank_line_prefix (l l' : str) :
  has_blank_line (l ++ l') = false -> has_blank_line l = false.
Proof.
  induction l as [|c [|d r] IH]; intros H; try reflexivity.
  cbn [app has_blank_line] in H |- *.
  apply orb_false_iff in H. destruct H as [Hcd H].
  rewrite Hcd. exact (IH H).
Qed.

Lemma has_blank_line_snoc (l : str) (c d : char) :
  has_blank_line (l ++ [c]) = false ->
  char_eqb c newline && char_eqb d newline = false ->
  has_blank_line ((l ++ [c]) ++ [d]) = false.
Proof.
  intros H Hcd. induction l as [|x [|y r] IH].
  - cbn [app has_blank_line]. now rewrite Hcd.
  - cbn [app has_blank_line] in H |- *.
    apply orb_false_iff in H. destruct H as [Hx _].
    now rewrite Hx, Hcd.
  - cbn [app has_blank_line] in H |- *.
    apply orb_false_iff in H. destruct H as [Hx H].
    rewrite Hx. exact (IH H).
Qed.

Lemma split_blank_from_no_blank_line (cur s : str) :
  has_blank_line (rev cur ++ firstn 1 s) = false ->
  Forall (fun p => has_blank_line p = false) (split_blank_from cur s).
Proof.
  revert cur. remember (length s) as n eqn:Hn.
  revert s Hn. induction n as [n IH] using lt_wf_ind. intros s Hn cur H.
  destruct s as [|c [|d r']].
  - cbn [firstn] in H. rewrite app_nil_r in H.
    constructor; [exact H|constructor].
  - constructor; [exact H|constructor].
  - rewrite split_blank_from_step. cbn [firstn] in H.
    destruct (char_eqb c newline && char_eqb d newline) eqn:Hcd.
    + constructor; [exact (has_blank_line_prefix _ _ H)|].
      apply (IH (length r')); [subst n; simpl; lia|reflexivity|].
      destruct r' as [|e r']; reflexivity.
    + apply (IH (length (d :: r'))); [subst n; simpl; lia|reflexivity|].
      cbn [rev firstn]. exact (has_blank_line_snoc _ _ _ H Hcd).
Qed.

(** No piece of [split('\n\n')] contains a blank line. *)
Lemma split_blank_no_blank_line (s : str) :
  Forall (fun p => has_blank_line p = false) (split_blank s).
Proof.
  unfold split_blank. apply split_blank_from_no_blank_line.
  destruct s; reflexivity.
Qed.

Lemma no_newline_no_blank_line (s : str) :
  ~ In newline s -> has_blank_line s = false.
Proof.
  induction s as [|c [|d r] IH]; intros H; try reflexivity.
  cbn [has_blank_line]. apply orb_false_iff. split.
  - apply andb_false_iff. left. apply char_eqb_neq. intros ->.
    apply H. left. reflexivity.
  - apply IH. intros Hin. apply H. right. exact Hin.
Qed.

(** ** Digits *)

Lemma string_of_uint_digits (d : Decimal.uint) :
  Forall (fun c => is_digit c = true) (lit (NilZero.string_of_uint d)).
Proof.
  assert (H : Forall (fun c => is_digit c = true)
                (lit (NilEmpty.string_of_uint d))).
  { induction d; cbn; constructor; try reflexivity; assumption. }
  destruct d; try exact H. repeat constructor.
Qed.

Lemma zero_pad_digits (width n : nat) :
  Forall (fun c => is_digit c = true) (zero_pad width n).
Proof.
  unfold zero_pad, str_of_nat. apply Forall_app. split.
  - apply Forall_forall. intros c Hc. apply repeat_spec in Hc. now subst c.
  - apply string_of_uint_digits.
Qed.

(** Neither an asterisk nor a newline is printed in a date. *)
Lemma strftime_Ymd_HM_plain (t : datetime) (c : char) :
  In c (strftime_Ymd_HM t) -> c <> asterisk /\ c <> newline.
Proof.
  unfold strftime_Ymd_HM. intros H.
  assert (Hd : forall w n, In c (zero_pad w n) ->
                           c <> asterisk /\ c <> newline).
  { intros w n Hc.
    pose proof (proj1 (Forall_forall _ _) (zero_pad_digits w n) c Hc) as D.
    split; intros ->; discriminate D. }
  repeat (apply in_app_or in H; destruct H as [H|H];
          [first [ exact (Hd _ _ H)
                 | destruct H as [<-|[]]; split; discriminate ]|]).
  exact (Hd _ _ H).
Qed.

Lemma report_story_texts (t : datetime) (analysis : str) :
  paragraph_texts (Try.report_story t analysis)
  = lit "Candidate Evaluation Report"
    :: (lit "Date: " ++ strftime_Ymd_HM t)
    :: split_blank (replace_asterisks analysis).
Proof.
  unfold Try.report_story, paragraph_texts.
  cbn [app flat_map]. do 2 f_equal.
  induction (split_blank (replace_asterisks analysis)) as [|p ps IH];
    [reflexivity|].
  cbn [flat_map app]. now rewrite IH.
Qed.

(** X13.  The story [save_pdf_report] of [try.py] builds has, after the
    title and the date, one paragraph for each piece of the analysis
    between blank lines once the asterisks are removed; no paragraph of the
    report contains an asterisk, and none contains a blank line. *)
Theorem report_story_paragraphs (t : datetime) (analysis : str) :
  paragraph_texts (Try.report_story t analysis)
  = lit "Candidate Evaluation Report"
    :: (lit "Date: " ++ strftime_Ymd_HM t)
    :: split_blank (replace_asterisks analysis)
  /\ Forall (fun text => ~ In asterisk text /\ has_blank_line text = false)
       (paragraph_texts (Try.report_story t analysis)).
Proof.
  split; [apply report_story_texts|]. rewrite report_story_texts.
  constructor; [|constructor].
  - split; [|reflexivity]. intros H.
    repeat (destruct H as [H|H]; [discriminate H|]). exact H.
  - assert (P : forall c, In c (lit "Date: " ++ strftime_Ymd_HM t) ->
                          c <> asterisk /\ c <> newline).
    { intros c H. apply in_app_or in H. destruct H as [H|H].
      - repeat (destruct H as [<-|H]; [split; discriminate|]). destruct H.
      - exact (strftime_Ymd_HM_plain t c H). }
    split.
    + intros H. destruct (P asterisk H) as [N _]. now apply N.
    + apply no_newline_no_blank_line. intros H.
      destruct (P newline H) as [_ N]. now apply N.
  - apply Forall_forall. intros p Hp. split.
    + intros H. apply (replace_asterisks_clean analysis).
      exact (in_split_blank _ _ _ Hp H).
    + exact (proj1 (Forall_forall _ _)
               (split_blank_no_blank_line (replace_asterisks analysis)) p Hp).
Qed.

Lemma shown_clean (analysis interview_questions : str) :
  ~ In asterisk (TryApp.shown analysis interview_questions).
Proof.
  unfold TryApp.shown. intros H. rewrite !in_app_iff in H.
  repeat match goal with
         | H : _ \/ _ |- _ => destruct H as [H|H]
         end;
    try (exact (replace_asterisks_clean _ H));
    vm_compute in H;
    repeat (destruct H as [H|H]; [discriminate H|]); exact H.
Qed.

(** X11.  In every run of [try.py] from start-up, a results window is
    opened only when both the analysis and the interview questions came
    back: there are at least two calls of the model for each window.  What
    a window shows is the two headings with the analysis and some
    questions, free of asterisks; the analysis kept for its PDF report has
    no whitespace at either end. *)
Theorem try_windows_answered (ext : Extern) (actions : list TryApp.action) :
  2 * length (Try.results_windows (gui (TryApp.run ext actions Try.initial)))
  <= length (llm_calls (events (TryApp.run ext actions Try.initial)))
  /\ Forall (fun window =>
               ~ In asterisk (fst window)
               /\ strip (snd window) = snd window
               /\ exists interview_questions,
                    fst window = TryApp.shown (snd window) interview_questions)
       (Try.results_windows (gui (TryApp.run ext actions Try.initial))).
Proof.
  apply (try_run_invariant ext
           (fun w =>
              2 * length (Try.results_windows (gui w))
              <= length (llm_calls (events w))
              /\ Forall (fun window =>
                           ~ In asterisk (fst window)
                           /\ strip (snd window) = snd window
                           /\ exists interview_questions,
                                fst window
                                = TryApp.shown (snd window) interview_questions)
                   (Try.results_windows (gui w))));
    [|split; [apply Nat.le_refl|constructor]].
  intros w a [IHn IHs]. try_cases ext w a; rewrite Hwindows, Hcalls;
    try (split; assumption);
    try (split; [rewrite length_app; cbn [length]; lia|assumption]).
  split; [rewrite !length_app; cbn [length]; lia|].
  apply Forall_app. split; [assumption|]. constructor; [|constructor].
  cbn [fst snd]. split; [apply shown_clean|].
  split; [apply cleanup_stripped|]. eexists. reflexivity.
Qed.

(** X12.  In every run of [try.py] from start-up, each PDF report built
    goes to a path the user chose (never the empty path of a cancelled
    dialog), and its story is that of [save_pdf_report] for an analysis a
    results window was opened with. *)
Theorem try_pdfs_are_reports (ext : Extern) (actions : list TryApp.action) :
  Forall (fun pdf =>
            fst pdf <> []
            /\ exists (date : datetime) (analysis : str),
                 In analysis
                   (List.map snd
                      (Try.results_windows
                         (gui (TryApp.run ext actions Try.initial))))
                 /\ snd pdf = Try.report_story date analysis)
    (pdfs_built (events (TryApp.run ext actions Try.initial))).
Proof.
  apply (try_run_invariant ext
           (fun w =>
              Forall (fun pdf =>
                        fst pdf <> []
                        /\ exists (date : datetime) (analysis : str),
                             In analysis
                               (List.map snd (Try.results_windows (gui w)))
                             /\ snd pdf = Try.report_story date analysis)
                (pdfs_built (events w))));
    [|constructor].
  intros w a IH. try_cases ext w a; rewrite Hwindows, Hpdfs; try assumption.
  - eapply Forall_impl; [|exact IH].
    intros pdf (Hp & d & x & Hx & Hs). split; [exact Hp|].
    exists d, x. split; [|exact Hs].
    rewrite map_app. apply in_or_app. left. exact Hx.
  - apply Forall_app. split; [assumption|]. constructor; [|constructor].
    split; [exact Hpath|]. exists date, analysis. split; [exact Hin|reflexivity].
Qed.

(** ** Sending *)

Lemma main_send_blank (ext : Extern) (w : Main.state) :
  blank (Main.message_input (gui w)) -> MainApp.step ext w MainApp.Send = w.
Proof.
  destruct w as [g u t]. intros H. cbn [gui] in H. run_all. project.
  rewrite strip_text_get_all, (strip_blank _ H). reflexivity.
Qed.

Lemma main_send_empties (ext : Extern) (w : Main.state) :
  blank (Main.message_input (gui (MainApp.step ext w MainApp.Send))).
Proof.
  destruct w as [g u t]. run_all. split_cases; project.
  - tests. apply strip_nil_blank. assumption.
  - constructor.
Qed.

Lemma try_send_blank (ext : Extern) (w : Try.state) :
  blank (Try.message_input (gui w)) -> TryApp.step ext w TryApp.Send = w.
Proof.
  destruct w as [g u t]. intros H. cbn [gui] in H. run_all. project.
  rewrite strip_text_get_all, (strip_blank _ H). reflexivity.
Qed.

Lemma try_send_empties (ext : Extern) (w : Try.state) :
  blank (Try.message_input (gui (TryApp.step ext w TryApp.Send))).
Proof.
  destruct w as [g u t]. run_all. split_cases; project;
    first [constructor|tests; apply strip_nil_blank; assumption].
Qed.

(** X14.  In both programs [send_message] empties the message box, so a
    second Send right after the first (a double click, or Control-Return
    held down) does nothing at all: no second record, no change of sender,
    and in [try.py] no further call of the model. *)
Theorem send_twice_sends_once (ext : Extern) :
  (forall w : Main.state,
      MainApp.run ext [MainApp.Send; MainApp.Send] w
      = MainApp.run ext [MainApp.Send] w)
  /\ (forall w : Try.state,
         TryApp.run ext [TryApp.Send; TryApp.Send] w
         = TryApp.run ext [TryApp.Send] w).
Proof.
  split; intros w; unfold MainApp.run, TryApp.run; cbn [fold_left].
  - apply main_send_blank, main_send_empties.
  - apply try_send_blank, try_send_empties.
Qed.

Lemma main_step_turns (ext : Extern) (w : Main.state) (a : MainApp.action) :
  MainApp.selects a = false ->
  (Main.conversation_messages (globals (MainApp.step ext w a))
   = Main.conversation_messages (globals w)
   /\ Main.current_sender (gui (MainApp.step ext w a))
      = Main.current_sender (gui w))
  \/ (Main.conversation_messages (globals (MainApp.step ext w a))
      = Main.conversation_messages (globals w) ++ [MainApp.sent_record ext w]
      /\ Main.current_sender (gui (MainApp.step ext w a))
         = next_sender (Main.current_sender (gui w)))
  \/ (Main.conversation_messages (globals (MainApp.step ext w a)) = []
      /\ Main.current_sender (gui (MainApp.step ext w a)) = lit "Recruiter").
Proof.
  intros Ha.
  assert (Hv : MainApp.view (MainApp.step ext w a) = MainApp.view w ->
               Main.conversation_messages (globals (MainApp.step ext w a))
               = Main.conversation_messages (globals w)
               /\ Main.current_sender (gui (MainApp.step ext w a))
                  = Main.current_sender (gui w)).
  { intros H. unfold MainApp.view in H. injection H as H1 H2 H3 H4 H5 H6.
    split; assumption. }
  destruct a; try discriminate Ha.
  5: left; apply Hv, main_load_job_description_view.
  5: left; apply Hv, main_load_candidate_resume_view.
  6: left; apply Hv, main_startup_view.
  all: clear Hv; destruct w as [g u t]; run_all; split_cases; project;
    unfold MainApp.sent_record; project; rewrite ?strip_text_get_all;
    first [ left; split; reflexivity
          | right; left; split; reflexivity
          | right; right; split; reflexivity ].
Qed.

Lemma try_step_turns (ext : Extern) (w : Try.state) (a : TryApp.action) :
  TryApp.selects a = false ->
  (Try.conversation_messages (globals (TryApp.step ext w a))
   = Try.conversation_messages (globals w)
   /\ Try.current_sender (gui (TryApp.step ext w a))
      = Try.current_sender (gui w))
  \/ (Try.conversation_messages (globals (TryApp.step ext w a))
      = Try.conversation_messages (globals w) ++ [TryApp.sent_record ext w]
      /\ Try.current_sender (gui (TryApp.step ext w a))
         = next_sender (Try.current_sender (gui w)))
  \/ (Try.conversation_messages (globals (TryApp.step ext w a)) = []
      /\ Try.current_sender (gui (TryApp.step ext w a)) = lit "Recruiter").
Proof.
  intros Ha.
  assert (Hv : forall w', TryApp.view w' = TryApp.view w ->
               Try.conversation_messages (globals w')
               = Try.conversation_messages (globals w)
               /\ Try.current_sender (gui w') = Try.current_sender (gui w)).
  { intros w' H. unfold TryApp.view in H.
    injection H as H1 H2 H3 H4 H5 H6 H7 H8 H9 H10. split; assumption. }
  assert (Hr : forall w' path text,
               TryApp.view w'
               = (Try.conversation_messages (globals w),
                  Try.chat_display (gui w), Try.current_sender (gui w),
                  Try.candidate_resumes (globals w) ++ [text],
                  Try.resume_listbox (gui w) ++ [Try.basename path],
                  Try.interview_suggestions (globals w),
                  Try.suggestion_text (gui w), Try.results_windows (gui w),
                  llm_calls (events w), pdfs_built (events w)) ->
               Try.conversation_messages (globals w')
               = Try.conversation_messages (globals w)
               /\ Try.current_sender (gui w') = Try.current_sender (gui w)).
  { intros w' path text H. unfold TryApp.view in H.
    injection H as H1 H2 H3 H4 H5 H6 H7 H8 H9 H10. split; assumption. }
  destruct a; try discriminate Ha.
  5: left; apply Hv, try_load_job_description_view.
  5: { left. destruct (try_load_candidate_resume_view ext w)
         as [H|(path & text & _ & H)]; [exact (Hv _ H)|exact (Hr _ _ _ H)]. }
  6: { left. destruct (try_startup_view ext w)
         as [H|(path & text & _ & H)]; [exact (Hv _ H)|exact (Hr _ _ _ H)]. }
  all: clear Hv Hr; destruct w as [g u t]; run_all; split_cases; project;
    unfold TryApp.sent_record; project; rewrite ?strip_text_get_all;
    first [ left; split; reflexivity
          | right; left; split; reflexivity
          | right; right; split; reflexivity ].
Qed.

Lemma next_sender_turn (n : nat) : next_sender (turn n) = turn (S n).
Proof.
  unfold turn. rewrite Nat.even_succ, <- Nat.negb_even.
  destruct (Nat.even n); reflexivity.
Qed.

Lemma turns_snoc (senders : list str) (n : nat) :
  senders = List.map turn (seq 0 n) ->
  senders ++ [turn n] = List.map turn (seq 0 (S n)).
Proof. intros ->. now rewrite seq_S, map_app. Qed.

Lemma main_turns_run (ext : Extern) (actions : list MainApp.action)
    (w : Main.state) :
  forallb (fun a => negb (MainApp.selects a)) actions = true ->
  List.map sender (Main.conversation_messages (globals w))
  = List.map turn (seq 0 (length (Main.conversation_messages (globals w))))
  /\ Main.current_sender (gui w)
     = turn (length (Main.conversation_messages (globals w))) ->
  List.map sender
    (Main.conversation_messages (globals (MainApp.run ext actions w)))
  = List.map turn
      (seq 0 (length (Main.conversation_messages
                        (globals (MainApp.run ext actions w)))))
  /\ Main.current_sender (gui (MainApp.run ext actions w))
     = turn (length (Main.conversation_messages
                       (globals (MainApp.run ext actions w)))).
Proof.
  revert w. induction actions as [|a actions IH]; intros w Hall Hw;
    [exact Hw|].
  cbn [forallb] in Hall. apply andb_true_iff in Hall.
  destruct Hall as [Ha Hall]. apply negb_true_iff in Ha.
  cbn [MainApp.run fold_left]. apply IH; [exact Hall|].
  destruct Hw as [Hs Hc].
  destruct (main_step_turns ext w a Ha) as [[E1 E2]|[[E1 E2]|[E1 E2]]];
    rewrite E1, E2.
  - split; assumption.
  - rewrite map_app, length_app, Nat.add_1_r. cbn [List.map length].
    unfold MainApp.sent_record at 1. cbn [sender]. rewrite Hc.
    split; [apply turns_snoc, Hs|apply next_sender_turn].
  - split; reflexivity.
Qed.

Lemma try_turns_run (ext : Extern) (actions : list TryApp.action)
    (w : Try.state) :
  forallb (fun a => negb (TryApp.selects a)) actions = true ->
  List.map sender (Try.conversation_messages (globals w))
  = List.map turn (seq 0 (length (Try.conversation_messages (globals w))))
  /\ Try.current_sender (gui w)
     = turn (length (Try.conversation_messages (globals w))) ->
  List.map sender
    (Try.conversation_messages (globals (TryApp.run ext actions w)))
  = List.map turn
      (seq 0 (length (Try.conversation_messages
                        (globals (TryApp.run ext actions w)))))
  /\ Try.current_sender (gui (TryApp.run ext actions w))
     = turn (length (Try.conversation_messages
                       (globals (TryApp.run ext actions w)))).
Proof.
  revert w. induction actions as [|a actions IH]; intros w Hall Hw;
    [exact Hw|].
  cbn [forallb] in Hall. apply andb_true_iff in Hall.
  destruct Hall as [Ha Hall]. apply negb_true_iff in Ha.
  cbn [TryApp.run fold_left]. apply IH; [exact Hall|].
  destruct Hw as [Hs Hc].
  destruct (try_step_turns ext w a Ha) as [[E1 E2]|[[E1 E2]|[E1 E2]]];
    rewrite E1, E2.
  - split; assumption.
  - rewrite map_app, length_app, Nat.add_1_r. cbn [List.map length].
    unfold TryApp.sent_record at 1. cbn [sender]. rewrite Hc.
    split; [apply turns_snoc, Hs|apply next_sender_turn].
  - split; reflexivity.
Qed.

(** X15.  As long as no radio button is clicked, the two programs make the
    speakers take turns: in every state reached from start-up by the other
    actions, the first stored message is the recruiter's, the senders
    alternate from there, and the selected sender is the one whose turn it
    is.  Clearing the chat starts again with the recruiter. *)
Theorem senders_take_turns (ext : Extern) :
  (forall actions : list MainApp.action,
      forallb (fun a => negb (MainApp.selects a)) actions = true ->
      let w := MainApp.run ext actions Main.initial in
      List.map sender (Main.conversation_messages (globals w))
      = List.map turn (seq 0 (length (Main.conversation_messages (globals w))))
      /\ Main.current_sender (gui w)
         = turn (length (Main.conversation_messages (globals w))))
  /\ (forall actions : list TryApp.action,
         forallb (fun a => negb (TryApp.selects a)) actions = true ->
         let w := TryApp.run ext actions Try.initial in
         List.map sender (Try.conversation_messages (globals w))
         = List.map turn (seq 0 (length (Try.conversation_messages (globals w))))
         /\ Try.current_sender (gui w)
            = turn (length (Try.conversation_messages (globals w)))).
Proof.
  split; intros actions Hall; cbn zeta.
  - apply main_turns_run; [exact Hall|split; reflexivity].
  - apply try_turns_run; [exact Hall|split; reflexivity].
Qed.

Lemma senders_take_turns_witness :
  forallb (fun a => negb (MainApp.selects a))
    [MainApp.Edit (lit "Hello"); MainApp.Send; MainApp.Edit (lit "Hi");
     MainApp.Send; MainApp.Edit (lit "Shall we start?"); MainApp.Send] = true
  /\ List.map sender
       (Main.conversation_messages
          (globals
             (MainApp.run (demo_extern (inl []) true [])
                [MainApp.Edit (lit "Hello"); MainApp.Send;
                 MainApp.Edit (lit "Hi"); MainApp.Send;
                 MainApp.Edit (lit "Shall we start?"); MainApp.Send]
                Main.initial)))
     = [lit "Recruiter"; lit "Candidate"; lit "Recruiter"].
Proof.
  split; [reflexivity|].
  rewrite (proj1 (proj1 (senders_take_turns (demo_extern (inl []) true []))
                    [MainApp.Edit (lit "Hello"); MainApp.Send;
                     MainApp.Edit (lit "Hi"); MainApp.Send;
                     MainApp.Edit (lit "Shall we start?"); MainApp.Send]
                    eq_refl)).
  reflexivity.
Defined.

(** ** Documents without text *)

Lemma blank_add_page (text : str) (page : option str) :
  blank (add_page text page)
  <-> blank text
      /\ match page with Some page_text => blank page_text | None => True end.
Proof.
  unfold add_page, blank. destruct page as [[|c s]|]; cbn [truthy].
  - split; [intros H; split; [exact H|constructor]|intros [H _]; exact H].
  - rewrite !Forall_app. split.
    + intros (Ht & Hs & _). split; assumption.
    + intros (Ht & Hs). repeat split; [assumption|assumption|apply blank_newline].
  - split; [intros H; split; [exact H|exact I]|intros [H _]; exact H].
Qed.

Lemma blank_fold_add_page (pages : list (option str)) (text : str) :
  blank (fold_left add_page pages text) <-> blank text /\ textless pages.
Proof.
  revert text. induction pages as [|page pages IH]; intros text; cbn [fold_left].
  - split; [intros H; split; [exact H|constructor]|intros [H _]; exact H].
  - rewrite IH, blank_add_page. unfold textless. split.
    + intros ((Ht & Hp) & Hps). split; [exact Ht|constructor; assumption].
    + intros (Ht & Hps). inversion Hps; subst. repeat split; assumption.
Qed.

Lemma extract_pages_of_textless (pages : list (option str)) :
  textless pages -> extract_pages pages = [].
Proof.
  intros H. unfold extract_pages. apply strip_blank.
  apply (proj2 (blank_fold_add_page pages [])). split; [constructor|exact H].
Qed.

(** X16.  [extract_text_from_pdf] returns the empty string exactly for the
    PDFs without text: those in which every page yields [None], the empty
    string or only whitespace.  One character other than whitespace on any
    page makes the result non-empty. *)
Theorem extract_pages_empty (pages : list (option str)) :
  extract_pages pages = [] <-> textless pages.
Proof.
  unfold extract_pages. split.
  - intros H. apply strip_nil_blank in H.
    exact (proj2 (proj1 (blank_fold_add_page pages []) H)).
  - intros H. apply strip_blank.
    apply (proj2 (blank_fold_add_page pages [])). split; [constructor|exact H].
Qed.

Lemma truthy_nonempty (s : str) : s <> [] -> truthy s = true.
Proof. destruct s; [congruence|reflexivity]. Qed.

(** X17.  [main.py] takes a resume without text for no resume.  When the
    file chosen in [load_candidate_resume] is a PDF none of whose pages
    yields text, the handler returns normally with the empty string as the
    resume; the status label goes on asking for the resume (or for both
    documents), and [analyze_conversation] is then refused with the
    error box, without a call of the model. *)
Theorem main_textless_resume_not_loaded (ext : Extern) (w : Main.state)
    (pages : list (option str)) :
  askfilename ext (events w) <> [] ->
  endswith (askfilename ext (events w)) (lit ".pdf") = true ->
  pdf_pages ext
    (events w ++ [EvAskOpenFilename (lit "Select Candidate Resume")])
    (askfilename ext (events w)) = Some pages ->
  textless pages ->
  let w1 := snd (Main.load_candidate_resume ext w) in
  fst (Main.load_candidate_resume ext w) = Ok tt
  /\ Main.candidate_resume (globals w1) = []
  /\ Main.status_label (gui w1)
     = (if truthy (Main.job_description (globals w))
        then lit "Job description loaded. Please load resume."
        else lit "Please load job description and resume")
  /\ Main.analyze_conversation ext w1
     = (Ok tt, {| globals := globals w1; gui := gui w1;
                  events := events w1 ++ [Main.missing_documents] |}).
Proof.
  destruct w as [g u t]. cbn [events]. intros Hpath Hpdf Hpages Htl.
  apply truthy_nonempty in Hpath. apply extract_pages_of_textless in Htl.
  cbn zeta. run_all. rewrite Hpath. cbn [negb]. rewrite Hpdf, Hpages.
  run_all. rewrite Htl. project. cbn [truthy]. rewrite andb_false_r.
  destruct (truthy (Main.job_description g)); run_all; project;
    cbn [truthy negb]; rewrite ?orb_true_r; repeat split.
Qed.

Lemma main_textless_resume_not_loaded_witness :
  textless scanned_pages
  /\ Main.candidate_resume
       (globals (snd (Main.load_candidate_resume
                        (scanned_extern (lit "cv.pdf"))
                        (Main.loaded demo_messages)))) = []
  /\ Main.status_label
       (gui (snd (Main.load_candidate_resume
                    (scanned_extern (lit "cv.pdf"))
                    (Main.loaded demo_messages))))
     = lit "Job description loaded. Please load resume.".
Proof.
  assert (H : textless scanned_pages) by (repeat constructor).
  split; [exact H|].
  destruct (main_textless_resume_not_loaded (scanned_extern (lit "cv.pdf"))
              (Main.loaded demo_messages) scanned_pages
              ltac:(discriminate) eq_refl eq_refl H)
    as (_ & Hcv & Hst & _).
  split; [exact Hcv|exact Hst].
Defined.



(** ** When the model fails *)






(** ** Loading and the status label *)

(** X21.  In [try.py] the match score of the status label is that of the
    first resume, whatever is loaded after it: once a job description and
    a resume are there, loading one more resume appends it to the list and
    recomputes the score of the job description against the first. *)
Theorem try_score_of_first_resume (ext : Extern) (w : Try.state)
    (first : str) (rest : list str) :
  Try.job_description (globals w) <> [] ->
  Try.candidate_resumes (globals w) = first :: rest ->
  askfilename ext (events w) <> [] ->
  fst (Try.load_candidate_resume ext w) = Ok tt ->
  let w1 := snd (Try.load_candidate_resume ext w) in
  (exists text, Try.candidate_resumes (globals w1) = first :: rest ++ [text])
  /\ Try.status_label (gui w1)
     = lit "Initial Resume Match: "
       ++ format_1f (calculate_match_score ext (events w1)
                       (Try.job_description (globals w)) first)
       ++ lit "/10".
Proof.
  destruct w as [[msgs jd cvs sgs] u t].
  cbn [globals gui events Try.job_description Try.candidate_resumes].
  intros Hjd -> Hpath. apply truthy_nonempty in Hjd, Hpath.
  cbn zeta. run_all. project. rewrite Hpath. cbn [negb].
  repeat (project; cbn [app]; rewrite ?Hjd; split_case; run_all);
    project; cbn [app]; rewrite ?Hjd; intros Hok;
    try discriminate Hok; (split; [eexists; reflexivity|reflexivity]).
Qed.

Lemma try_score_of_first_resume_witness :
  Try.candidate_resumes (globals (Try.loaded demo_messages))
  = [lit "Five years of SQL reporting"]
  /\ Try.status_label
       (gui (snd (Try.load_candidate_resume
                    (demo_extern (inl []) true (lit "second.txt"))
                    (Try.loaded demo_messages))))
     = lit "Initial Resume Match: 10.0/10".
Proof.
  split; [reflexivity|].
  rewrite (proj2 (try_score_of_first_resume
                    (demo_extern (inl []) true (lit "second.txt"))
                    (Try.loaded demo_messages)
                    (lit "Five years of SQL reporting") []
                    ltac:(discriminate) eq_refl ltac:(discriminate) eq_refl)).
  vm_compute. reflexivity.
Defined.

Ltac load_unchanged :=
  intros [g u t]; cbn [events]; intros H; revert H; run_all; split_cases;
  project; intros H;
  first
    [ split; reflexivity
    | exfalso; destruct H as [H|H];
      [ apply H; reflexivity
      | match goal with
        | E : negb (truthy _) = false |- _ => rewrite H in E; discriminate E
        end ] ].

(** X22.  A load that does not go through changes nothing.  In both
    programs, when the file dialog of [load_job_description] or
    [load_candidate_resume] is cancelled, or the chosen file cannot be
    opened or decoded so that the handler ends with an exception, the
    globals and the widgets are what they were before: no document is
    replaced by a partial read, no resume or list entry is added, and the
    status label is not recomputed. *)
Theorem failed_load_changes_nothing (ext : Extern) :
  (forall w : Main.state,
      fst (Main.load_job_description ext w) <> Ok tt
      \/ askfilename ext (events w) = [] ->
      globals (snd (Main.load_job_description ext w)) = globals w
      /\ gui (snd (Main.load_job_description ext w)) = gui w)
  /\ (forall w : Main.state,
         fst (Main.load_candidate_resume ext w) <> Ok tt
         \/ askfilename ext (events w) = [] ->
         globals (snd (Main.load_candidate_resume ext w)) = globals w
         /\ gui (snd (Main.load_candidate_resume ext w)) = gui w)
  /\ (forall w : Try.state,
         fst (Try.load_job_description ext w) <> Ok tt
         \/ askfilename ext (events w) = [] ->
         globals (snd (Try.load_job_description ext w)) = globals w
         /\ gui (snd (Try.load_job_description ext w)) = gui w)
  /\ (forall w : Try.state,
         fst (Try.load_candidate_resume ext w) <> Ok tt
         \/ askfilename ext (events w) = [] ->
         globals (snd (Try.load_candidate_resume ext w)) = globals w
         /\ gui (snd (Try.load_candidate_resume ext w)) = gui w).
Proof.
  split; [|split; [|split]]; load_unchanged.
Qed.

Lemma failed_load_changes_nothing_witness :
  fst (Try.load_candidate_resume (scanned_extern (lit "notes.txt"))
         (Try.loaded demo_messages))
  = Raised (FileError (lit "notes.txt"))
  /\ globals (snd (Try.load_candidate_resume (scanned_extern (lit "notes.txt"))
                     (Try.loaded demo_messages)))
     = globals (Try.loaded demo_messages)
  /\ gui (snd (Try.load_candidate_resume (scanned_extern (lit "notes.txt"))
                 (Try.loaded demo_messages)))
     = gui (Try.loaded demo_messages).
Proof.
  split; [reflexivity|].
  apply (proj2 (proj2 (proj2 (failed_load_changes_nothing
                                (scanned_extern (lit "notes.txt")))))).
  left. discriminate.
Defined.

(** X23.  Clearing the chat of [try.py] keeps the job description but
    sets the status label to the start-up text.  When the user confirms
    with a job description loaded, the label asks for the job description
    and the resume although the job description is still there:
    [update_status] in that very state would show "Job description
    loaded. Please load resume." *)
Theorem try_clear_resets_status (ext : Extern) (w : Try.state) :
  askyesno ext (events w) = true ->
  Try.job_description (globals w) <> [] ->
  let w1 := snd (Try.clear_chat ext w) in
  Try.job_description (globals w1) = Try.job_description (globals w)
  /\ Try.status_label (gui w1) = lit "Please load job description and resume"
  /\ Try.status_label (gui (snd (Try.update_status ext w1)))
     = lit "Job description loaded. Please load resume.".
Proof.
  destruct w as [g u t]. cbn [globals gui events]. intros Hyes Hjd.
  apply truthy_nonempty in Hjd. cbn zeta. run_all. rewrite Hyes.
  run_all. project. rewrite Hjd. repeat split.
Qed.

Lemma try_clear_resets_status_witness :
  askyesno (demo_extern (inl []) true []) (events (Try.loaded demo_messages))
  = true
  /\ Try.status_label
       (gui (snd (Try.clear_chat (demo_extern (inl []) true [])
                    (Try.loaded demo_messages))))
     = lit "Please load job description and resume"
  /\ Try.job_description
       (globals (snd (Try.clear_chat (demo_extern (inl []) true [])
                        (Try.loaded demo_messages))))
     = lit "Data analyst, SQL and Python".
Proof.
  split; [reflexivity|].
  destruct (try_clear_resets_status (demo_extern (inl []) true [])
              (Try.loaded demo_messages) eq_refl ltac:(discriminate))
    as (Hjd & Hst & _).
  split; [exact Hst|]. rewrite Hjd. reflexivity.
Defined.

(** X24.  The report of [main.py] counts the messages at the time of
    saving, not those the analysis was made from.  When the chat is
    cleared with a results window open and the analysis of that window is
    then saved, to a chosen path and without an exception of the writer,
    the file written says "Messages analyzed: 0" above the analysis. *)
Theorem main_report_after_clear (ext : Extern) (w : Main.state)
    (window : nat) (analysis : str) :
  nth_error (Main.results_windows (gui w)) window = Some analysis ->
  askyesno ext (events w) = true ->
  askfilename ext
    (events (MainApp.run ext [MainApp.Clear] w)) <> [] ->
  fst (MainApp.perform ext (MainApp.Save window)
         (MainApp.run ext [MainApp.Clear] w)) = Ok tt ->
  exists (date : str) (score : float),
    files_written
      (events (MainApp.run ext [MainApp.Clear; MainApp.Save window] w))
    = files_written (events w)
      ++ [(askfilename ext (events (MainApp.run ext [MainApp.Clear] w)),
           Main.report_metadata date 0 score ++ analysis)].
Proof.
  destruct w as [g u t]. unfold MainApp.run. cbn [fold_left gui events].
  intros Hwin Hyes. run_all. rewrite Hyes. run_all. project. rewrite Hwin.
  intros Hpath. apply truthy_nonempty in Hpath.
  run_all. project. rewrite Hpath. run_all. project.
  split_cases; intros Hok; try discriminate Hok.
  eexists _, _. unfold files_written. rewrite !flat_map_app.
  cbn [flat_map app]. rewrite !app_nil_r. reflexivity.
Qed.

Lemma main_report_after_clear_witness :
  nth_error
    (Main.results_windows
       (gui (snd (Main.analyze_conversation
                    (demo_extern (inl (lit "PROCEED")) true (lit "r.txt"))
                    (Main.loaded demo_messages))))) 0
  = Some (lit "PROCEED")
  /\ exists (date : str) (score : float),
       files_written
         (events
            (MainApp.run (demo_extern (inl (lit "PROCEED")) true (lit "r.txt"))
               [MainApp.Clear; MainApp.Save 0]
               (snd (Main.analyze_conversation
                       (demo_extern (inl (lit "PROCEED")) true (lit "r.txt"))
                       (Main.loaded demo_messages)))))
       = [(lit "r.txt", Main.report_metadata date 0 score ++ lit "PROCEED")].
Proof.
  split; [reflexivity|].
  exact (main_report_after_clear
           (demo_extern (inl (lit "PROCEED")) true (lit "r.txt"))
           (snd (Main.analyze_conversation
                   (demo_extern (inl (lit "PROCEED")) true (lit "r.txt"))
                   (Main.loaded demo_messages)))
           0 (lit "PROCEED") eq_refl eq_refl ltac:(discriminate) eq_refl).
Defined.

(** ** Highlighting *)

Lemma starts_with_firstn (phrase s : str) :
  starts_with phrase s = true <-> firstn (length phrase) s = phrase.
Proof.
  revert s. induction phrase as [|p ps IH]; intros s; [split; reflexivity|].
  destruct s as [|c r]; cbn [starts_with length firstn];
    [split; discriminate|].
  rewrite andb_true_iff, IH, char_eqb_eq. split.
  - intros [-> ->]. reflexivity.
  - intros H. injection H as -> H. split; [reflexivity|exact H].
Qed.

Lemma starts_with_nil (phrase : str) :
  phrase <> [] -> starts_with phrase [] = false.
Proof. destruct phrase; [congruence|reflexivity]. Qed.

Lemma find_some (phrase s : str) (i : nat) :
  find phrase s = Some i ->
  starts_with phrase (skipn i s) = true
  /\ forall k, k < i -> starts_with phrase (skipn k s) = false.
Proof.
  revert i. induction s as [|c r IH]; intros i; cbn [find].
  - destruct (starts_with phrase []) eqn:E; [|discriminate].
    intros H. injection H as <-. split; [exact E|intros k Hk; lia].
  - destruct (starts_with phrase (c :: r)) eqn:E.
    + intros H. injection H as <-. split; [exact E|intros k Hk; lia].
    + destruct (find phrase r) as [j|]; [|discriminate].
      cbn [option_map]. intros H. injection H as <-.
      destruct (IH j eq_refl) as [Hj Hmin]. split; [exact Hj|].
      intros [|k] Hk; [exact E|]. cbn [skipn]. apply Hmin. lia.
Qed.

Lemma find_none (phrase s : str) (k : nat) :
  find phrase s = None -> starts_with phrase (skipn k s) = false.
Proof.
  revert k. induction s as [|c r IH]; intros k; cbn [find].
  - destruct (starts_with phrase []) eqn:E; [discriminate|].
    intros _. now rewrite skipn_nil.
  - destruct (starts_with phrase (c :: r)) eqn:E; [discriminate|].
    destruct (find phrase r) as [j|] eqn:F; [discriminate|].
    intros _. destruct k as [|k]; [exact E|]. cbn [skipn]. now apply IH.
Qed.

Lemma search_some (content phrase : str) (start_pos pos : nat) :
  search content phrase start_pos = Some pos ->
  start_pos <= pos
  /\ starts_with phrase (skipn pos content) = true
  /\ forall k, start_pos <= k < pos ->
               starts_with phrase (skipn k content) = false.
Proof.
  unfold search.
  destruct (find phrase (skipn start_pos content)) as [j|] eqn:F;
    [|discriminate].
  cbn [option_map]. intros H. injection H as <-.
  destruct (find_some _ _ _ F) as [Hj Hmin]. rewrite skipn_skipn in Hj.
  split; [lia|]. split; [now rewrite Nat.add_comm|].
  intros k Hk. specialize (Hmin (k - start_pos) ltac:(lia)).
  rewrite skipn_skipn in Hmin.
  now replace (k - start_pos + start_pos) with k in Hmin by lia.
Qed.

Lemma search_none (content phrase : str) (start_pos k : nat) :
  search content phrase start_pos = None ->
  start_pos <= k -> starts_with phrase (skipn k content) = false.
Proof.
  unfold search.
  destruct (find phrase (skipn start_pos content)) as [j|] eqn:F;
    [discriminate|].
  intros _ Hk. pose proof (find_none _ _ (k - start_pos) F) as H.
  rewrite skipn_skipn in H.
  now replace (k - start_pos + start_pos) with k in H by lia.
Qed.

(** An occurrence of a phrase that is not empty starts inside the text. *)
Lemma occurrence_inside (content phrase : str) (k : nat) :
  phrase <> [] -> starts_with phrase (skipn k content) = true ->
  k < length content.
Proof.
  intros Hp H. destruct (Nat.lt_ge_cases k (length content)) as [L|G];
    [exact L|].
  rewrite (skipn_all2 content G), (starts_with_nil _ Hp) in H. discriminate.
Qed.

Lemma highlight_from_sound (fuel : nat) (content phrase : str) (start_pos : nat) :
  Forall (fun range =>
            start_pos <= fst range
            /\ snd range = fst range + length phrase
            /\ firstn (length phrase) (skipn (fst range) content) = phrase)
    (highlight_from fuel content phrase start_pos).
Proof.
  revert start_pos. induction fuel as [|fuel IH]; intros start_pos;
    cbn [highlight_from]; [constructor|].
  destruct (search content phrase start_pos) as [pos|] eqn:S; [|constructor].
  destruct (search_some _ _ _ _ S) as (Hle & Hocc & _).
  constructor.
  - cbn [fst snd]. repeat split; [exact Hle|now apply starts_with_firstn].
  - eapply Forall_impl; [|apply IH]. cbn beta.
    intros range (H1 & H2 & H3). repeat split; [lia|exact H2|exact H3].
Qed.

Lemma highlight_from_sorted (fuel : nat) (content phrase : str) (start_pos : nat) :
  StronglySorted (fun a b => snd a <= fst b)
    (highlight_from fuel content phrase start_pos).
Proof.
  revert start_pos. induction fuel as [|fuel IH]; intros start_pos;
    cbn [highlight_from]; [constructor|].
  destruct (search content phrase start_pos) as [pos|] eqn:S; [|constructor].
  constructor; [apply IH|].
  eapply Forall_impl; [|apply highlight_from_sound]. cbn beta.
  intros range (H & _). exact H.
Qed.

Lemma highlight_from_complete (fuel : nat) (content phrase : str)
    (start_pos k : nat) :
  phrase <> [] -> length content < start_pos + fuel ->
  start_pos <= k -> starts_with phrase (skipn k content) = true ->
  exists range,
    In range (highlight_from fuel content phrase start_pos)
    /\ fst range <= k < snd range.
Proof.
  intros Hp. revert start_pos.
  induction fuel as [|fuel IH]; intros start_pos Hfuel Hk Hocc.
  - pose proof (occurrence_inside _ _ _ Hp Hocc). lia.
  - cbn [highlight_from].
    destruct (search content phrase start_pos) as [pos|] eqn:S.
    + destruct (search_some _ _ _ _ S) as (Hle & Hpos & Hmin).
      destruct (Nat.lt_ge_cases k pos) as [L|G].
      { rewrite (Hmin k (conj Hk L)) in Hocc. discriminate. }
      destruct (Nat.lt_ge_cases k (pos + length phrase)) as [L'|G'].
      * exists (pos, pos + length phrase). split; [left; reflexivity|].
        cbn [fst snd]. lia.
      * assert (0 < length phrase) by (destruct phrase; [congruence|cbn; lia]).
        destruct (IH (pos + length phrase) ltac:(lia) G' Hocc)
          as (range & Hin & Hr).
        exists range. split; [right; exact Hin|exact Hr].
    + rewrite (search_none _ _ _ k S Hk) in Hocc. discriminate.
Qed.

Lemma highlight_from_fuel (fuel fuel' : nat) (content phrase : str)
    (start_pos : nat) :
  phrase <> [] ->
  length content < start_pos + fuel -> length content < start_pos + fuel' ->
  highlight_from fuel content phrase start_pos
  = highlight_from fuel' content phrase start_pos.
Proof.
  intros Hp. revert fuel' start_pos.
  induction fuel as [|fuel IH]; intros fuel' start_pos H H'.
  - destruct fuel' as [|fuel']; [reflexivity|]. cbn [highlight_from].
    destruct (search content phrase start_pos) as [pos|] eqn:S; [|reflexivity].
    destruct (search_some _ _ _ _ S) as (Hle & Hpos & _).
    pose proof (occurrence_inside _ _ _ Hp Hpos). lia.
  - cbn [highlight_from].
    destruct (search content phrase start_pos) as [pos|] eqn:S.
    + destruct (search_some _ _ _ _ S) as (Hle & Hpos & _).
      pose proof (occurrence_inside _ _ _ Hp Hpos) as Hin.
      assert (0 < length phrase) by (destruct phrase; [congruence|cbn; lia]).
      destruct fuel' as [|fuel']; [lia|].
      cbn [highlight_from]. rewrite S. f_equal.
      apply IH; lia.
    + destruct fuel' as [|fuel']; [reflexivity|].
      cbn [highlight_from]. now rewrite S.
Qed.

(** X25.  [highlight_text] of [main.py], for a phrase that is not empty.
    The loop ends: after one round for each character of the text and one
    more, further rounds add nothing.  Each range it tags has the length
    of the phrase and holds the phrase; the ranges come in increasing
    order and do not overlap; and no occurrence is missed, in that every
    occurrence of the phrase in the text starts inside a tagged range. *)
Theorem highlight_text_ranges (content phrase : str) :
  phrase <> [] ->
  (forall more,
      highlight_from (S (length content) + more) content phrase 0
      = highlight_text content phrase)
  /\ Forall (fun range =>
               snd range = fst range + length phrase
               /\ firstn (length phrase) (skipn (fst range) content) = phrase)
       (highlight_text content phrase)
  /\ StronglySorted (fun a b => snd a <= fst b) (highlight_text content phrase)
  /\ forall k,
       firstn (length phrase) (skipn k content) = phrase ->
       exists range,
         In range (highlight_text content phrase) /\ fst range <= k < snd range.
Proof.
  intros Hp. unfold highlight_text. split; [|split; [|split]].
  - intros more. apply highlight_from_fuel; [exact Hp|lia|lia].
  - eapply Forall_impl; [|apply highlight_from_sound]. cbn beta.
    intros range (_ & H). exact H.
  - apply highlight_from_sorted.
  - intros k Hk. apply starts_with_firstn in Hk.
    apply highlight_from_complete; [exact Hp|lia|lia|exact Hk].
Qed.

Lemma highlight_text_ranges_witness :
  lit "High" <> []
  /\ highlight_text (lit "Confidence Level: High. Highly motivated.")
       (lit "High")
     = [(18, 22); (24, 28)]
  /\ StronglySorted (fun a b => snd a <= fst b)
       (highlight_text (lit "Confidence Level: High. Highly motivated.")
          (lit "High")).
Proof.
  split; [discriminate|]. split; [reflexivity|].
  apply (highlight_text_ranges
           (lit "Confidence Level: High. Highly motivated.") (lit "High")).
  discriminate.
Defined.

(** ** The prompt at start-up *)

Ltac run_prompt :=
  cbv beta iota zeta delta
    [bind ret get_trace emit ask_yes_no
     Main.prompt_load_files Try.prompt_load_files];
  cbn [globals gui events].

Ltac one_dialog :=
  intros [g u t]; run_all; split_cases; project;
  unfold open_dialogs; rewrite ?flat_map_app; cbn [flat_map app];
  rewrite ?app_nil_r; reflexivity.

Lemma main_load_job_description_dialog (ext : Extern) :
  forall w : Main.state,
    open_dialogs (events (snd (Main.load_job_description ext w)))
    = open_dialogs (events w) ++ [lit "Select Job Description"].
Proof. one_dialog. Qed.

Lemma main_load_candidate_resume_dialog (ext : Extern) :
  forall w : Main.state,
    open_dialogs (events (snd (Main.load_candidate_resume ext w)))
    = open_dialogs (events w) ++ [lit "Select Candidate Resume"].
Proof. one_dialog. Qed.

Lemma try_load_job_description_dialog (ext : Extern) :
  forall w : Try.state,
    open_dialogs (events (snd (Try.load_job_description ext w)))
    = open_dialogs (events w) ++ [lit "Select Job Description"].
Proof. one_dialog. Qed.

Lemma try_load_candidate_resume_dialog (ext : Extern) :
  forall w : Try.state,
    open_dialogs (events (snd (Try.load_candidate_resume ext w)))
    = open_dialogs (events w) ++ [lit "Select Candidate Resume"].
Proof. one_dialog. Qed.

(** X26.  The prompt of [__init__], in both programs.  When the user
    declines, no file dialog is shown.  When the user accepts, the dialog
    for the job description is shown, and the one for the resume after it
    exactly when [load_job_description] returned normally, be it with a
    document or after a cancelled dialog: a job description that cannot
    be read ends the prompt with its exception before the resume is asked
    for. *)
Theorem startup_dialogs (ext : Extern) :
  (forall w : Main.state,
      let asked :=
        {| globals := globals w; gui := gui w;
           events := events w
                     ++ [EvAskYesNo (lit "Load Files")
                           (lit "Would you like to load job description and resume now?")] |} in
      open_dialogs (events (snd (Main.prompt_load_files ext w)))
      = open_dialogs (events w)
        ++ (if askyesno ext (events w) then
              match fst (Main.load_job_description ext asked) with
              | Ok _ => [lit "Select Job Description";
                         lit "Select Candidate Resume"]
              | Raised _ => [lit "Select Job Description"]
              end
            else []))
  /\ (forall w : Try.state,
         let asked :=
           {| globals := globals w; gui := gui w;
              events := events w
                        ++ [EvAskYesNo (lit "Load Files")
                              (lit "Would you like to load job description and resume now?")] |} in
         open_dialogs (events (snd (Try.prompt_load_files ext w)))
         = open_dialogs (events w)
           ++ (if askyesno ext (events w) then
                 match fst (Try.load_job_description ext asked) with
                 | Ok _ => [lit "Select Job Description";
                            lit "Select Candidate Resume"]
                 | Raised _ => [lit "Select Job Description"]
                 end
               else [])).
Proof.
  split; intros [g u t]; cbn zeta; cbn [globals gui events]; run_prompt.
  - destruct (askyesno ext t).
    + match goal with
      | |- context [Main.load_job_description ext ?W] =>
          pose proof (main_load_job_description_dialog ext W) as Hjd;
          destruct (Main.load_job_description ext W) as [[[]|e] w1]
      end; cbn [fst snd] in Hjd |- *.
      * rewrite main_load_candidate_resume_dialog, Hjd. cbn [events].
        unfold open_dialogs. rewrite flat_map_app. cbn [flat_map app].
        now rewrite app_nil_r, <- app_assoc.
      * rewrite Hjd. cbn [events]. unfold open_dialogs.
        rewrite flat_map_app. cbn [flat_map app]. now rewrite app_nil_r.
    + cbn [snd events]. unfold open_dialogs. rewrite flat_map_app.
      cbn [flat_map app]. reflexivity.
  - destruct (askyesno ext t).
    + match goal with
      | |- context [Try.load_job_description ext ?W] =>
          pose proof (try_load_job_description_dialog ext W) as Hjd;
          destruct (Try.load_job_description ext W) as [[[]|e] w1]
      end; cbn [fst snd] in Hjd |- *.
      * rewrite try_load_candidate_resume_dialog, Hjd. cbn [events].
        unfold open_dialogs. rewrite flat_map_app. cbn [flat_map app].
        now rewrite app_nil_r, <- app_assoc.
      * rewrite Hjd. cbn [events]. unfold open_dialogs.
        rewrite flat_map_app. cbn [flat_map app]. now rewrite app_nil_r.
    + cbn [snd events]. unfold open_dialogs. rewrite flat_map_app.
      cbn [flat_map app]. reflexivity.
Qed.
